(** * TransitApp enterprise GIS pipeline: ingest, incremental transform, merge

    A shallow embedding of [src/ingest_portal_to_sql_raw.py] and
    [src/transform_incremental_clean.py].  Python values, dictionaries and
    exceptions are modelled explicitly; SHA-256 and the UTF-8 encoder are
    executable, so every digest below is the one [hashlib] prints. *)

From Stdlib Require Import ZArith List String Ascii Lia Bool Sorted.
From stdpp Require Import gmap strings list fin_maps.

Import ListNotations.
Local Open Scope Z_scope.

(* ===================================================================== *)
(** ** Python values, strings and exceptions *)
(* ===================================================================== *)

Module Py.

(** A Python [str] is a sequence of Unicode code points. *)
Definition pystr := list Z.

(** The code points of an ASCII literal. *)
Fixpoint text (s : string) : pystr :=
  match s with
  | EmptyString => []
  | String a rest => Z.of_N (N_of_ascii a) :: text rest
  end.

(** The exceptions the two scripts can surface. *)
Inductive exn :=
| TypeError | KeyError | ValueError | OverflowError
| IntegrityError            (* constraint violation reported by the store *)
| ExternalError (stage : string).   (* network, driver or store failure *)

Inductive result (A : Type) :=
| Ok (a : A)
| Raise (e : exn).
Arguments Ok {A} a.
Arguments Raise {A} e.

Definition bind {A B} (m : result A) (k : A -> result B) : result B :=
  match m with
  | Ok a => k a
  | Raise e => Raise e
  end.

Fixpoint mapM {A B} (f : A -> result B) (l : list A) : result (list B) :=
  match l with
  | [] => Ok []
  | a :: rest =>
      bind (f a) (fun b => bind (mapM f rest) (fun bs => Ok (b :: bs)))
  end.

(** Decimal digits of a non-negative integer, most significant first. *)
Fixpoint digits_fuel (fuel : nat) (n : Z) (acc : pystr) : pystr :=
  match fuel with
  | O => acc
  | S fuel' =>
      let acc' := (48 + n mod 10) :: acc in
      if n <? 10 then acc' else digits_fuel fuel' (n / 10) acc'
  end.

Definition nat_str (n : Z) : pystr :=
  digits_fuel (S (Z.to_nat (Z.log2 n))) n [].

(** [n] on at least [width] digits, as the format spec [0{width}d]. *)
Definition zero_padded (width : nat) (n : Z) : pystr :=
  let ds := nat_str n in
  repeat 48 (width - length ds) ++ ds.

(** *** Dates and times

    A naive [datetime] is the count of microseconds since the midnight
    that starts proleptic Gregorian ordinal 0, so that ordinal day [o]
    (as [date.toordinal]) begins at [o * DAY]. *)
Definition datetime := Z.
Definition DAY : Z := 86400000000.
Definition MINORDINAL : Z := 1.          (* date.min = 0001-01-01 *)
Definition MAXORDINAL : Z := 3652059.    (* date.max = 9999-12-31 *)

(** [datetime.combine(date, time.min)]. *)
Definition midnight (ordinal : Z) : datetime := ordinal * DAY.
Definition ordinal_of (d : datetime) : Z := d / DAY.
Definition time_of (d : datetime) : Z := d mod DAY.

(** Year, month and day of an ordinal (400-year eras that start on
    1 March). *)
Definition civil (ordinal : Z) : Z * Z * Z :=
  let z := ordinal + 305 in
  let era := z / 146097 in
  let doe := z mod 146097 in
  let yoe := (doe - doe / 1460 + doe / 36524 - doe / 146096) / 365 in
  let doy := doe - (365 * yoe + yoe / 4 - yoe / 100) in
  let mp := (5 * doy + 2) / 153 in
  let d := doy - (153 * mp + 2) / 5 + 1 in
  let m := if mp <? 10 then mp + 3 else mp - 9 in
  let y := yoe + era * 400 + (if m <=? 2 then 1 else 0) in
  (y, m, d).

(** [date.isoformat()]. *)
Definition date_str (ordinal : Z) : pystr :=
  let '(y, m, d) := civil ordinal in
  zero_padded 4 y ++ [45] ++ zero_padded 2 m ++ [45] ++ zero_padded 2 d.

(** [str(Timestamp)], which is [isoformat(sep=" ")]: the fraction is
    printed only when it is not zero. *)
Definition datetime_str (t : datetime) : pystr :=
  let s := time_of t / 1000000 in
  let us := time_of t mod 1000000 in
  date_str (ordinal_of t) ++ [32]
    ++ zero_padded 2 (s / 3600) ++ [58]
    ++ zero_padded 2 (s / 60 mod 60) ++ [58]
    ++ zero_padded 2 (s mod 60)
    ++ (if us =? 0 then [] else 46 :: zero_padded 6 us).

(** The values a cell of a row can hold.  A [float] is carried by its
    [repr] text, which determines it ([float(repr(x)) == x]) and is all
    that [bool()] and [str()] look at.  [VNA] is [pandas.NA], [VNaT] is
    [pandas.NaT]. *)
Inductive Value :=
| VNone
| VBool (b : bool)
| VInt (n : Z)
| VFloat (repr : pystr)
| VStr (s : pystr)
| VTimestamp (t : datetime)
| VDate (ordinal : Z)
| VNaT
| VNA.

#[global] Instance Value_eq_dec : EqDecision Value.
Proof. solve_decision. Defined.

Definition pystr_eqb (a b : pystr) : bool := bool_decide (a = b).

(** [bool(v)]: [pandas.NA] refuses the truth test. *)
Definition truth (v : Value) : result bool :=
  match v with
  | VNone => Ok false
  | VBool b => Ok b
  | VInt n => Ok (negb (n =? 0))
  | VFloat r => Ok (negb (pystr_eqb r (text "0.0") || pystr_eqb r (text "-0.0")))
  | VStr s => Ok (negb (pystr_eqb s []))
  | VTimestamp _ | VDate _ | VNaT => Ok true
  | VNA => Raise TypeError
  end.

Definition int_str (n : Z) : pystr :=
  if n <? 0 then 45 :: nat_str (- n) else nat_str n.

(** [str(v)]. *)
Definition str (v : Value) : pystr :=
  match v with
  | VNone => text "None"
  | VBool true => text "True"
  | VBool false => text "False"
  | VInt n => int_str n
  | VFloat r => r
  | VStr s => s
  | VTimestamp t => datetime_str t
  | VDate o => date_str o
  | VNaT => text "NaT"
  | VNA => text "<NA>"
  end.

(** [a or b]. *)
Definition or_else (a b : Value) : result Value :=
  bind (truth a) (fun t => Ok (if t then a else b)).

(** [sep.join(parts)]. *)
Fixpoint join (sep : pystr) (parts : list pystr) : pystr :=
  match parts with
  | [] => []
  | [p] => p
  | p :: rest => p ++ sep ++ join sep rest
  end.

(** UTF-8 bytes of one code point under [errors="ignore"]: a surrogate
    (U+D800..U+DFFF) cannot be encoded and is dropped. *)
Definition utf8_of_code_point (c : Z) : list Z :=
  if c <? 0x80 then [c]
  else if c <? 0x800 then
    [Z.lor 0xC0 (Z.shiftr c 6); Z.lor 0x80 (Z.land c 0x3F)]
  else if c <? 0x10000 then
    if (0xD800 <=? c) && (c <=? 0xDFFF) then []
    else [Z.lor 0xE0 (Z.shiftr c 12);
          Z.lor 0x80 (Z.land (Z.shiftr c 6) 0x3F);
          Z.lor 0x80 (Z.land c 0x3F)]
  else
    [Z.lor 0xF0 (Z.shiftr c 18);
     Z.lor 0x80 (Z.land (Z.shiftr c 12) 0x3F);
     Z.lor 0x80 (Z.land (Z.shiftr c 6) 0x3F);
     Z.lor 0x80 (Z.land c 0x3F)].

(** [s.encode("utf-8", errors="ignore")]. *)
Definition encode_utf8_ignore (s : pystr) : list Z :=
  flat_map utf8_of_code_point s.

End Py.

(* ===================================================================== *)
(** ** SHA-256 (FIPS 180-4), as [hashlib.sha256(...).hexdigest()] *)
(* ===================================================================== *)

Module Sha256.

Definition word (x : Z) : Z := x mod 2 ^ 32.
Definition add32 (x y : Z) : Z := word (x + y).
Definition rotr (n x : Z) : Z :=
  Z.lor (Z.shiftr x n) (word (Z.shiftl x (32 - n))).
Definition not32 (x : Z) : Z := Z.lxor x (2 ^ 32 - 1).

Definition choose (x y z : Z) : Z := Z.lxor (Z.land x y) (Z.land (not32 x) z).
Definition majority (x y z : Z) : Z :=
  Z.lxor (Z.lxor (Z.land x y) (Z.land x z)) (Z.land y z).
Definition big_sigma0 (x : Z) : Z := Z.lxor (Z.lxor (rotr 2 x) (rotr 13 x)) (rotr 22 x).
Definition big_sigma1 (x : Z) : Z := Z.lxor (Z.lxor (rotr 6 x) (rotr 11 x)) (rotr 25 x).
Definition small_sigma0 (x : Z) : Z := Z.lxor (Z.lxor (rotr 7 x) (rotr 18 x)) (Z.shiftr x 3).
Definition small_sigma1 (x : Z) : Z := Z.lxor (Z.lxor (rotr 17 x) (rotr 19 x)) (Z.shiftr x 10).

(** The constants are the leading 32 fractional bits of the square and
    cube roots of the first primes; they are computed, not tabulated. *)
Definition is_prime (p : Z) : bool :=
  (2 <=? p) && forallb (fun d => negb (p mod d =? 0)) (map Z.of_nat (seq 2 (Z.to_nat p - 2))).

Definition first_primes (n : nat) : list Z :=
  firstn n (filter is_prime (map Z.of_nat (seq 2 320))).

(** Integer cube root, one bit at a time from bit [b] down. *)
Fixpoint cube_root_bits (b : nat) (n acc : Z) : Z :=
  let try := acc + 2 ^ Z.of_nat b in
  let acc' := if try * try * try <=? n then try else acc in
  match b with
  | O => acc'
  | S b' => cube_root_bits b' n acc'
  end.

Definition round_constants : list Z :=
  Eval vm_compute in
    map (fun p => word (cube_root_bits 40 (p * 2 ^ 96) 0)) (first_primes 64).

Definition initial_state : list Z :=
  Eval vm_compute in
    map (fun p => word (Z.sqrt (p * 2 ^ 64))) (first_primes 8).

(** Big-endian bytes of [x], [n] of them. *)
Fixpoint be_bytes (n : nat) (x : Z) : list Z :=
  match n with
  | O => []
  | S n' => (Z.shiftr x (8 * Z.of_nat n')) mod 256 :: be_bytes n' x
  end.

Definition be_word (bs : list Z) : Z :=
  fold_left (fun acc b => acc * 256 + b) bs 0.

(** Padding: 0x80, zeros up to 56 mod 64, the bit length on 8 bytes. *)
Definition pad (msg : list Z) : list Z :=
  let len := Z.of_nat (length msg) in
  msg ++ [0x80] ++ repeat 0 (Z.to_nat ((55 - len) mod 64)) ++ be_bytes 8 (8 * len).

Fixpoint chunks (fuel size : nat) (l : list Z) : list (list Z) :=
  match fuel with
  | O => []
  | S fuel' =>
      match l with
      | [] => []
      | _ => firstn size l :: chunks fuel' size (skipn size l)
      end
  end.

(** The message schedule, newest word first. *)
Fixpoint schedule_rev (n : nat) (ws : list Z) : list Z :=
  match n with
  | O => ws
  | S n' =>
      let w := add32 (add32 (small_sigma1 (nth 1 ws 0)) (nth 6 ws 0))
                     (add32 (small_sigma0 (nth 14 ws 0)) (nth 15 ws 0)) in
      schedule_rev n' (w :: ws)
  end.

Definition schedule (block : list Z) : list Z :=
  rev (schedule_rev 48 (rev (map be_word (chunks 16 4 block)))).

Definition round (st : list Z) (kw : Z * Z) : list Z :=
  match st with
  | [a; b; c; d; e; f; g; h] =>
      let t1 := add32 (add32 (add32 h (big_sigma1 e)) (add32 (choose e f g) (fst kw))) (snd kw) in
      let t2 := add32 (big_sigma0 a) (majority a b c) in
      [add32 t1 t2; a; b; c; add32 d t1; e; f; g]
  | _ => st
  end.

Fixpoint add_words (xs ys : list Z) : list Z :=
  match xs, ys with
  | x :: xs', y :: ys' => add32 x y :: add_words xs' ys'
  | _, _ => []
  end.

Definition compress (st block : list Z) : list Z :=
  add_words st (fold_left round (combine round_constants (schedule block)) st).

Definition digest (msg : list Z) : list Z :=
  let padded := pad msg in
  flat_map (be_bytes 4)
    (fold_left compress (chunks (length padded) 64 padded) initial_state).

Definition hex_digit (d : Z) : ascii :=
  ascii_of_N (Z.to_N (if d <? 10 then 48 + d else 87 + d)).

Fixpoint hex (bs : list Z) : string :=
  match bs with
  | [] => EmptyString
  | b :: rest => String (hex_digit (b / 16)) (String (hex_digit (b mod 16)) (hex rest))
  end.

Definition hexdigest (msg : list Z) : string := hex (digest msg).

End Sha256.


(* ===================================================================== *)
(** ** Rows, frames and the pandas conversions *)
(* ===================================================================== *)

Module Frame.
Import Py.
Local Open Scope string_scope.
Local Open Scope list_scope.
Local Open Scope Z_scope.

(** [row.get(k)]: [None] when the key is absent. *)
Definition get (row : gmap string Value) (k : string) : Value :=
  default VNone (row !! k).

(** A frame: its column labels and its rows, each row a dictionary
    (what [Series.to_dict()] gives for the row). *)
Record DataFrame := {
  columns : list string;
  rows : list (gmap string Value)
}.

(** [df.empty]: some axis has length zero. *)
Definition empty (df : DataFrame) : bool :=
  match rows df, columns df with
  | [], _ | _, [] => true
  | _, _ => false
  end.

Definition has_column (df : DataFrame) (c : string) : bool :=
  bool_decide (c ∈ columns df).

(** [df[dst] = f(df[src])] for an element-wise [f]; [df[src]] raises
    [KeyError] on an unknown label, a new label is appended. *)
Definition assign (dst src : string) (f : Value -> Value) (df : DataFrame)
  : result DataFrame :=
  if has_column df src then
    Ok {| columns := if has_column df dst then columns df else columns df ++ [dst];
          rows := map (fun r => <[dst := f (get r src)]> r) (rows df) |}
  else Raise KeyError.

Fixpoint assign_each (cols : list string) (f : Value -> Value) (df : DataFrame)
  : result DataFrame :=
  match cols with
  | [] => Ok df
  | c :: rest => bind (assign c c f df) (assign_each rest f)
  end.

(** A row rebuilt from [(source label, new label)] pairs. *)
Definition project (sel : list (string * string)) (r : gmap string Value)
  : gmap string Value :=
  fold_right (fun p acc => <[snd p := get r (fst p)]> acc) ∅ sel.

(** The parsers of pandas that the scripts call on cells.  They are
    library code: every result below holds for whatever they return. *)
Class PandasOps := {
  (** [pd.to_datetime(x, errors="coerce")] on a cell that is not
      already a [Timestamp]; [None] is [NaT]. *)
  parse_datetime : Value -> option datetime;
  (** The same with [utc=True], followed by [tz_convert(None)]: the
      naive UTC instant. *)
  parse_datetime_utc : Value -> option datetime;
  (** The number a text denotes, for [pd.to_numeric]. *)
  parse_number : pystr -> option Value
}.

Definition timestamp_or_nat (o : option datetime) : Value :=
  match o with
  | Some t => VTimestamp t
  | None => VNaT
  end.

Definition nan : Value := VFloat (text "nan").

(** [pd.isna] / [Series.isna] on one cell. *)
Definition isna (v : Value) : bool :=
  match v with
  | VNone | VNaT | VNA => true
  | VFloat r => pystr_eqb r (text "nan")
  | _ => false
  end.

Definition is_inf (v : Value) : bool :=
  match v with
  | VFloat r => pystr_eqb r (text "inf") || pystr_eqb r (text "-inf")
  | _ => false
  end.

(** [astype("string")] on one cell: a missing cell is [pandas.NA],
    any other is its text. *)
Definition astype_string (v : Value) : Value :=
  if isna v then VNA else VStr (str v).

Section WithPandas.
Context `{PandasOps}.

(** [pd.to_datetime(x, errors="coerce")]: a [Timestamp] is left as
    it is. *)
Definition to_datetime (v : Value) : option datetime :=
  match v with
  | VTimestamp t => Some t
  | _ => parse_datetime v
  end.

Definition to_datetime_utc (v : Value) : option datetime :=
  match v with
  | VTimestamp t => Some t
  | _ => parse_datetime_utc v
  end.

(** [pd.to_numeric(x, errors="coerce")] on one cell: numbers are
    kept, text is parsed, anything else is NaN.  Cells keep their own
    type; the promotion of a whole column to one dtype is not
    represented. *)
Definition to_numeric (v : Value) : Value :=
  match v with
  | VInt _ | VFloat _ | VBool _ => v
  | VStr s => default nan (parse_number s)
  | _ => nan
  end.

End WithPandas.

End Frame.

(* ===================================================================== *)
(** ** transform_incremental_clean.py *)
(* ===================================================================== *)

Module Transform.
Import Py Frame.
Local Open Scope string_scope.
Local Open Scope list_scope.
Local Open Scope Z_scope.

(** The keys [sha256_rowhash] reads, in the order of its [parts] list. *)
Definition hashed_fields : list string :=
  [ "user_trip_id"; "start_time"; "end_time";
    "start_longitude"; "start_latitude"; "end_longitude"; "end_latitude";
    "service_name"; "route_short_name"; "mode";
    "start_stop_name"; "end_stop_name";
    "source_file"; "file_date_raw"; "Origin_BG"; "Dest_BG" ].

(** One element of [parts]: [str(row.get(k) or "")]. *)
Definition part_of (v : Value) : result pystr :=
  bind (or_else v (VStr [])) (fun x => Ok (str x)).

Definition part (row : gmap string Value) (k : string) : result pystr :=
  part_of (get row k).

Definition rowhash_parts (row : gmap string Value) : result (list pystr) :=
  mapM (part row) hashed_fields.

(** [s = "|".join(parts).encode("utf-8", errors="ignore")]. *)
Definition rowhash_bytes (row : gmap string Value) : result (list Z) :=
  bind (rowhash_parts row) (fun parts =>
    Ok (encode_utf8_ignore (join (text "|") parts))).

Definition sha256_rowhash (row : gmap string Value) : result string :=
  bind (rowhash_bytes row) (fun s => Ok (Sha256.hexdigest s)).

(** *** Configuration and watermark state *)

Record TransformConfig := {
  rolling_days : Z;
  overlap_days : Z;
  proc_days_back : Z;
  proc_region_prefix : option pystr
}.

(** The state file.  [last_file_dt] is written as
    [isoformat(sep=" ")] and read back with [fromisoformat], which
    inverts it: the text is modelled by the datetime it denotes. *)
Record State := {
  last_file_dt : option datetime;
  last_run_utc : option pystr
}.

Definition load_state (file : option State) : State :=
  match file with
  | Some st => st
  | None => {| last_file_dt := None; last_run_utc := None |}
  end.

(** *** Incremental extract *)

(** [dt.timedelta(days=n)], in microseconds. *)
Definition timedelta_days (n : Z) : result Z :=
  if Z.abs n <=? 999999999 then Ok (n * DAY) else Raise OverflowError.

(** [date - timedelta] uses the days of the difference only. *)
Definition date_sub (ordinal delta : Z) : result Z :=
  let o := ordinal - delta / DAY in
  if (MINORDINAL <=? o) && (o <=? MAXORDINAL) then Ok o else Raise OverflowError.

Definition datetime_sub (t : datetime) (delta : Z) : result datetime :=
  let t' := t - delta in
  if (midnight MINORDINAL <=? t') && (t' <? midnight (MAXORDINAL + 1))
  then Ok t' else Raise OverflowError.

(** [today] is [dt.date.today()] as an ordinal. *)
Definition compute_since (today : Z) (last_file_dt : option datetime)
    (rolling_days overlap_days : Z) : result datetime :=
  match last_file_dt with
  | None =>
      bind (timedelta_days rolling_days) (fun delta =>
      bind (date_sub today delta) (fun d =>
      Ok (midnight d)))
  | Some watermark =>
      bind (timedelta_days overlap_days) (fun delta =>
      datetime_sub watermark delta)
  end.

(** The select list of [fetch_new_raw]: source column, result label. *)
Definition select_list : list (string * string) :=
  [ ("user_trip_id", "user_trip_id"); ("start_time", "start_time");
    ("end_time", "end_time");
    ("start_longitude", "start_longitude"); ("start_latitude", "start_latitude");
    ("end_longitude", "end_longitude"); ("end_latitude", "end_latitude");
    ("service_name", "service_name"); ("route_short_name", "route_short_name");
    ("mode", "mode");
    ("start_stop_name", "start_stop_name"); ("end_stop_name", "end_stop_name");
    ("source_file", "source_file"); ("file_date", "file_date_raw");
    ("manhattan_distance_mi", "manhattan_distance_mi");
    ("euclidean_distance_mi", "euclidean_distance_mi");
    ("Origin_BG", "Origin_BG"); ("Dest_BG", "Dest_BG") ].

(** [file_date >= ?]: a NULL never satisfies a comparison. *)
Definition file_date_ge (since : datetime) (r : gmap string Value) : bool :=
  match get r "file_date" with
  | VTimestamp t => since <=? t
  | _ => false
  end.

(** The query of [fetch_new_raw] over the raw table; a column the
    table lacks makes the statement fail. *)
Definition fetch_new_raw (raw_table : DataFrame) (since : datetime)
  : result DataFrame :=
  if forallb (fun p => has_column raw_table (fst p)) select_list then
    Ok {| columns := map snd select_list;
          rows := map (project select_list)
                      (filter (fun r => file_date_ge since r = true) (rows raw_table)) |}
  else Raise (ExternalError "fetch").

(** *** Transform *)

(** The columns of the output frame; all but [row_hash_hex] keep the
    label they have in [df]. *)
Definition clean_columns : list string :=
  [ "row_hash_hex"; "user_trip_id";
    "trip_date"; "start_time_utc"; "end_time_utc";
    "start_longitude"; "start_latitude"; "end_longitude"; "end_latitude";
    "service_name"; "route_short_name"; "mode"; "start_stop_name"; "end_stop_name";
    "source_file"; "file_date_raw";
    "manhattan_distance_mi"; "euclidean_distance_mi";
    "Origin_BG"; "Dest_BG" ].

Section WithPandas.
Context `{PandasOps}.

(** [pd.to_datetime(...).dt.date]. *)
Definition to_date (v : Value) : Value :=
  match to_datetime v with
  | Some t => VDate (ordinal_of t)
  | None => VNaT
  end.

(** [df["row_hash_hex"] = df.apply(lambda r: sha256_rowhash(r.to_dict()), axis=1)]. *)
Definition add_row_hash (df : DataFrame) : result DataFrame :=
  bind (mapM (fun r => bind (sha256_rowhash r) (fun h =>
                Ok (<["row_hash_hex" := VStr (text h)]> r))) (rows df))
       (fun rs => Ok {| columns := columns df ++ ["row_hash_hex"]; rows := rs |}).

(** [pd.DataFrame({...})] over columns of [df], each of which must
    exist. *)
Definition select_clean (df : DataFrame) : result DataFrame :=
  if forallb (has_column df) clean_columns then
    Ok {| columns := clean_columns;
          rows := map (project (map (fun c => (c, c)) clean_columns)) (rows df) |}
  else Raise KeyError.

(** The UTC columns are stored here as naive instants already, so the
    [tz_convert(None)] of the output frame leaves them as they are. *)
Definition clean_transform (raw : DataFrame) : result DataFrame :=
  if empty raw then Ok raw
  else
    bind (assign "trip_date" "file_date_raw" to_date raw) (fun df =>
    bind (assign "start_time_utc" "start_time"
            (fun v => timestamp_or_nat (to_datetime_utc v)) df) (fun df =>
    bind (assign "end_time_utc" "end_time"
            (fun v => timestamp_or_nat (to_datetime_utc v)) df) (fun df =>
    bind (assign_each
            [ "start_longitude"; "start_latitude"; "end_longitude"; "end_latitude";
              "manhattan_distance_mi"; "euclidean_distance_mi" ] to_numeric df) (fun df =>
    bind (assign_each
            [ "user_trip_id"; "Origin_BG"; "Dest_BG"; "source_file" ]
            astype_string df) (fun df =>
    bind (add_row_hash df) (fun df =>
    bind (select_clean df) (fun out =>
    let kept := filter (fun r => isna (get r "trip_date") = false) (rows out) in
    Ok {| columns := columns out;
          rows := map (fmap (fun v => if is_inf v then nan else v)) kept |}))))))).

End WithPandas.

(** *** Load: upsert into the clean table *)

(** What [_sql_safe] is called on.  The staging loop calls it on the
    cells of the clean frame, which are [Value]s.  Its last test is
    for a [pd.Timedelta]: no column that this program reads or builds
    holds time differences, so a cell cannot be one, and the case is an
    argument of its own.  A [Timedelta] is carried by the [repr] of the
    [float] that its [total_seconds()] returns, which is all that
    [_sql_safe] asks of it. *)
Inductive Any :=
| Cell (v : Value)
| Timedelta (total_seconds : pystr).

(** [_sql_safe]: a missing or non-finite cell becomes [None] (NULL),
    a [Timestamp] is cut to milliseconds, a [Timedelta] becomes its
    total seconds, anything else is returned as it is.  ([int(v)] and
    [float(v)] of a numpy scalar leave the number as it is.) *)
Definition _sql_safe (a : Any) : Value :=
  match a with
  | Cell v =>
      if isna v || is_inf v then VNone
      else match v with
           | VTimestamp t => VTimestamp (t - t mod 1000)
           | _ => v
           end
  | Timedelta total_seconds => VFloat total_seconds
  end.

(** [_sql_safe(v)] for a cell [v] of a row of the frame. *)
Definition safe_cell (v : Value) : Value := _sql_safe (Cell v).

(** The NOT NULL columns of [#stg_legtrips]. *)
Definition staging_not_null : list string :=
  [ "row_hash_hex"; "user_trip_id"; "trip_date" ].

(** The text columns of [#stg_legtrips] with their declared sizes:
    [nvarchar(n)], and [varchar(12)] for the two area codes. *)
Definition staging_sizes : list (string * Z) :=
  [ ("row_hash_hex", 64); ("user_trip_id", 100);
    ("service_name", 200); ("route_short_name", 50); ("mode", 50);
    ("start_stop_name", 200); ("end_stop_name", 200);
    ("source_file", 300); ("file_date_raw", 50);
    ("Origin_BG", 12); ("Dest_BG", 12) ].

(** The length of a text as it is measured against the size of a
    column: UTF-16 code units, two for a code point above U+FFFF. *)
Definition utf16_units (s : pystr) : Z :=
  fold_right (fun c n => (if 65535 <? c then 2 else 1) + n) 0 s.

(** A text is not longer than its column.  A cell that is not text is
    bound by its own type and is not measured. *)
Definition fits (r : gmap string Value) (col : string * Z) : bool :=
  match get r (fst col) with
  | VStr s => utf16_units s <=? snd col
  | _ => true
  end.

Definition row_fits (r : gmap string Value) : bool :=
  forallb (fits r) staging_sizes.

Definition row_filled (r : gmap string Value) : bool :=
  forallb (fun c => negb (bool_decide (get r c = VNone))) staging_not_null.

(** [cur.executemany(insert_sql, batch)] into the staging table, with
    [fast_executemany] set: the driver fills the parameter buffers,
    which it sizes from the columns, for every row of the batch before
    it sends any, and refuses a text that is longer than its column;
    the store then refuses a NULL in a NOT NULL column.  Nothing of a
    refused batch is inserted.  Cells are bound as they are: what the
    driver converts when a cell is not of the type of its column is
    not represented. *)
Definition executemany (stg batch : list (gmap string Value))
  : result (list (gmap string Value)) :=
  if negb (forallb row_fits batch) then Raise (ExternalError "truncation")
  else if negb (forallb row_filled batch) then Raise IntegrityError
  else Ok (stg ++ batch).

Definition CHUNK_SIZE : Z := 50000.

(** The staging loop: rows are collected in [batch] and flushed every
    [CHUNK_SIZE] rows.  The state is the staging table, the count
    staged so far and the pending batch. *)
Fixpoint stage_loop (todo : list (gmap string Value))
    (stg : list (gmap string Value)) (staged : nat)
    (batch : list (gmap string Value))
  : result (list (gmap string Value) * nat * list (gmap string Value)) :=
  match todo with
  | [] => Ok (stg, staged, batch)
  | r :: rest =>
      let batch := batch ++ [safe_cell <$> r] in
      if CHUNK_SIZE <=? Z.of_nat (length batch) then
        bind (executemany stg batch) (fun stg =>
        stage_loop rest stg (staged + length batch)%nat [])
      else stage_loop rest stg staged batch
  end.

(** After the loop: [if batch: cur.executemany(...)]. *)
Definition flush (st : list (gmap string Value) * nat * list (gmap string Value))
  : result (list (gmap string Value) * nat) :=
  let '(stg, staged, batch) := st in
  match batch with
  | [] => Ok (stg, staged)
  | _ => bind (executemany stg batch) (fun stg =>
         Ok (stg, (staged + length batch)%nat))
  end.

Definition stage (clean_rows : list (gmap string Value))
  : result (list (gmap string Value) * nat) :=
  bind (stage_loop clean_rows [] O []) flush.

(** A row of the clean table: the binary hash and the other columns. *)
Record CleanRow := {
  row_hash : list Z;
  fields : gmap string Value
}.

(** Modelled from the spec: the declaration of the clean table is not
    among the sources.  Section 6 of the specification gives its
    [content_hash] column as unique; [row_hash_unique] records whether
    the table carries that constraint, so that both cases can be
    stated. *)
Record CleanTable := {
  row_hash_unique : bool;
  stored : list CleanRow
}.

Definition hex_value (c : Z) : option Z :=
  if (48 <=? c) && (c <=? 57) then Some (c - 48)
  else if (97 <=? c) && (c <=? 102) then Some (c - 87)
  else if (65 <=? c) && (c <=? 70) then Some (c - 55)
  else None.

Fixpoint unhex (s : pystr) : option (list Z) :=
  match s with
  | [] => Some []
  | hi :: lo :: rest =>
      match hex_value hi, hex_value lo, unhex rest with
      | Some h, Some l, Some bs => Some (16 * h + l :: bs)
      | _, _, _ => None
      end
  | [_] => None
  end.

(** [CONVERT(varbinary(32), x, 2)]: hexadecimal digits without prefix,
    an error on anything else, at most 32 bytes kept. *)
Definition convert_varbinary32 (v : Value) : result (list Z) :=
  match v with
  | VStr s =>
      match unhex s with
      | Some bs => Ok (firstn 32 bs)
      | None => Raise (ExternalError "convert")
      end
  | _ => Raise (ExternalError "convert")
  end.

Definition to_clean_row (s : gmap string Value) : result CleanRow :=
  bind (convert_varbinary32 (get s "row_hash_hex")) (fun h =>
  Ok {| row_hash := h; fields := delete "row_hash_hex" s |}).

Definition matched (tgt : list CleanRow) (s : CleanRow) : bool :=
  existsb (fun t => bool_decide (row_hash t = row_hash s)) tgt.

(** The [MERGE] statement: every staged row is compared with the rows
    the target held when the statement began, and the unmatched ones
    are inserted; nothing is updated or deleted.  With a unique
    constraint on the hash, inserting a duplicate fails the statement. *)
Definition merge (tbl : CleanTable) (stg : list (gmap string Value))
  : result CleanTable :=
  bind (mapM to_clean_row stg) (fun src =>
  let inserted := filter (fun s => matched (stored tbl) s = false) src in
  let rows' := stored tbl ++ inserted in
  if row_hash_unique tbl && negb (bool_decide (NoDup (map row_hash rows')))
  then Raise IntegrityError
  else Ok {| row_hash_unique := row_hash_unique tbl; stored := rows' |}).

(** [upsert_legtrips_clean]: the new table and the count staged. *)
Definition upsert_legtrips_clean (tbl : CleanTable) (clean_df : DataFrame)
  : result (CleanTable * nat) :=
  if empty clean_df then Ok (tbl, O)
  else if forallb (has_column clean_df) clean_columns then
    bind (stage (map (project (map (fun c => (c, c)) clean_columns)) (rows clean_df)))
      (fun st =>
    bind (merge tbl (fst st)) (fun tbl' =>
    Ok (tbl', snd st)))
  else Raise KeyError.

(** *** The run *)

(** The store: the clean table and how many times the aggregates were
    rebuilt (the refresh procedure itself is outside this program). *)
Record Db := {
  clean : CleanTable;
  refreshes : nat
}.

(** What a run can touch: the state file ([None]: no file), the
    committed store, the uncommitted view of the open connection
    ([None]: no connection), and a trace of the calls made. *)
Inductive Event :=
| EvConnect | EvCommit | EvRollback | EvClose | EvSaveState.

Record Sys := {
  state_file : option State;
  committed : Db;
  connection : option Db;
  trace : list Event
}.

(** The external calls that can fail for reasons of their own. *)
Inductive Stage :=
| AtConnect | AtFetch | AtMerge | AtRefresh | AtCommit | AtSaveState.

#[global] Instance Stage_eq_dec : EqDecision Stage.
Proof. solve_decision. Defined.

(** What a run finds outside: the date, the clock, the raw table and
    the calls that fail. *)
Record Env := {
  today : Z;
  now_utc : pystr;
  raw_table : DataFrame;
  fault : Stage -> option exn
}.

(** Computations over [Sys] that may raise. *)
Definition M (A : Type) : Type := Sys -> Sys * result A.

Definition ret {A} (a : A) : M A := fun s => (s, Ok a).
Definition raise {A} (e : exn) : M A := fun s => (s, Raise e).
Definition lift {A} (r : result A) : M A := fun s => (s, r).
Definition mbind {A B} (m : M A) (k : A -> M B) : M B :=
  fun s => match m s with
           | (s', Ok a) => k a s'
           | (s', Raise e) => (s', Raise e)
           end.

Notation "x <- m ;; k" := (mbind m (fun x => k))
  (at level 60, m at next level, right associativity).
Notation "m ;;; k" := (mbind m (fun _ => k))
  (at level 60, right associativity).

(** [try: body / except Exception: handler; raise]. *)
Definition try_except {A} (body : M A) (handler : M unit) : M A :=
  fun s => match body s with
           | (s', Ok a) => (s', Ok a)
           | (s', Raise e) => (fst (handler s'), Raise e)
           end.

(** [try: body / finally: final]. *)
Definition try_finally {A} (body : M A) (final : M unit) : M A :=
  fun s => let '(s', r) := body s in (fst (final s'), r).

Definition log (ev : Event) : M unit :=
  fun s => ({| state_file := state_file s; committed := committed s;
               connection := connection s; trace := trace s ++ [ev] |}, Ok tt).

Definition check (env : Env) (st : Stage) : M unit :=
  match fault env st with
  | Some e => raise e
  | None => ret tt
  end.

Definition set_connection (c : option Db) : M unit :=
  fun s => ({| state_file := state_file s; committed := committed s;
               connection := c; trace := trace s |}, Ok tt).

(** The view of the open connection. *)
Definition view : M Db :=
  fun s => match connection s with
           | Some d => (s, Ok d)
           | None => (s, Raise (ExternalError "closed"))
           end.

(** [connect_sql]: a connection with [autocommit = False]. *)
Definition connect_sql (env : Env) : M unit :=
  check env AtConnect ;;;
  (fun s => set_connection (Some (committed s)) s) ;;;
  log EvConnect.

Definition cn_commit (env : Env) : M unit :=
  check env AtCommit ;;;
  d <- view ;;
  (fun s => ({| state_file := state_file s; committed := d;
                connection := connection s; trace := trace s |}, Ok tt)) ;;;
  log EvCommit.

Definition cn_rollback : M unit :=
  (fun s => set_connection (Some (committed s)) s) ;;;
  log EvRollback.

Definition cn_close : M unit :=
  set_connection None ;;; log EvClose.

Definition connected : M bool :=
  fun s => (s, Ok (match connection s with Some _ => true | None => false end)).

Definition save_state (env : Env) (st : State) : M unit :=
  check env AtSaveState ;;;
  (fun s => ({| state_file := Some st; committed := committed s;
                connection := connection s; trace := trace s |}, Ok tt)) ;;;
  log EvSaveState.

Definition fetch (env : Env) (since : datetime) : M DataFrame :=
  check env AtFetch ;;; view ;;; lift (fetch_new_raw (raw_table env) since).

Definition upsert (env : Env) (clean_df : DataFrame) : M nat :=
  check env AtMerge ;;;
  d <- view ;;
  r <- lift (upsert_legtrips_clean (clean d) clean_df) ;;
  set_connection (Some {| clean := fst r; refreshes := refreshes d |}) ;;;
  ret (snd r).

(** [refresh_rolling_aggregates]: the procedure call, in the open
    transaction. *)
Definition refresh_rolling_aggregates (env : Env) : M unit :=
  check env AtRefresh ;;;
  d <- view ;;
  set_connection (Some {| clean := clean d; refreshes := S (refreshes d) |}).

(** The largest of the cells that are not [None], if any. *)
Definition max_datetime (ts : list (option datetime)) : option datetime :=
  fold_left (fun acc o =>
               match acc, o with
               | Some a, Some b => Some (Z.max a b)
               | None, o => o
               | acc, None => acc
               end) ts None.

Section Run.
Context `{PandasOps}.

(** [raw["file_date_raw"]], then [pd.to_datetime(...).max()]. *)
Definition max_file_date (raw : DataFrame) : result (option datetime) :=
  if has_column raw "file_date_raw"
  then Ok (max_datetime (map (fun r => to_datetime (get r "file_date_raw")) (rows raw)))
  else Raise KeyError.

(** The watermark update that follows the commit. *)
Definition advance (env : Env) (state : State) (raw : DataFrame) : result State :=
  bind (if empty raw then Ok state
        else bind (max_file_date raw) (fun max_fdt =>
             Ok match max_fdt with
                | Some t => {| last_file_dt := Some t; last_run_utc := last_run_utc state |}
                | None => state
                end)) (fun state =>
  Ok {| last_file_dt := last_file_dt state; last_run_utc := Some (now_utc env) |}).

Definition run (cfg : TransformConfig) (env : Env) : M unit :=
  state <- (fun s => (s, Ok (load_state (state_file s)))) ;;
  since <- lift (compute_since (today env) (last_file_dt state)
                   (rolling_days cfg) (overlap_days cfg)) ;;
  try_finally
    (try_except
       (connect_sql env ;;;
        raw <- fetch env since ;;
        clean_df <- lift (clean_transform raw) ;;
        upsert env clean_df ;;;
        refresh_rolling_aggregates env ;;;
        cn_commit env ;;;
        state <- lift (advance env state raw) ;;
        save_state env state)
       (c <- connected ;; if c then cn_rollback else ret tt))
    (c <- connected ;; if c then cn_close else ret tt).

(** Runs one after the other, each in the world the previous one
    left, told apart by what they find outside. *)
Fixpoint run_all (cfg : TransformConfig) (envs : list Env) (s : Sys)
  : list (Sys * result unit) :=
  match envs with
  | [] => []
  | env :: rest =>
      let r := run cfg env s in
      r :: run_all cfg rest (fst r)
  end.

End Run.

End Transform.

(* ===================================================================== *)
(** ** ingest_portal_to_sql_raw.py *)
(* ===================================================================== *)

Module Ingest.
Import Py Frame.
Local Open Scope string_scope.
Local Open Scope list_scope.
Local Open Scope Z_scope.

Record IngestConfig := {
  filename_substring : pystr;
  file_suffix : pystr;
  bg_id_field : string
}.

Fixpoint starts_with (p s : pystr) : bool :=
  match p, s with
  | [], _ => true
  | a :: p', b :: s' => (a =? b) && starts_with p' s'
  | _ :: _, [] => false
  end.

Fixpoint remove_fuel (fuel : nat) (old s : pystr) : pystr :=
  match fuel with
  | O => s
  | S fuel' =>
      match s with
      | [] => []
      | c :: rest =>
          if starts_with old s then remove_fuel fuel' old (skipn (length old) s)
          else c :: remove_fuel fuel' old rest
      end
  end.

(** [s.replace(old, "")]. *)
Definition remove_all (old s : pystr) : pystr :=
  match old with
  | [] => s
  | _ => remove_fuel (length s) old s
  end.

(** The geometry the script leaves to geopandas: the polygons, the
    strict containment test of [sjoin(..., predicate="within")] on a
    point given by longitude and latitude, and the two distances in
    miles between projected points.  Library code again: the results
    hold for any of them. *)
Class GeoOps := {
  Polygon : Type;
  within : Value -> Value -> Polygon -> bool;
  manhattan_mi : Value -> Value -> Value -> Value -> Value;
  euclidean_mi : Value -> Value -> Value -> Value -> Value
}.

Definition coord_cols : list string :=
  [ "start_longitude"; "start_latitude"; "end_longitude"; "end_latitude" ].

(** [df[c] = v] for a scalar [v]. *)
Definition set_scalar (c : string) (v : Value) (df : DataFrame) : DataFrame :=
  {| columns := if has_column df c then columns df else columns df ++ [c];
     rows := map (fun r => <[c := v]> r) (rows df) |}.

(** [df[c] = values] for an array: the lengths must agree. *)
Definition set_column (c : string) (values : list Value) (df : DataFrame)
  : result DataFrame :=
  if bool_decide (length values = length (rows df)) then
    Ok {| columns := if has_column df c then columns df else columns df ++ [c];
          rows := zip_with (fun r v => <[c := v]> r) (rows df) values |}
  else Raise ValueError.

Section Enrich.
Context `{PandasOps} `{GeoOps}.

(** The loop over [coord_cols]: the check, then the conversion. *)
Fixpoint clean_coords (cols : list string) (df : DataFrame) : result DataFrame :=
  match cols with
  | [] => Ok df
  | c :: rest =>
      if has_column df c
      then bind (assign c c to_numeric df) (clean_coords rest)
      else Raise KeyError
  end.

(** [df.dropna(subset=coord_cols).reset_index(drop=True)]. *)
Definition dropna_coords (df : DataFrame) : DataFrame :=
  {| columns := columns df;
     rows := filter (fun r => forallb (fun c => negb (isna (get r c))) coord_cols = true)
                    (rows df) |}.

(** [gpd.sjoin(points, bg, how="left", predicate="within").sort_index()],
    read at the area-code column: one row for each polygon the point
    is within, and one row with a missing code for a point that is in
    none.  Rows appear by point; the order among the rows of one point
    is never observed. *)
Definition sjoin_codes (points : list (Value * Value))
    (bg : list (Value * Polygon)) : list Value :=
  flat_map (fun p =>
              match filter (fun g => within (fst p) (snd p) (snd g) = true) bg with
              | [] => [nan]
              | hits => map fst hits
              end) points.

Definition area_codes (lon lat : string) (bg : list (Value * Polygon))
    (df : DataFrame) : list Value :=
  map astype_string
      (sjoin_codes (map (fun r => (get r lon, get r lat)) (rows df)) bg).

Definition enrich_file_dataframe (df : DataFrame) (fname : pystr)
    (cfg : IngestConfig) (bg : list (Value * Polygon)) : result DataFrame :=
  let df := set_scalar "source_file" (VStr fname) df in
  let date_str :=
    remove_all (file_suffix cfg)
      (remove_all (filename_substring cfg ++ text "_") fname) in
  let df := set_scalar "file_date" (timestamp_or_nat (to_datetime (VStr date_str))) df in
  bind (clean_coords coord_cols df) (fun df =>
  let df := dropna_coords df in
  if empty df then Ok df
  else
    let distance (f : Value -> Value -> Value -> Value -> Value) :=
      map (fun r => f (get r "start_longitude") (get r "start_latitude")
                      (get r "end_longitude") (get r "end_latitude")) (rows df) in
    bind (set_column "manhattan_distance_mi" (distance manhattan_mi) df) (fun df =>
    bind (set_column "euclidean_distance_mi" (distance euclidean_mi) df) (fun df =>
    bind (set_column "Origin_BG"
            (area_codes "start_longitude" "start_latitude" bg df) df) (fun df =>
    bind (set_column "Dest_BG"
            (area_codes "end_longitude" "end_latitude" bg df) df) (fun df =>
    assign_each [ "Origin_BG"; "Dest_BG"; "source_file" ] astype_string df))))).

(** What the portal gives for one listed file: a failed request, a
    body [read_csv] cannot parse, or a frame. *)
Inductive Download :=
| HttpError (e : exn)
| Unparsable
| Csv (df : DataFrame).

Record PortalFile := {
  name : pystr;
  download : Download
}.

(** [get_already_loaded_files]; [None] is a table that does not
    exist. *)
Definition get_already_loaded_files (table : option DataFrame) : result (list pystr) :=
  match table with
  | None => Ok []
  | Some t =>
      if has_column t "source_file" then
        Ok (map (fun r => str (get r "source_file"))
                (filter (fun r => isna (get r "source_file") = false) (rows t)))
      else Raise (ExternalError "read_sql")
  end.

(** [write_to_sql]: append, creating the table when it is missing.  A
    failure of the store is not represented. *)
Definition write_to_sql (df : DataFrame) (table : option DataFrame)
  : option DataFrame * nat :=
  if empty df then (table, O)
  else match table with
       | None => (Some df, length (rows df))
       | Some t => (Some {| columns := columns t; rows := rows t ++ rows df |},
                    length (rows df))
       end.

(** The loop of [run] over the new files. *)
Fixpoint ingest_files (cfg : IngestConfig) (bg : list (Value * Polygon))
    (files : list PortalFile) (table : option DataFrame) (total : nat)
  : option DataFrame * result nat :=
  match files with
  | [] => (table, Ok total)
  | f :: rest =>
      match download f with
      | HttpError e => (table, Raise e)
      | Unparsable => ingest_files cfg bg rest table total
      | Csv df =>
          match enrich_file_dataframe df (name f) cfg bg with
          | Raise e => (table, Raise e)
          | Ok df2 =>
              if empty df2 then ingest_files cfg bg rest table total
              else
                let '(table', inserted) := write_to_sql df2 table in
                ingest_files cfg bg rest table' (total + inserted)%nat
          end
      end
  end.

(** [run]: the files not loaded yet are ingested in listing order.
    The result is the raw table left behind and what [run] returned
    or raised. *)
Definition run (cfg : IngestConfig) (bg : list (Value * Polygon))
    (listing : list PortalFile) (table : option DataFrame)
  : option DataFrame * result nat :=
  match get_already_loaded_files table with
  | Raise e => (table, Raise e)
  | Ok existing =>
      let new_files := filter (fun f => name f ∉ existing) listing in
      match new_files with
      | [] => (table, Ok O)
      | _ => ingest_files cfg bg new_files table O
      end
  end.

End Enrich.

End Ingest.

(* ===================================================================== *)
(** ** ingest_portal_to_sql_raw.py: the listing of the portal *)
(* ===================================================================== *)

Module Listing.
Import Py Frame Ingest.
Local Open Scope list_scope.
Local Open Scope Z_scope.

(** [s.endswith(suffix)]. *)
Definition ends_with (suffix s : pystr) : bool :=
  starts_with (rev suffix) (rev s).

(** [sub in s]. *)
Fixpoint contains (sub s : pystr) : bool :=
  starts_with sub s
  || match s with
     | [] => false
     | _ :: rest => contains sub rest
     end.

(** What the listing leaves to libraries: the decimal value of a
    character of Unicode category Nd, which is what [\d] matches and
    what [int] reads, and [urllib.parse.urljoin]. *)
Class TextOps := {
  decimal : Z -> option Z;
  urljoin : pystr -> pystr -> pystr
}.

(** The order of [str], by code points. *)
Fixpoint pystr_lt (a b : pystr) : bool :=
  match a, b with
  | _, [] => false
  | [], _ :: _ => true
  | x :: a', y :: b' => (x <? y) || ((x =? y) && pystr_lt a' b')
  end.

(** [sorted(set(l))], built by insertion: a text that is already there
    is not inserted again. *)
Fixpoint insert_sorted (u : pystr) (l : list pystr) : list pystr :=
  match l with
  | [] => [u]
  | v :: rest =>
      if pystr_lt u v then u :: l
      else if pystr_eqb u v then l
      else v :: insert_sorted u rest
  end.

Definition sorted_set (l : list pystr) : list pystr :=
  fold_right insert_sorted [] l.

(** [url.split("/")[-1]]: what follows the last slash. *)
Definition file_name (url : pystr) : pystr :=
  fold_left (fun acc c => if c =? 47 then [] else acc ++ [c]) url [].

Section WithText.
Context `{TextOps}.

(** A match of [(\d{4})-\d{2}-\d{2}] at the start of [s], as the year
    [int(m.group(1))]. *)
Definition date_at (s : pystr) : option Z :=
  match s with
  | y1 :: rest =>
      match decimal y1 with
      | None => None
      | Some a =>
          match rest with
          | y2 :: y3 :: y4 :: h1 :: m1 :: m2 :: h2 :: d1 :: d2 :: _ =>
              match decimal y2, decimal y3, decimal y4,
                    decimal m1, decimal m2, decimal d1, decimal d2 with
              | Some b, Some c, Some d, Some _, Some _, Some _, Some _ =>
                  if (h1 =? 45) && (h2 =? 45)
                  then Some (1000 * a + 100 * b + 10 * c + d)
                  else None
              | _, _, _, _, _, _, _ => None
              end
          | _ => None
          end
      end
  | [] => None
  end.

(** [re.search]: the leftmost match. *)
Fixpoint search_date (s : pystr) : option Z :=
  match s with
  | [] => None
  | _ :: rest =>
      match date_at s with
      | Some year => Some year
      | None => search_date rest
      end
  end.

(** The test of the loop body on one [href]; [years] is
    [cfg.only_years], and [if cfg.only_years:] is false for [None] and
    for an empty list. *)
Definition wanted (cfg : IngestConfig) (years : option (list Z)) (href : pystr) : bool :=
  ends_with (file_suffix cfg) href && contains (filename_substring cfg) href
  && match years with
     | None | Some [] => true
     | Some ys =>
         match search_date href with
         | Some year => bool_decide (year ∈ ys)
         | None => true
         end
     end.

(** The URLs returned for the [href]s of a page, in document order. *)
Definition matching_urls (cfg : IngestConfig) (listing_url : pystr)
    (years : option (list Z)) (hrefs : list pystr) : list pystr :=
  sorted_set (map (urljoin listing_url) (List.filter (wanted cfg years) hrefs)).

(** [list_matching_files]; [page] is what the request and the parse of
    the listing page give: the [href]s of its anchors, or the error of
    the request. *)
Definition list_matching_files (cfg : IngestConfig) (listing_url : pystr)
    (years : option (list Z)) (page : result (list pystr)) : result (list pystr) :=
  bind page (fun hrefs => Ok (matching_urls cfg listing_url years hrefs)).

End WithText.

End Listing.

(* ===================================================================== *)
(** ** Sample data *)
(* ===================================================================== *)

Module Sample.
Import Py Frame Transform.
Local Open Scope string_scope.
Local Open Scope list_scope.
Local Open Scope Z_scope.

(** 2024-05-01 as an ordinal. *)
Definition may_1st : Z := 739007.

(** One leg of a trip as the raw table returns it. *)
Definition leg : gmap string Value :=
  list_to_map
    [ ("user_trip_id", VStr (text "trip-0001"));
      ("start_time", VStr (text "2024-05-01 12:00:00+00:00"));
      ("end_time", VStr (text "2024-05-01 12:20:00+00:00"));
      ("start_longitude", VFloat (text "-98.4936"));
      ("start_latitude", VFloat (text "29.4241"));
      ("end_longitude", VFloat (text "-98.5"));
      ("end_latitude", VFloat (text "29.43"));
      ("service_name", VStr (text "VIA"));
      ("route_short_name", VStr (text "100"));
      ("mode", VStr (text "bus"));
      ("start_stop_name", VStr (text "Main"));
      ("end_stop_name", VStr (text "Market"));
      ("source_file", VStr (text "tapped_trip_view_legs_2024-05-01.csv"));
      ("file_date_raw", VTimestamp (midnight may_1st));
      ("manhattan_distance_mi", VFloat (text "0.8"));
      ("euclidean_distance_mi", VFloat (text "0.6"));
      ("Origin_BG", VStr (text "480291101001"));
      ("Dest_BG", VStr (text "480291101002")) ].

(** Another leg, and the first leg with its start time written in
    another ISO 8601 form. *)
Definition leg2 : gmap string Value :=
  <["user_trip_id" := VStr (text "trip-0002")]> leg.
Definition leg_iso : gmap string Value :=
  <["start_time" := VStr (text "2024-05-01T12:00:00Z")]> leg.

(** The first leg fetched twice, its start time written in two ways. *)
Definition same_instant_twice : list (gmap string Value) :=
  [ <["start_time" := VStr (text "2024-05-01 12:00:00+00:00")]> leg; leg_iso ].

Definition noon : datetime := midnight may_1st + 12 * 3600 * 1000000.

(** A fragment of the pandas parsers, enough for the legs above. *)
Definition parse_utc (v : Value) : option datetime :=
  match v with
  | VStr s =>
      if pystr_eqb s (text "2024-05-01 12:00:00+00:00") then Some noon
      else if pystr_eqb s (text "2024-05-01T12:00:00Z") then Some noon
      else if pystr_eqb s (text "2024-05-01 12:20:00+00:00")
           then Some (noon + 20 * 60 * 1000000)
      else None
  | _ => None
  end.

Definition parse_day (v : Value) : option datetime :=
  match v with
  | VStr s =>
      if pystr_eqb s (text "2024-05-01") then Some (midnight may_1st)
      else if pystr_eqb s (text "2024-05-02") then Some (midnight (may_1st + 1))
      else None
  | _ => None
  end.

Definition ops : PandasOps :=
  {| parse_datetime := parse_day;
     parse_datetime_utc := parse_utc;
     parse_number := fun _ => None |}.

Definition frame_of (rs : list (gmap string Value)) : DataFrame :=
  {| columns := map snd select_list; rows := rs |}.

(** The frame [clean_transform] gives, or an empty one if it raised. *)
Definition cleaned (raw : DataFrame) : DataFrame :=
  match @clean_transform ops raw with
  | Ok df => df
  | Raise _ => {| columns := []; rows := [] |}
  end.

Definition no_table (unique : bool) : CleanTable :=
  {| row_hash_unique := unique; stored := [] |}.

(** What an upsert left: the hashes of the table and the count
    staged. *)
Definition upsert_summary (r : result (CleanTable * nat))
  : result (list (list Z) * nat) :=
  match r with
  | Ok (tbl, n) => Ok (map row_hash (stored tbl), n)
  | Raise e => Raise e
  end.

(** Two different legs, cleaned; and one leg that the raw table holds
    twice, cleaned. *)
Definition two_legs : DataFrame := cleaned (frame_of [leg; leg2]).
Definition same_leg_twice : DataFrame := cleaned (frame_of [leg; leg]).

(** The value of a result that is known to be one. *)
Definition is_ok {A} (r : result A) : bool :=
  match r with Ok _ => true | Raise _ => false end.
Definition the {A} (default : A) (r : result A) : A :=
  match r with Ok a => a | Raise _ => default end.
Definition no_frame : DataFrame := {| columns := []; rows := [] |}.

(** The raw table on 2024-05-02: the two legs of the file of
    2024-05-01. *)
Definition as_stored (r : gmap string Value) : gmap string Value :=
  <["file_date" := get r "file_date_raw"]> (delete "file_date_raw" r).

Definition raw_legs : DataFrame :=
  {| columns := map fst select_list; rows := [as_stored leg; as_stored leg2] |}.

(** The raw table one day later: a leg of the file of 2024-05-02 was
    appended. *)
Definition leg3 : gmap string Value :=
  <["file_date_raw" := VTimestamp (midnight (may_1st + 1))]>
    (<["user_trip_id" := VStr (text "trip-0003")]> leg).

Definition raw_legs_later : DataFrame :=
  {| columns := columns raw_legs; rows := rows raw_legs ++ [as_stored leg3] |}.

Definition config : TransformConfig :=
  {| rolling_days := 34; overlap_days := 5;
     proc_days_back := 31; proc_region_prefix := None |}.

Definition env_on (day : Z) (table : DataFrame) (down : option Stage) : Env :=
  {| today := day;
     now_utc := text "2024-05-02T06:00:00+00:00";
     raw_table := table;
     fault := fun st => if bool_decide (Some st = down)
                        then Some (ExternalError "unavailable") else None |}.

(** *** A toy geometry for the ingest: degrees on an integer grid, and
    polygons that are open boxes (west, south, east, north). *)
Definition in_box (lon lat : Value) (b : Z * Z * Z * Z) : bool :=
  match lon, lat with
  | VInt x, VInt y =>
      let '(w, s, e, n) := b in
      (w <? x) && (x <? e) && (s <? y) && (y <? n)
  | _, _ => false
  end.

Definition grid_distance (euclid : bool) (x1 y1 x2 y2 : Value) : Value :=
  match x1, y1, x2, y2 with
  | VInt a, VInt b, VInt c, VInt d =>
      if euclid then VInt (Z.sqrt ((c - a) * (c - a) + (d - b) * (d - b)))
      else VInt (Z.abs (c - a) + Z.abs (d - b))
  | _, _, _, _ => nan
  end.

Definition grid : Ingest.GeoOps :=
  {| Ingest.Polygon := Z * Z * Z * Z;
     Ingest.within := in_box;
     Ingest.manhattan_mi := grid_distance false;
     Ingest.euclidean_mi := grid_distance true |}.

(** Two block groups side by side, and a third one laid over both. *)
Definition block_groups : list (Value * (Z * Z * Z * Z)) :=
  [ (VStr (text "480291101001"), (-99, 28, -97, 30));
    (VStr (text "480291101002"), (-97, 28, -95, 30)) ].

Definition csv_columns : list string :=
  [ "user_trip_id"; "start_time"; "end_time";
    "start_longitude"; "start_latitude"; "end_longitude"; "end_latitude";
    "service_name"; "route_short_name"; "mode";
    "start_stop_name"; "end_stop_name" ].

(** A line of a source file: from inside the first block group to a
    point outside every polygon. *)
Definition csv_line : gmap string Value :=
  list_to_map
    [ ("user_trip_id", VStr (text "trip-0001"));
      ("start_time", VStr (text "2024-05-01 12:00:00+00:00"));
      ("end_time", VStr (text "2024-05-01 12:20:00+00:00"));
      ("start_longitude", VInt (-98)); ("start_latitude", VInt 29);
      ("end_longitude", VInt (-90)); ("end_latitude", VInt 29);
      ("service_name", VStr (text "VIA"));
      ("route_short_name", VStr (text "100"));
      ("mode", VStr (text "bus"));
      ("start_stop_name", VStr (text "Main"));
      ("end_stop_name", VStr (text "Market")) ].

Definition csv_good : DataFrame :=
  {| columns := csv_columns; rows := [csv_line] |}.

(** The same file without its [start_latitude] column. *)
Definition csv_no_latitude : DataFrame :=
  {| columns := List.filter (fun c => negb (bool_decide (c = "start_latitude"))) csv_columns;
     rows := [delete "start_latitude" csv_line] |}.

Definition ingest_config : Ingest.IngestConfig :=
  {| Ingest.filename_substring := text "tapped_trip_view_legs";
     Ingest.file_suffix := text ".csv";
     Ingest.bg_id_field := "GEOID" |}.

Definition file_of (day : string) (d : Ingest.Download) : Ingest.PortalFile :=
  {| Ingest.name := text "tapped_trip_view_legs_" ++ text day ++ text ".csv";
     Ingest.download := d |}.

(** What an ingest run left: the number of rows of the raw table and
    what [run] returned. *)
Definition ingest_summary (r : option DataFrame * result nat) : nat * result nat :=
  (match fst r with Some t => length (rows t) | None => O end, snd r).

(** Before the first run: no state file, an empty clean table. *)
Definition fresh : Sys :=
  {| state_file := None;
     committed := {| clean := no_table true; refreshes := O |};
     connection := None;
     trace := [] |}.

End Sample.

(* ===================================================================== *)
(** ** The content hash *)
(* ===================================================================== *)

Module HashFacts.
Import Py Frame Transform.
Local Open Scope string_scope.
Local Open Scope list_scope.
Local Open Scope Z_scope.

Lemma get_insert_eq (r : gmap string Value) k v : get (<[k := v]> r) k = v.
Proof. unfold get. by rewrite lookup_insert_eq. Qed.

Lemma get_insert_ne (r : gmap string Value) k k' v :
  k ≠ k' → get (<[k := v]> r) k' = get r k'.
Proof. intros Hne. unfold get. by rewrite lookup_insert_ne. Qed.

Lemma mapM_ext {A B} (f g : A → result B) l :
  (∀ a, a ∈ l → f a = g a) → mapM f l = mapM g l.
Proof.
  induction l as [|a l IH]; intros Hfg; simpl; [done|].
  rewrite (Hfg a) by set_solver.
  rewrite IH; [done|]. intros b Hb. apply Hfg. set_solver.
Qed.

Lemma mapM_app {A B} (f : A → result B) l1 l2 :
  mapM f (l1 ++ l2) =
  bind (mapM f l1) (fun b1 => bind (mapM f l2) (fun b2 => Ok (b1 ++ b2))).
Proof.
  induction l1 as [|a l1 IH]; simpl.
  - by destruct (mapM f l2).
  - destruct (f a); simpl; [|done]. rewrite IH.
    destruct (mapM f l1); simpl; [|done]. by destruct (mapM f l2).
Qed.

Lemma Ok_inj {A} (a b : A) : Ok a = Ok b → a = b.
Proof. by intros [= ->]. Qed.

Lemma mapM_length {A B} (f : A → result B) l bs :
  mapM f l = Ok bs → length bs = length l.
Proof.
  revert bs. induction l as [|a l IH]; intros bs Hbs; simpl in Hbs.
  - by injection Hbs as <-.
  - destruct (f a) as [b|]; simpl in Hbs; [|done].
    destruct (mapM f l) as [bs'|]; simpl in Hbs; [|done].
    injection Hbs as <-. simpl. by rewrite (IH bs').
Qed.

(** The joined text around one part: what precedes it and what
    follows it. *)
Definition lead (sep : pystr) (ps : list pystr) : pystr :=
  flat_map (fun p => p ++ sep) ps.
Definition trail (sep : pystr) (ps : list pystr) : pystr :=
  flat_map (fun p => sep ++ p) ps.

Lemma join_cons sep p ps : join sep (p :: ps) = p ++ trail sep ps.
Proof.
  revert p. induction ps as [|q ps IH]; intros p.
  - simpl. by rewrite app_nil_r.
  - change (join sep (p :: q :: ps)) with (p ++ sep ++ join sep (q :: ps)).
    rewrite (IH q). simpl. by rewrite <- app_assoc.
Qed.

Lemma join_middle sep ps1 p ps2 :
  join sep (ps1 ++ p :: ps2) = lead sep ps1 ++ p ++ trail sep ps2.
Proof.
  induction ps1 as [|q ps1 IH].
  - apply join_cons.
  - change ((q :: ps1) ++ p :: ps2) with (q :: (ps1 ++ p :: ps2)).
    destruct (ps1 ++ p :: ps2) as [|x xs] eqn:E.
    + by destruct ps1.
    + change (join sep (q :: x :: xs)) with (q ++ sep ++ join sep (x :: xs)).
      rewrite IH. simpl. by rewrite <- !app_assoc.
Qed.

Lemma encode_app a b :
  encode_utf8_ignore (a ++ b) = encode_utf8_ignore a ++ encode_utf8_ignore b.
Proof. unfold encode_utf8_ignore. apply flat_map_app. Qed.

Lemma part_insert_eq r k v : part (<[k := v]> r) k = part_of v.
Proof. unfold part. by rewrite get_insert_eq. Qed.

Lemma part_insert_ne r k k' v : k ≠ k' → part (<[k := v]> r) k' = part r k'.
Proof. intros. unfold part. by rewrite get_insert_ne. Qed.

Lemma hashed_fields_NoDup : NoDup hashed_fields.
Proof. compute_done. Qed.

(** The parts of a row in which field [k] was set: those of the other
    fields do not depend on the value. *)
Lemma rowhash_parts_insert r k v ks1 ks2 :
  hashed_fields = ks1 ++ k :: ks2 →
  rowhash_parts (<[k := v]> r) =
  bind (mapM (part r) ks1) (fun ps1 =>
  bind (part_of v) (fun p =>
  bind (mapM (part r) ks2) (fun ps2 => Ok (ps1 ++ p :: ps2)))).
Proof.
  intros Hsplit. unfold rowhash_parts.
  pose proof hashed_fields_NoDup as Hnd.
  rewrite Hsplit in Hnd |- *.
  apply NoDup_app in Hnd as (_ & Hdisj & Hnd2).
  apply NoDup_cons in Hnd2 as (Hk2 & _).
  assert (Hk1 : k ∉ ks1) by (intros Hk; apply (Hdisj k Hk); set_solver).
  rewrite mapM_app. simpl.
  rewrite (mapM_ext (part (<[k := v]> r)) (part r) ks1)
    by (intros a Ha; apply part_insert_ne; intros ->; done).
  rewrite (mapM_ext (part (<[k := v]> r)) (part r) ks2)
    by (intros a Ha; apply part_insert_ne; intros ->; done).
  rewrite part_insert_eq.
  destruct (mapM (part r) ks1) as [ps1|]; simpl; [|done].
  destruct (part_of v) as [p|]; simpl; [|done].
  by destruct (mapM (part r) ks2).
Qed.

Lemma rowhash_bytes_middle ps1 p ps2 :
  encode_utf8_ignore (join (text "|") (ps1 ++ p :: ps2)) =
  encode_utf8_ignore (lead (text "|") ps1) ++ encode_utf8_ignore p
    ++ encode_utf8_ignore (trail (text "|") ps2).
Proof. by rewrite join_middle, !encode_app. Qed.

Lemma sha256_rowhash_bytes r b :
  rowhash_bytes r = Ok b → sha256_rowhash r = Ok (Sha256.hexdigest b).
Proof. intros Hb. unfold sha256_rowhash. by rewrite Hb. Qed.

(** A value that tests false is replaced by the empty string. *)
Lemma part_of_falsy v : truth v = Ok false → part_of v = Ok [].
Proof. intros Hv. unfold part_of, or_else. by rewrite Hv. Qed.

(** The hash reads the row through the hashed fields only. *)
Lemma sha256_rowhash_ext r1 r2 :
  (∀ k, k ∈ hashed_fields → get r1 k = get r2 k) →
  sha256_rowhash r1 = sha256_rowhash r2.
Proof.
  intros Hget. unfold sha256_rowhash, rowhash_bytes, rowhash_parts.
  rewrite (mapM_ext (part r1) (part r2)); [done|].
  intros k Hk. unfold part. by rewrite Hget.
Qed.

(** One hashed field changed: the hashed bytes are equal exactly when the
    encoded texts of the two values are. *)
Lemma rowhash_bytes_insert_iff (r : gmap string Value) k v v' b b' :
  k ∈ hashed_fields →
  rowhash_bytes (<[k := v]> r) = Ok b →
  rowhash_bytes (<[k := v']> r) = Ok b' →
  ∃ p p', part_of v = Ok p ∧ part_of v' = Ok p'
    ∧ (b = b' ↔ encode_utf8_ignore p = encode_utf8_ignore p').
Proof.
  intros Hin Hb Hb'.
  apply list_elem_of_split in Hin as (ks1 & ks2 & Hsplit).
  unfold rowhash_bytes in Hb, Hb'.
  rewrite (rowhash_parts_insert r k v ks1 ks2 Hsplit) in Hb.
  rewrite (rowhash_parts_insert r k v' ks1 ks2 Hsplit) in Hb'.
  destruct (mapM (part r) ks1) as [ps1|]; simpl in Hb, Hb'; [|done].
  destruct (part_of v) as [p|]; simpl in Hb; [|done].
  destruct (part_of v') as [p'|]; simpl in Hb'; [|done].
  destruct (mapM (part r) ks2) as [ps2|]; simpl in Hb, Hb'; [|done].
  exists p, p'. split; [done|]. split; [done|].
  injection Hb as <-. injection Hb' as <-.
  rewrite !rowhash_bytes_middle. split.
  - intros Heq. apply app_inv_head in Heq. by apply app_inv_tail in Heq.
  - by intros ->.
Qed.

Lemma rowhash_bytes_ext r1 r2 :
  (∀ k, k ∈ hashed_fields → get r1 k = get r2 k) →
  rowhash_bytes r1 = rowhash_bytes r2.
Proof.
  intros Hget. unfold rowhash_bytes, rowhash_parts.
  rewrite (mapM_ext (part r1) (part r2)); [done|].
  intros k Hk. unfold part. by rewrite Hget.
Qed.

(** [pandas.NA] is not canonicalized: the truth test of [or] raises on
    it, and the hash of a row that holds it in a hashed field raises
    [TypeError]. *)
Lemma part_of_only_type_error v e : part_of v = Raise e → e = TypeError.
Proof.
  destruct v; cbn; intros Hr; try discriminate Hr. by injection Hr as <-.
Qed.

Lemma mapM_raises {A B} (f : A → result B) l a e :
  (∀ x e', f x = Raise e' → e' = e) →
  a ∈ l → f a = Raise e → mapM f l = Raise e.
Proof.
  intros Honly Hin Ha. induction l as [|x l IH]; [by apply elem_of_nil in Hin|].
  cbn [mapM]. destruct (f x) as [b|e'] eqn:Hx; simpl.
  - apply elem_of_cons in Hin as [->|Hin]; [congruence|].
    by rewrite IH.
  - by rewrite (Honly x e' Hx).
Qed.

Lemma na_cell_raises (r : gmap string Value) k :
  k ∈ hashed_fields → sha256_rowhash (<[k := VNA]> r) = Raise TypeError.
Proof.
  intros Hk. unfold sha256_rowhash, rowhash_bytes, rowhash_parts.
  rewrite (mapM_raises _ _ k TypeError); [done| |done|].
  - intros x e. unfold part. apply part_of_only_type_error.
  - by rewrite part_insert_eq.
Qed.

(** C1 (as amended).  The hash is a function of the sixteen hashed
    fields: two rows that agree on them get the same result, so hashing
    a row twice gives the same digest.  A field that is absent or
    [None] contributes the empty string.  When one hashed field of a
    row is changed, the bytes that are hashed change exactly when the
    UTF-8 text of [str(value or "")] changes; the digest is SHA-256 of
    those bytes, so two such rows can share a digest only by hashing
    equal bytes or by a collision of SHA-256. *)
Theorem sha256_rowhash_single_field :
  (∀ r1 r2 : gmap string Value,
      (∀ k, k ∈ hashed_fields → get r1 k = get r2 k) →
      sha256_rowhash r1 = sha256_rowhash r2)
  ∧ (∀ (r : gmap string Value) k,
      r !! k = None ∨ r !! k = Some VNone → part r k = Ok [])
  ∧ (∀ (r : gmap string Value) k v v' b b',
      k ∈ hashed_fields →
      rowhash_bytes (<[k := v]> r) = Ok b →
      rowhash_bytes (<[k := v']> r) = Ok b' →
      sha256_rowhash (<[k := v]> r) = Ok (Sha256.hexdigest b)
      ∧ sha256_rowhash (<[k := v']> r) = Ok (Sha256.hexdigest b')
      ∧ ∃ p p', part_of v = Ok p ∧ part_of v' = Ok p'
          ∧ (b = b' ↔ encode_utf8_ignore p = encode_utf8_ignore p')).
Proof.
  split; [exact sha256_rowhash_ext|]. split.
  - intros r k [Hk|Hk]; unfold part, get; rewrite Hk; reflexivity.
  - intros r k v v' b b' Hin Hb Hb'.
    split; [by apply sha256_rowhash_bytes|].
    split; [by apply sha256_rowhash_bytes|].
    by apply rowhash_bytes_insert_iff with r k.
Qed.

(** C1, a counterexample to the claim as stated: a leg whose start
    longitude is missing and the same leg with start longitude 0.0
    differ in one hashed field and have the same digest. *)
Lemma missing_and_zero_longitude_collide :
  "start_longitude" ∈ hashed_fields
  ∧ VNone ≠ VFloat (text "0.0")
  ∧ sha256_rowhash (<["start_longitude" := VNone]> Sample.leg)
    = Ok "64382468bd9f2616dd584ecbb47bd2be0fc52913f84e0ca101d4a9450aa305fc"
  ∧ sha256_rowhash (<["start_longitude" := VFloat (text "0.0")]> Sample.leg)
    = Ok "64382468bd9f2616dd584ecbb47bd2be0fc52913f84e0ca101d4a9450aa305fc".
Proof.
  split; [compute_done|]. split; [done|]. split; vm_compute; reflexivity.
Qed.

(** C9.  [None], the integer and float zeros, [False] and the empty
    string all test false; a value that tests false contributes the
    empty string to the hash input; and two rows that differ only in
    which such value one field holds get the same digest. *)
Theorem falsy_values_hash_as_empty :
  (∀ v, v ∈ [VNone; VInt 0; VFloat (text "0.0"); VBool false; VStr []] →
        truth v = Ok false)
  ∧ (∀ v, truth v = Ok false → part_of v = Ok [])
  ∧ (∀ (r : gmap string Value) k v1 v2,
      truth v1 = Ok false → truth v2 = Ok false →
      sha256_rowhash (<[k := v1]> r) = sha256_rowhash (<[k := v2]> r)).
Proof.
  split.
  - intros v Hv. repeat (apply elem_of_cons in Hv as [->|Hv]; [reflexivity|]).
    by apply elem_of_nil in Hv.
  - split; [exact part_of_falsy|].
    intros r k v1 v2 H1 H2.
    unfold sha256_rowhash, rowhash_bytes, rowhash_parts.
    rewrite (mapM_ext (part (<[k := v1]> r)) (part (<[k := v2]> r))); [done|].
    intros k' _. destruct (decide (k = k')) as [->|Hne].
    + by rewrite !part_insert_eq, !part_of_falsy.
    + by rewrite !part_insert_ne.
Qed.

(** C9, at a concrete row: a missing end longitude and an end
    longitude of 0.0 give the same digest. *)
Lemma falsy_values_hash_as_empty_witness :
  truth VNone = Ok false ∧ truth (VFloat (text "0.0")) = Ok false
  ∧ sha256_rowhash (<["end_longitude" := VNone]> Sample.leg)
    = sha256_rowhash (<["end_longitude" := VFloat (text "0.0")]> Sample.leg).
Proof.
  split; [reflexivity|]. split; [reflexivity|].
  apply (proj2 (proj2 falsy_values_hash_as_empty)); reflexivity.
Defined.

End HashFacts.

(* ===================================================================== *)
(** ** The extraction boundary *)
(* ===================================================================== *)

Module BoundaryFacts.
Import Py Frame Transform.
Local Open Scope Z_scope.

Lemma midnight_time ordinal : time_of (midnight ordinal) = 0.
Proof. unfold time_of, midnight, DAY. apply Z_mod_mult. Qed.

Lemma midnight_ordinal ordinal : ordinal_of (midnight ordinal) = ordinal.
Proof. unfold ordinal_of, midnight, DAY. by apply Z.div_mul. Qed.

Lemma timedelta_days_ok n :
  Z.abs n ≤ 999999999 → timedelta_days n = Ok (n * DAY).
Proof.
  intros Hn. unfold timedelta_days.
  by rewrite (proj2 (Z.leb_le _ _) Hn).
Qed.

Lemma compute_since_first_run today rolling overlap :
  Z.abs rolling ≤ 999999999 →
  MINORDINAL ≤ today - rolling ≤ MAXORDINAL →
  compute_since today None rolling overlap = Ok (midnight (today - rolling)).
Proof.
  intros Hn [Hlo Hhi]. unfold compute_since.
  rewrite timedelta_days_ok by done. simpl. unfold date_sub.
  replace (rolling * DAY / DAY) with rolling by (unfold DAY; by rewrite Z.div_mul).
  rewrite (proj2 (Z.leb_le _ _) Hlo), (proj2 (Z.leb_le _ _) Hhi). reflexivity.
Qed.

Lemma compute_since_later_run today watermark rolling overlap :
  Z.abs overlap ≤ 999999999 →
  midnight MINORDINAL ≤ watermark - overlap * DAY < midnight (MAXORDINAL + 1) →
  compute_since today (Some watermark) rolling overlap
  = Ok (watermark - overlap * DAY).
Proof.
  intros Hn [Hlo Hhi]. unfold compute_since.
  rewrite timedelta_days_ok by done. simpl. unfold datetime_sub.
  rewrite (proj2 (Z.leb_le _ _) Hlo), (proj2 (Z.ltb_lt _ _) Hhi). reflexivity.
Qed.

(** C5.  Without a previous [last_file_dt] the boundary is midnight of
    the day [rolling_days] before today; with one, it is the watermark
    less [overlap_days] days.  Both hold whenever the result is a date
    Python can represent (years 1 to 9999, at most 999999999 days of
    difference); with no watermark and [rolling_days = 34] that is
    every day from ordinal 35 on, and the boundary is then today - 34
    days at 00:00:00. *)
Theorem compute_since_boundary :
  (∀ today rolling overlap,
      Z.abs rolling ≤ 999999999 →
      MINORDINAL ≤ today - rolling ≤ MAXORDINAL →
      ∃ since, compute_since today None rolling overlap = Ok since
               ∧ ordinal_of since = today - rolling ∧ time_of since = 0)
  ∧ (∀ today watermark rolling overlap,
      Z.abs overlap ≤ 999999999 →
      midnight MINORDINAL ≤ watermark - overlap * DAY < midnight (MAXORDINAL + 1) →
      compute_since today (Some watermark) rolling overlap
      = Ok (watermark - overlap * DAY))
  ∧ (∀ today overlap,
      35 ≤ today ≤ MAXORDINAL →
      compute_since today None 34 overlap = Ok (midnight (today - 34))
      ∧ time_of (midnight (today - 34)) = 0).
Proof.
  split; [|split].
  - intros today rolling overlap Hn Hrange.
    exists (midnight (today - rolling)).
    split; [by apply compute_since_first_run|].
    split; [apply midnight_ordinal | apply midnight_time].
  - exact compute_since_later_run.
  - intros today overlap [Hlo Hhi].
    split; [|apply midnight_time].
    apply compute_since_first_run; unfold MINORDINAL, MAXORDINAL in *; lia.
Qed.

(** C5 on 2024-05-01: the first run starts at 2024-03-28 00:00:00, a
    run after the watermark 2024-05-01 00:00:00 at 2024-04-26
    00:00:00. *)
Lemma compute_since_boundary_witness :
  compute_since Sample.may_1st None 34 5 = Ok (midnight (Sample.may_1st - 34))
  ∧ datetime_str (midnight (Sample.may_1st - 34)) = text "2024-03-28 00:00:00"
  ∧ compute_since Sample.may_1st (Some (midnight Sample.may_1st)) 34 5
    = Ok (midnight Sample.may_1st - 5 * DAY)
  ∧ datetime_str (midnight Sample.may_1st - 5 * DAY) = text "2024-04-26 00:00:00".
Proof.
  split; [apply (proj2 (proj2 compute_since_boundary)); vm_compute; split; discriminate|].
  split; [vm_compute; reflexivity|].
  split; [|vm_compute; reflexivity].
  apply (proj1 (proj2 compute_since_boundary)); vm_compute; [discriminate|].
  split; [discriminate | reflexivity].
Defined.

End BoundaryFacts.

(* ===================================================================== *)
(** ** The insert-only merge *)
(* ===================================================================== *)

Module MergeFacts.
Import Py Frame Transform.
Local Open Scope string_scope.
Local Open Scope list_scope.
Local Open Scope Z_scope.

(** The rows of a frame as they are staged. *)
Definition staged_rows (df : DataFrame) : list (gmap string Value) :=
  map (fmap safe_cell)
      (map (project (map (fun c => (c, c)) clean_columns)) (rows df)).

(** A row that the staging insert takes: no text longer than its
    column, no NULL in a NOT NULL column. *)
Definition row_ok (r : gmap string Value) : bool :=
  row_fits r && row_filled r.

(** The error of a batch that is refused. *)
Definition refusal (batch : list (gmap string Value)) : exn :=
  if forallb row_fits batch then IntegrityError else ExternalError "truncation".

(** The error of the staging loop when it fails. *)
Definition stage_error (rs : list (gmap string Value)) : exn :=
  match stage rs with
  | Raise e => e
  | Ok _ => IntegrityError
  end.

(** The rows of a batch that the target does not hold. *)
Definition unmatched (tgt src : list CleanRow) : list CleanRow :=
  filter (fun s => matched tgt s = false) src.

Lemma forallb_row_ok batch :
  forallb row_ok batch = forallb row_fits batch && forallb row_filled batch.
Proof.
  induction batch as [|r batch IH]; [done|].
  cbn [forallb]. rewrite IH. unfold row_ok.
  destruct (row_fits r), (row_filled r), (forallb row_fits batch); reflexivity.
Qed.

Lemma executemany_eq stg batch :
  executemany stg batch =
  if forallb row_ok batch then Ok (stg ++ batch) else Raise (refusal batch).
Proof.
  unfold executemany, refusal. rewrite forallb_row_ok.
  by destruct (forallb row_fits batch), (forallb row_filled batch).
Qed.

(** What a refused batch raises. *)
Lemma refusal_cases batch :
  forallb row_ok batch = false →
  (refusal batch = IntegrityError ∨ refusal batch = ExternalError "truncation")
  ∧ (forallb row_fits batch = true → refusal batch = IntegrityError)
  ∧ (forallb row_filled batch = true → refusal batch = ExternalError "truncation").
Proof.
  rewrite forallb_row_ok. unfold refusal.
  destruct (forallb row_fits batch), (forallb row_filled batch); try done;
    intros _; (split; [by (left + right)|]); by split.
Qed.

(** Chunking does not show: the loop and the final flush stage every
    row, in order, or fail on the first batch that is refused. *)
Lemma stage_loop_flush todo stg staged batch :
  if forallb row_ok (batch ++ map (fmap safe_cell) todo)
  then bind (stage_loop todo stg staged batch) flush
       = Ok (stg ++ batch ++ map (fmap safe_cell) todo,
             (staged + length batch + length todo)%nat)
  else ∃ e, bind (stage_loop todo stg staged batch) flush = Raise e
            ∧ (e = IntegrityError ∨ e = ExternalError "truncation")
            ∧ (forallb row_fits (batch ++ map (fmap safe_cell) todo) = true →
               e = IntegrityError)
            ∧ (forallb row_filled (batch ++ map (fmap safe_cell) todo) = true →
               e = ExternalError "truncation").
Proof.
  revert stg staged batch.
  induction todo as [|r todo IH]; intros stg staged batch.
  - cbn [map stage_loop bind]. rewrite !app_nil_r, Nat.add_0_r.
    destruct batch as [|b batch].
    + cbn [forallb flush length]. by rewrite app_nil_r, Nat.add_0_r.
    + cbn [flush]. rewrite executemany_eq.
      destruct (forallb row_ok (b :: batch)) eqn:Hok; [reflexivity|].
      exists (refusal (b :: batch)). split; [reflexivity|].
      by apply refusal_cases.
  - cbn [stage_loop map].
    replace (batch ++ (safe_cell <$> r) :: map (fmap safe_cell) todo)
      with ((batch ++ [safe_cell <$> r]) ++ map (fmap safe_cell) todo)
      by (by rewrite <- app_assoc).
    set (batch' := batch ++ [safe_cell <$> r]).
    assert (Hlen : (length batch' = length batch + 1)%nat)
      by (unfold batch'; rewrite length_app; reflexivity).
    destruct (CHUNK_SIZE <=? Z.of_nat (length batch')).
    + rewrite executemany_eq, !forallb_app.
      destruct (forallb row_ok batch') eqn:Hok; cbn [andb bind].
      * specialize (IH (stg ++ batch') (staged + length batch')%nat []).
        cbn [app] in IH.
        destruct (forallb row_ok (map (fmap safe_cell) todo)) eqn:Hrest.
        -- rewrite IH. f_equal. f_equal; [by rewrite <- app_assoc | cbn [length]; lia].
        -- destruct IH as (e & -> & Hcases & Hfit & Hfilled).
           exists e. split; [reflexivity|]. split; [exact Hcases|]. split.
           ++ intros Hall. apply andb_true_iff in Hall as [_ Hall]. by apply Hfit.
           ++ intros Hall. apply andb_true_iff in Hall as [_ Hall]. by apply Hfilled.
      * exists (refusal batch'). split; [reflexivity|].
        destruct (refusal_cases batch' Hok) as (Hcases & Hfit & Hfilled).
        split; [exact Hcases|]. split.
        -- intros Hall. apply andb_true_iff in Hall as [Hall _]. by apply Hfit.
        -- intros Hall. apply andb_true_iff in Hall as [Hall _]. by apply Hfilled.
    + specialize (IH stg staged batch').
      destruct (forallb row_ok (batch' ++ map (fmap safe_cell) todo)).
      * rewrite IH. f_equal. f_equal. cbn [length]. lia.
      * exact IH.
Qed.

Lemma stage_spec rs :
  stage rs =
  if forallb row_ok (map (fmap safe_cell) rs)
  then Ok (map (fmap safe_cell) rs, length rs)
  else Raise (stage_error rs).
Proof.
  unfold stage_error, stage.
  pose proof (stage_loop_flush rs [] O []) as Hloop. cbn [app length] in Hloop.
  destruct (forallb row_ok (map (fmap safe_cell) rs)).
  - rewrite Hloop. reflexivity.
  - destruct Hloop as (e & -> & _). reflexivity.
Qed.

(** What the staging loop raises when it fails. *)
Lemma stage_refused rs :
  forallb row_ok (map (fmap safe_cell) rs) = false →
  (stage_error rs = IntegrityError ∨ stage_error rs = ExternalError "truncation")
  ∧ (forallb row_fits (map (fmap safe_cell) rs) = true →
     stage_error rs = IntegrityError)
  ∧ (forallb row_filled (map (fmap safe_cell) rs) = true →
     stage_error rs = ExternalError "truncation").
Proof.
  intros Hno. unfold stage_error, stage.
  pose proof (stage_loop_flush rs [] O []) as Hloop. cbn [app length] in Hloop.
  rewrite Hno in Hloop. destruct Hloop as (e & -> & Hcases). exact Hcases.
Qed.

Lemma matched_iff tgt s :
  matched tgt s = true ↔ ∃ t, t ∈ tgt ∧ row_hash t = row_hash s.
Proof.
  unfold matched. rewrite existsb_exists. split.
  - intros (t & Ht & Heq). exists t. split; [by apply list_elem_of_In|].
    by apply bool_decide_eq_true in Heq.
  - intros (t & Ht & Heq). exists t. split; [by apply list_elem_of_In|].
    by apply bool_decide_eq_true.
Qed.

Lemma unmatched_iff tgt s :
  matched tgt s = false ↔ ∀ t, t ∈ tgt → row_hash t ≠ row_hash s.
Proof.
  rewrite <- not_true_iff_false, matched_iff. split.
  - intros Hno t Ht Heq. apply Hno. by exists t.
  - intros Hall (t & Ht & Heq). by apply (Hall t).
Qed.

Lemma matched_after tgt src s :
  s ∈ src → matched (tgt ++ unmatched tgt src) s = true.
Proof.
  intros Hs. apply matched_iff.
  destruct (matched tgt s) eqn:Hm.
  - apply matched_iff in Hm as (t & Ht & Heq). exists t. split; [|done].
    apply elem_of_app. by left.
  - exists s. split; [|done]. apply elem_of_app. right.
    apply list_elem_of_filter. by split.
Qed.

Lemma filter_none {A} (P : A → Prop) `{∀ x, Decision (P x)} (l : list A) :
  (∀ x, x ∈ l → ¬ P x) → filter P l = [].
Proof.
  induction l as [|x l IH]; intros Hno; [done|].
  rewrite filter_cons_False by (apply Hno; by left).
  apply IH. intros y Hy. apply Hno. by right.
Qed.

(** After a merge every row of the batch is matched: a second merge
    finds nothing to insert. *)
Lemma unmatched_after tgt src : unmatched (tgt ++ unmatched tgt src) src = [].
Proof.
  apply filter_none. intros s Hs. by rewrite matched_after.
Qed.

(** The batch of a frame as rows of the clean table: the staged rows
    with their hash converted to binary. *)
Definition batch_of (df : DataFrame) : result (list CleanRow) :=
  if empty df then Ok [] else mapM to_clean_row (staged_rows df).

(** A frame that can be staged: it has the clean columns, no NULL in a
    NOT NULL column and no text longer than its column. *)
Definition stageable (df : DataFrame) : bool :=
  negb (empty df) && forallb (has_column df) clean_columns
  && forallb row_ok (staged_rows df).

Definition merged (tbl : CleanTable) (src : list CleanRow) : CleanTable :=
  {| row_hash_unique := row_hash_unique tbl;
     stored := stored tbl ++ unmatched (stored tbl) src |}.

Definition violates (tbl : CleanTable) (src : list CleanRow) : bool :=
  row_hash_unique tbl && negb (bool_decide (NoDup (map row_hash (stored (merged tbl src))))).

Lemma upsert_nonempty tbl df :
  empty df = false →
  upsert_legtrips_clean tbl df =
  if forallb (has_column df) clean_columns then
    if forallb row_ok (staged_rows df) then
      bind (mapM to_clean_row (staged_rows df)) (fun src =>
        if violates tbl src then Raise IntegrityError
        else Ok (merged tbl src, length (rows df)))
    else Raise (stage_error (map (project (map (fun c => (c, c)) clean_columns))
                                 (rows df)))
  else Raise KeyError.
Proof.
  intros Hne. unfold upsert_legtrips_clean. rewrite Hne.
  destruct (forallb (has_column df) clean_columns); [|done].
  rewrite stage_spec. fold (staged_rows df).
  destruct (forallb row_ok (staged_rows df)); [|done].
  simpl. unfold merge. rewrite length_map.
  destruct (mapM to_clean_row (staged_rows df)) as [src|]; [|done].
  simpl. fold (unmatched (stored tbl) src). unfold violates, merged. simpl.
  by destruct (row_hash_unique tbl && _).
Qed.

Lemma merged_again tbl src : merged (merged tbl src) src = merged tbl src.
Proof.
  unfold merged. simpl. by rewrite unmatched_after, app_nil_r.
Qed.

Lemma violates_again tbl src :
  violates tbl src = false → violates (merged tbl src) src = false.
Proof. unfold violates. by rewrite merged_again. Qed.

(** What a completed upsert returns. *)
Lemma upsert_ok tbl df tbl' n :
  upsert_legtrips_clean tbl df = Ok (tbl', n) →
  ∃ src, batch_of df = Ok src ∧ tbl' = merged tbl src.
Proof.
  intros Hup. unfold batch_of. destruct (empty df) eqn:Hempty.
  - unfold upsert_legtrips_clean in Hup. rewrite Hempty in Hup.
    injection Hup as <- <-. exists []. split; [done|].
    unfold merged, unmatched. rewrite filter_nil, app_nil_r. by destruct tbl.
  - rewrite upsert_nonempty in Hup by done.
    destruct (forallb (has_column df) clean_columns); [|done].
    destruct (forallb row_ok (staged_rows df)); [|done].
    destruct (mapM to_clean_row (staged_rows df)) as [src|]; [|done].
    simpl in Hup. destruct (violates tbl src); [done|].
    injection Hup as <- <-. by exists src.
Qed.

Lemma unmatched_all tgt src :
  (∀ c, c ∈ src → matched tgt c = false) → unmatched tgt src = src.
Proof.
  intros Hall. unfold unmatched. induction src as [|c src IH]; [done|].
  rewrite filter_cons_True by (apply Hall; by left).
  f_equal. apply IH. intros c' Hc'. apply Hall. by right.
Qed.

(** C2.  Whenever the upsert completes, the rows of the batch that it
    inserts are those whose hash no row of the table had, in the order
    of the batch; the rows the table had stay first and unchanged; and
    the same upsert on the table so obtained completes and returns that
    very table.  It completes for every frame that can be staged and
    whose hashes convert, unless the table declares the hash unique and
    the batch brings the same new hash twice, in which case the
    statement fails. *)
Theorem upsert_insert_only_idempotent :
  (∀ tbl df tbl' n,
      upsert_legtrips_clean tbl df = Ok (tbl', n) →
      ∃ src, batch_of df = Ok src
        ∧ stored tbl' = stored tbl ++ unmatched (stored tbl) src
        ∧ row_hash_unique tbl' = row_hash_unique tbl
        ∧ (∀ s, s ∈ src →
             (s ∈ unmatched (stored tbl) src
              ↔ ∀ t, t ∈ stored tbl → row_hash t ≠ row_hash s))
        ∧ upsert_legtrips_clean tbl' df = Ok (tbl', n))
  ∧ (∀ tbl df src,
      stageable df = true → batch_of df = Ok src →
      upsert_legtrips_clean tbl df =
      if violates tbl src then Raise IntegrityError
      else Ok (merged tbl src, length (rows df)))
  ∧ (∀ tbl src, row_hash_unique tbl = false → violates tbl src = false).
Proof.
  split; [|split].
  - intros tbl df tbl' n Hup. unfold batch_of.
    destruct (empty df) eqn:Hempty.
    + unfold upsert_legtrips_clean in Hup |- *. rewrite Hempty in Hup.
      injection Hup as <- <-. exists []. rewrite Hempty.
      split; [done|]. split; [by rewrite app_nil_r|]. split; [done|].
      split; [|done]. intros s Hs. by apply elem_of_nil in Hs.
    + rewrite upsert_nonempty in Hup by done.
      destruct (forallb (has_column df) clean_columns) eqn:Hcols; [|done].
      destruct (forallb row_ok (staged_rows df)) eqn:Hok; [|done].
      destruct (mapM to_clean_row (staged_rows df)) as [src|] eqn:Hsrc; [|done].
      simpl in Hup. destruct (violates tbl src) eqn:Hv; [done|].
      injection Hup as <- <-. exists src.
      split; [done|]. split; [done|]. split; [done|]. split.
      * intros s Hs. unfold unmatched. rewrite list_elem_of_filter, unmatched_iff.
        by intuition.
      * rewrite upsert_nonempty by done. rewrite Hcols, Hok, Hsrc. simpl.
        by rewrite violates_again, merged_again.
  - intros tbl df src Hst Hsrc. unfold stageable in Hst.
    apply andb_true_iff in Hst as [Hst Hok].
    apply andb_true_iff in Hst as [Hne Hcols].
    apply negb_true_iff in Hne.
    unfold batch_of in Hsrc. rewrite Hne in Hsrc.
    rewrite upsert_nonempty by done. by rewrite Hcols, Hok, Hsrc.
  - intros tbl src Hu. unfold violates. by rewrite Hu.
Qed.

(** C2 on two legs and an empty table: both are inserted, and the
    second upsert of the same frame returns the same table. *)
Lemma upsert_insert_only_idempotent_witness :
  ∃ tbl',
    upsert_legtrips_clean (Sample.no_table true) Sample.two_legs = Ok (tbl', 2%nat)
    ∧ length (stored tbl') = 2%nat
    ∧ upsert_legtrips_clean tbl' Sample.two_legs = Ok (tbl', 2%nat).
Proof.
  assert (Hrun : ∃ hs,
    Sample.upsert_summary
      (upsert_legtrips_clean (Sample.no_table true) Sample.two_legs)
    = Ok (hs, 2%nat) ∧ length hs = 2%nat)
    by (vm_compute; eexists; split; reflexivity).
  destruct Hrun as (hs & Hrun & Hlen).
  destruct (upsert_legtrips_clean (Sample.no_table true) Sample.two_legs)
    as [[tbl' n]|e] eqn:Hup; [|discriminate Hrun].
  injection Hrun as <- ->. exists tbl'.
  split; [reflexivity|].
  split; [rewrite length_map in Hlen; exact Hlen|].
  destruct (proj1 upsert_insert_only_idempotent _ _ _ _ Hup)
    as (src & _ & _ & _ & _ & Hagain).
  exact Hagain.
Defined.

Lemma NoDup_map_filter {A B} (f : A → B) (P : A → Prop)
    `{∀ x, Decision (P x)} (l : list A) :
  NoDup (map f l) → NoDup (map f (filter P l)).
Proof.
  induction l as [|x l IH]; [done|].
  cbn [map]. intros Hnd. apply NoDup_cons in Hnd as [Hx Hnd].
  rewrite filter_cons. destruct (decide (P x)); [|by apply IH].
  cbn [map]. apply NoDup_cons. split; [|by apply IH].
  intros Hin. apply Hx.
  apply list_elem_of_In, in_map_iff in Hin as (y & Hy & Hin).
  apply list_elem_of_In, in_map_iff. exists y. split; [done|].
  apply list_elem_of_In. apply list_elem_of_In in Hin.
  by apply list_elem_of_filter in Hin as [_ ?].
Qed.

(** What the merge does keep: when the hashes of the table are
    pairwise distinct and so are those of the batch, the hashes of the
    merged table are pairwise distinct. *)
Lemma merge_keeps_distinct_hashes tgt src :
  NoDup (map row_hash tgt) → NoDup (map row_hash src) →
  NoDup (map row_hash (tgt ++ unmatched tgt src)).
Proof.
  intros Htgt Hsrc. rewrite map_app. apply NoDup_app.
  split; [done|]. split; [|by apply NoDup_map_filter].
  intros h Ht Hs.
  apply list_elem_of_In, in_map_iff in Ht as (t & <- & Ht).
  apply list_elem_of_In, in_map_iff in Hs as (s & Heq & Hs).
  apply list_elem_of_In, list_elem_of_filter in Hs as [Hun _].
  apply (proj1 (unmatched_iff tgt s) Hun t); [by apply list_elem_of_In | done].
Qed.

(** Modelled from the spec: the store after a sequence of upsert
    operations.  An upsert that raises leaves the table as it was:
    the statement that failed inserted nothing, and [run] rolls back
    what the connection did. *)
Fixpoint upsert_all (tbl : CleanTable) (dfs : list DataFrame) : CleanTable :=
  match dfs with
  | [] => tbl
  | df :: rest =>
      match upsert_legtrips_clean tbl df with
      | Ok (tbl', _) => upsert_all tbl' rest
      | Raise _ => upsert_all tbl rest
      end
  end.

(** One upsert into a table that declares the hash unique. *)
Lemma upsert_keeps_unique tbl df tbl' n :
  row_hash_unique tbl = true →
  NoDup (map row_hash (stored tbl)) →
  upsert_legtrips_clean tbl df = Ok (tbl', n) →
  row_hash_unique tbl' = true ∧ NoDup (map row_hash (stored tbl')).
Proof.
  intros Hu Hnd Hup. destruct (empty df) eqn:Hempty.
  - unfold upsert_legtrips_clean in Hup. rewrite Hempty in Hup.
    injection Hup as <- <-. by split.
  - rewrite upsert_nonempty in Hup by done.
    destruct (forallb (has_column df) clean_columns); [|done].
    destruct (forallb row_ok (staged_rows df)); [|done].
    destruct (mapM to_clean_row (staged_rows df)) as [src|]; [|done].
    cbn [bind] in Hup. destruct (violates tbl src) eqn:Hv; [done|].
    injection Hup as <- <-. split; [exact Hu|].
    unfold violates in Hv. rewrite Hu in Hv. cbn [andb] in Hv.
    apply negb_false_iff, bool_decide_eq_true in Hv. exact Hv.
Qed.

(** A batch that brings the same new hash twice is refused by such a
    table. *)
Lemma upsert_refuses_new_duplicates tbl df src :
  row_hash_unique tbl = true →
  batch_of df = Ok src →
  ¬ NoDup (map row_hash (unmatched (stored tbl) src)) →
  ∃ e, upsert_legtrips_clean tbl df = Raise e.
Proof.
  intros Hu Hsrc Hdup. unfold batch_of in Hsrc. destruct (empty df) eqn:Hempty.
  - injection Hsrc as <-. destruct Hdup.
    unfold unmatched. rewrite filter_nil. constructor.
  - rewrite upsert_nonempty by done.
    destruct (forallb (has_column df) clean_columns); [|by eexists].
    destruct (forallb row_ok (staged_rows df)); [|by eexists].
    rewrite Hsrc. cbn [bind].
    assert (Hv : violates tbl src = true).
    { unfold violates. rewrite Hu. cbn [andb].
      apply negb_true_iff, bool_decide_eq_false. intros Hnd. apply Hdup.
      unfold merged in Hnd. cbn [stored] in Hnd. rewrite map_app in Hnd.
      by apply NoDup_app in Hnd as (_ & _ & ?). }
    rewrite Hv. by eexists.
Qed.

(** C3.  A clean table that declares its hash unique, as the
    canonical store of the specification does, and whose hashes are
    pairwise distinct, still has pairwise distinct hashes after any
    sequence of upserts, whatever the frames are.  The [MERGE] takes
    every unmatched staged row, so that a batch which brings the same
    new hash twice would store it twice; the constraint makes that
    statement fail, and nothing of the batch is inserted. *)
Theorem store_never_holds_a_hash_twice :
  ∀ tbl dfs,
    row_hash_unique tbl = true →
    NoDup (map row_hash (stored tbl)) →
    NoDup (map row_hash (stored (upsert_all tbl dfs)))
    ∧ row_hash_unique (upsert_all tbl dfs) = true
    ∧ (∀ df tbl' n, upsert_legtrips_clean tbl df = Ok (tbl', n) →
                    NoDup (map row_hash (stored tbl')))
    ∧ (∀ df src, batch_of df = Ok src →
                 ¬ NoDup (map row_hash (unmatched (stored tbl) src)) →
                 ∃ e, upsert_legtrips_clean tbl df = Raise e).
Proof.
  intros tbl dfs Hu Hnd.
  split; [|split; [|split]].
  - revert tbl Hu Hnd. induction dfs as [|df dfs IH]; intros tbl Hu Hnd; [exact Hnd|].
    cbn [upsert_all].
    destruct (upsert_legtrips_clean tbl df) as [[tbl' n]|e] eqn:Hup; [|by apply IH].
    destruct (upsert_keeps_unique tbl df tbl' n Hu Hnd Hup) as [Hu' Hnd'].
    by apply IH.
  - revert tbl Hu Hnd. induction dfs as [|df dfs IH]; intros tbl Hu Hnd; [exact Hu|].
    cbn [upsert_all].
    destruct (upsert_legtrips_clean tbl df) as [[tbl' n]|e] eqn:Hup; [|by apply IH].
    destruct (upsert_keeps_unique tbl df tbl' n Hu Hnd Hup) as [Hu' Hnd'].
    by apply IH.
  - intros df tbl' n Hup.
    by destruct (upsert_keeps_unique tbl df tbl' n Hu Hnd Hup).
  - intros df src. by apply upsert_refuses_new_duplicates.
Qed.

(** C3 on an empty table with the constraint: the frame that holds
    one leg twice is refused, the frame of two legs is then taken, and
    the table holds two rows with two hashes. *)
Lemma store_never_holds_a_hash_twice_witness :
  NoDup (map row_hash
           (stored (upsert_all (Sample.no_table true)
                      [Sample.same_leg_twice; Sample.two_legs])))
  ∧ length (stored (upsert_all (Sample.no_table true)
                      [Sample.same_leg_twice; Sample.two_legs])) = 2%nat.
Proof.
  split; [|vm_compute; reflexivity].
  apply (store_never_holds_a_hash_twice (Sample.no_table true)
           [Sample.same_leg_twice; Sample.two_legs] eq_refl NoDup_nil_2).
Defined.

(** What the constraint is for.  The raw table holds one leg twice,
    so the cleaned frame has two rows with one hash.  A clean table
    that declared nothing about its hash would take both and hold the
    same [row_hash] twice; the table that declares it unique refuses
    the statement. *)
Theorem duplicate_hash_in_batch_stored_twice :
  (∃ h, map (fun r => get r "row_hash_hex") (rows Sample.same_leg_twice)
        = [VStr h; VStr h])
  ∧ (∃ h, Sample.upsert_summary
            (upsert_legtrips_clean (Sample.no_table false) Sample.same_leg_twice)
          = Ok ([h; h], 2%nat))
  ∧ upsert_legtrips_clean (Sample.no_table true) Sample.same_leg_twice
    = Raise IntegrityError.
Proof.
  split; [|split].
  - vm_compute. eexists. reflexivity.
  - vm_compute. eexists. reflexivity.
  - vm_compute. reflexivity.
Qed.

End MergeFacts.

(* ===================================================================== *)
(** ** One run: transaction and watermark *)
(* ===================================================================== *)

Module RunFacts.
Import Py Frame Transform.
Local Open Scope string_scope.
Local Open Scope list_scope.
Local Open Scope Z_scope.

(** The world a run leaves when it is over: the connection is closed
    and the trace has grown by [evs]. *)
Definition finished (s : Sys) (file : option State) (db : Db) (evs : list Event) : Sys :=
  {| state_file := file; committed := db; connection := None;
     trace := trace s ++ evs |}.

(** An external call that fails if the environment says so. *)
Definition guarded {A} (env : Env) (st : Stage) (r : result A) : result A :=
  match fault env st with
  | Some e => Raise e
  | None => r
  end.

Section OneRun.
Context `{PandasOps}.
Variables (cfg : TransformConfig) (env : Env).

(** The run written out step by step, for a world with no open
    connection: where it can stop, and the world it leaves there. *)
Definition run_steps (s : Sys) : Sys * result unit :=
  let state := load_state (state_file s) in
  let db := committed s in
  let rolled_back e :=
    (finished s (state_file s) db [EvConnect; EvRollback; EvClose], Raise e) in
  match compute_since (today env) (last_file_dt state)
          (rolling_days cfg) (overlap_days cfg) with
  | Raise e => (s, Raise e)
  | Ok since =>
  match fault env AtConnect with
  | Some e => (s, Raise e)
  | None =>
  match guarded env AtFetch (fetch_new_raw (raw_table env) since) with
  | Raise e => rolled_back e
  | Ok raw =>
  match clean_transform raw with
  | Raise e => rolled_back e
  | Ok clean_df =>
  match guarded env AtMerge (upsert_legtrips_clean (clean db) clean_df) with
  | Raise e => rolled_back e
  | Ok merged =>
  match guarded env AtRefresh (Ok tt) with
  | Raise e => rolled_back e
  | Ok _ =>
  match guarded env AtCommit (Ok tt) with
  | Raise e => rolled_back e
  | Ok _ =>
      let db' := {| clean := fst merged; refreshes := S (refreshes db) |} in
      match bind (advance env state raw)
                 (fun state' => guarded env AtSaveState (Ok state')) with
      | Raise e =>
          (finished s (state_file s) db'
             [EvConnect; EvCommit; EvRollback; EvClose], Raise e)
      | Ok state' =>
          (finished s (Some state') db'
             [EvConnect; EvCommit; EvSaveState; EvClose], Ok tt)
      end
  end end end end end end end.

Lemma run_unfold (s : Sys) :
  connection s = None → run cfg env s = run_steps s.
Proof.
  intros Hidle. destruct s as [file db0 conn tr]. simpl in Hidle. subst conn.
  unfold run, run_steps, guarded, finished.
  unfold mbind, lift, try_finally, try_except, connect_sql, fetch, upsert,
    refresh_rolling_aggregates, cn_commit, save_state, cn_rollback, cn_close,
    connected, check, view, log, set_connection, ret, raise, mbind.
  simpl.
  destruct (compute_since _ _ _ _) as [since|e]; [|reflexivity].
  destruct (fault env AtConnect); [reflexivity|]. simpl.
  destruct (fault env AtFetch); simpl.
  { by rewrite <- !app_assoc. }
  destruct (fetch_new_raw _ _) as [raw|e]; simpl.
  2: { by rewrite <- !app_assoc. }
  destruct (clean_transform raw) as [clean_df|e]; simpl.
  2: { by rewrite <- !app_assoc. }
  destruct (fault env AtMerge); simpl.
  { by rewrite <- !app_assoc. }
  destruct (upsert_legtrips_clean _ _) as [[tbl' n]|e]; simpl.
  2: { by rewrite <- !app_assoc. }
  destruct (fault env AtRefresh); simpl.
  { by rewrite <- !app_assoc. }
  destruct (fault env AtCommit); simpl.
  { by rewrite <- !app_assoc. }
  destruct (advance env _ raw) as [state'|e]; simpl.
  2: { by rewrite <- !app_assoc. }
  destruct (fault env AtSaveState); simpl; by rewrite <- !app_assoc.
Qed.

(** An exception raised before the commit: in the extraction, in the
    transformation, in the merge, or in the call of the refresh
    procedure. *)
Inductive raised_before_commit (since : datetime) (db : Db) (e : exn) : Prop :=
| in_extraction :
    guarded env AtFetch (fetch_new_raw (raw_table env) since) = Raise e →
    raised_before_commit since db e
| in_transformation raw :
    guarded env AtFetch (fetch_new_raw (raw_table env) since) = Ok raw →
    clean_transform raw = Raise e →
    raised_before_commit since db e
| in_merge raw clean_df :
    guarded env AtFetch (fetch_new_raw (raw_table env) since) = Ok raw →
    clean_transform raw = Ok clean_df →
    guarded env AtMerge (upsert_legtrips_clean (clean db) clean_df) = Raise e →
    raised_before_commit since db e
| in_refresh raw clean_df merged :
    guarded env AtFetch (fetch_new_raw (raw_table env) since) = Ok raw →
    clean_transform raw = Ok clean_df →
    guarded env AtMerge (upsert_legtrips_clean (clean db) clean_df) = Ok merged →
    fault env AtRefresh = Some e →
    raised_before_commit since db e.

Lemma run_rolled_back (s : Sys) since e :
  connection s = None →
  compute_since (today env) (last_file_dt (load_state (state_file s)))
    (rolling_days cfg) (overlap_days cfg) = Ok since →
  fault env AtConnect = None →
  raised_before_commit since (committed s) e →
  run cfg env s
  = (finished s (state_file s) (committed s) [EvConnect; EvRollback; EvClose],
     Raise e).
Proof.
  intros Hidle Hsince Hconn Hraised.
  rewrite run_unfold by done. unfold run_steps. rewrite Hsince, Hconn.
  destruct Hraised as [Hf | raw Hf Ht | raw clean_df Hf Ht Hm
                      | raw clean_df merged Hf Ht Hm Hr].
  - by rewrite Hf.
  - by rewrite Hf, Ht.
  - by rewrite Hf, Ht, Hm.
  - rewrite Hf, Ht, Hm. unfold guarded at 1. by rewrite Hr.
Qed.

(** The events a run adds to the trace. *)
Lemma run_trace (s : Sys) :
  connection s = None →
  ∃ evs, trace (fst (run cfg env s)) = trace s ++ evs
    ∧ (evs = [] ∨ evs = [EvConnect; EvRollback; EvClose]
       ∨ evs = [EvConnect; EvCommit; EvRollback; EvClose]
       ∨ evs = [EvConnect; EvCommit; EvSaveState; EvClose])
    ∧ (state_file (fst (run cfg env s)) ≠ state_file s →
       snd (run cfg env s) = Ok tt
       ∧ evs = [EvConnect; EvCommit; EvSaveState; EvClose]).
Proof.
  intros Hidle. rewrite run_unfold by done. unfold run_steps.
  assert (Hnil : ∃ evs, trace s = trace s ++ evs
            ∧ (evs = [] ∨ evs = [EvConnect; EvRollback; EvClose]
               ∨ evs = [EvConnect; EvCommit; EvRollback; EvClose]
               ∨ evs = [EvConnect; EvCommit; EvSaveState; EvClose])
            ∧ (state_file s ≠ state_file s →
               False)).
  { exists []. rewrite app_nil_r. by intuition. }
  destruct (compute_since _ _ _ _) as [since|e]; simpl.
  2: { destruct Hnil as (evs & ? & ? & ?). exists evs. by intuition. }
  destruct (fault env AtConnect); simpl.
  { destruct Hnil as (evs & ? & ? & ?). exists evs. by intuition. }
  destruct (guarded env AtFetch _) as [raw|e]; simpl.
  2: { eexists. split; [done|]. by intuition. }
  destruct (clean_transform raw) as [clean_df|e]; simpl.
  2: { eexists. split; [done|]. by intuition. }
  destruct (guarded env AtMerge _) as [merged|e]; simpl.
  2: { eexists. split; [done|]. by intuition. }
  destruct (guarded env AtRefresh _) as [?|e]; simpl.
  2: { eexists. split; [done|]. by intuition. }
  destruct (guarded env AtCommit _) as [?|e]; simpl.
  2: { eexists. split; [done|]. by intuition. }
  destruct (bind _ _) as [state'|e]; simpl.
  - eexists. split; [done|]. by intuition.
  - eexists. split; [done|]. by intuition.
Qed.

(** C4.  When the extraction, the transformation, the merge or the
    refresh call of a run raises, the run raises the same exception
    after one rollback: the committed store and the state file are what
    they were before the run, there is no commit and no write of the
    state file.  In every run, the state file changes only in a run that
    succeeds, and it is written after the commit. *)
Theorem exception_rolls_back_and_keeps_state :
  (∀ s since e,
      connection s = None →
      compute_since (today env) (last_file_dt (load_state (state_file s)))
        (rolling_days cfg) (overlap_days cfg) = Ok since →
      fault env AtConnect = None →
      raised_before_commit since (committed s) e →
      snd (run cfg env s) = Raise e
      ∧ state_file (fst (run cfg env s)) = state_file s
      ∧ committed (fst (run cfg env s)) = committed s
      ∧ trace (fst (run cfg env s)) = trace s ++ [EvConnect; EvRollback; EvClose])
  ∧ (∀ s,
      connection s = None →
      ∃ evs, trace (fst (run cfg env s)) = trace s ++ evs
        ∧ (state_file (fst (run cfg env s)) ≠ state_file s →
           snd (run cfg env s) = Ok tt)
        ∧ (EvSaveState ∈ evs →
           evs = [EvConnect; EvCommit; EvSaveState; EvClose])).
Proof.
  split.
  - intros s since e Hidle Hsince Hconn Hraised.
    by rewrite (run_rolled_back s since e).
  - intros s Hidle.
    destruct (run_trace s Hidle) as (evs & Htr & Hshape & Hfile).
    exists evs. split; [done|]. split; [by intros Hne; apply Hfile|].
    intros Hin.
    destruct Hshape as [-> | [-> | [-> | ->]]]; [| | |done].
    + by apply elem_of_nil in Hin.
    + repeat (apply elem_of_cons in Hin as [Hin|Hin]; [discriminate|]).
      by apply elem_of_nil in Hin.
    + repeat (apply elem_of_cons in Hin as [Hin|Hin]; [discriminate|]).
      by apply elem_of_nil in Hin.
Qed.

End OneRun.

Lemma ok_the {A} (default : A) (r : result A) :
  Sample.is_ok r = true → r = Ok (Sample.the default r).
Proof. by destruct r. Qed.

(** C4 on the first run of 2024-05-02 with the refresh procedure
    failing: the exception comes out, the table stays empty, no state
    file appears. *)
Lemma exception_rolls_back_and_keeps_state_witness :
  snd (@run Sample.ops Sample.config
         (Sample.env_on (Sample.may_1st + 1) Sample.raw_legs (Some AtRefresh))
         Sample.fresh)
  = Raise (ExternalError "unavailable")
  ∧ state_file (fst (@run Sample.ops Sample.config
         (Sample.env_on (Sample.may_1st + 1) Sample.raw_legs (Some AtRefresh))
         Sample.fresh))
    = state_file Sample.fresh
  ∧ committed (fst (@run Sample.ops Sample.config
         (Sample.env_on (Sample.may_1st + 1) Sample.raw_legs (Some AtRefresh))
         Sample.fresh))
    = committed Sample.fresh
  ∧ trace (fst (@run Sample.ops Sample.config
         (Sample.env_on (Sample.may_1st + 1) Sample.raw_legs (Some AtRefresh))
         Sample.fresh))
    = trace Sample.fresh ++ [EvConnect; EvRollback; EvClose].
Proof.
  apply (proj1 (@exception_rolls_back_and_keeps_state Sample.ops Sample.config
                  (Sample.env_on (Sample.may_1st + 1) Sample.raw_legs (Some AtRefresh)))
           Sample.fresh (midnight (Sample.may_1st + 1 - 34))).
  - reflexivity.
  - vm_compute. reflexivity.
  - vm_compute. reflexivity.
  - eapply in_refresh.
    + apply (ok_the Sample.no_frame). vm_compute. reflexivity.
    + apply (ok_the Sample.no_frame). vm_compute. reflexivity.
    + apply (ok_the (Sample.no_table true, O)). vm_compute. reflexivity.
    + vm_compute. reflexivity.
Defined.

End RunFacts.

(* ===================================================================== *)
(** ** The watermark over successive runs *)
(* ===================================================================== *)

Module WatermarkFacts.
Import Py Frame Transform RunFacts.
Local Open Scope string_scope.
Local Open Scope list_scope.
Local Open Scope Z_scope.

(** [lastFileDate] as the next run will read it. *)
Definition watermark (s : Sys) : option datetime :=
  last_file_dt (load_state (state_file s)).

(** The order on watermarks: an absent one is below every other. *)
Definition wm_le (a b : option datetime) : Prop :=
  match a, b with
  | None, _ => True
  | Some x, Some y => x ≤ y
  | Some _, None => False
  end.

(** A watermark is backed by a table that holds a row at least as
    recent: such is every watermark a run has written from that table. *)
Definition backed (w : option datetime) (table : DataFrame) : Prop :=
  match w with
  | None => True
  | Some last =>
      ∃ r t, r ∈ rows table ∧ get r "file_date" = VTimestamp t ∧ last ≤ t
  end.

(** The raw store is append-only: the rows of [t1] are still in [t2]. *)
Definition grows (t1 t2 : DataFrame) : Prop :=
  ∀ r, r ∈ rows t1 → r ∈ rows t2.

Fixpoint append_only (tables : list DataFrame) : Prop :=
  match tables with
  | t1 :: (t2 :: _) as rest => grows t1 t2 ∧ append_only rest
  | _ => True
  end.

Fixpoint nondecreasing (w : option datetime) (ws : list (option datetime)) : Prop :=
  match ws with
  | [] => True
  | w' :: rest => wm_le w w' ∧ nondecreasing w' rest
  end.

Lemma wm_le_refl w : wm_le w w.
Proof. destruct w; simpl; [lia|done]. Qed.

Definition max_step (acc o : option datetime) : option datetime :=
  match acc, o with
  | Some a, Some b => Some (Z.max a b)
  | None, o => o
  | acc, None => acc
  end.

Lemma max_datetime_fold ts : max_datetime ts = fold_left max_step ts None.
Proof. reflexivity. Qed.

Lemma fold_max_ge ts acc t :
  acc = Some t ∨ Some t ∈ ts →
  ∃ m, fold_left max_step ts acc = Some m ∧ t ≤ m.
Proof.
  revert acc t. induction ts as [|o ts IH]; intros acc t Hin; simpl.
  - destruct Hin as [->|Hin]; [exists t; split; [done|lia]|].
    by apply elem_of_nil in Hin.
  - destruct Hin as [->|Hin].
    + destruct o as [b|]; simpl.
      * destruct (IH (Some (Z.max t b)) (Z.max t b)) as (m & Hm & Hle); [by left|].
        exists m. split; [done|lia].
      * apply IH. by left.
    + apply elem_of_cons in Hin as [<-|Hin].
      * destruct acc as [a|]; simpl.
        -- destruct (IH (Some (Z.max a t)) (Z.max a t)) as (m & Hm & Hle); [by left|].
           exists m. split; [done|lia].
        -- apply IH. by left.
      * apply IH. by right.
Qed.

Lemma fold_max_in ts acc m :
  fold_left max_step ts acc = Some m → acc = Some m ∨ Some m ∈ ts.
Proof.
  revert acc. induction ts as [|o ts IH]; intros acc Hm; simpl in Hm; [by left|].
  apply IH in Hm as [Hm|Hm]; [|right; by right].
  destruct acc as [a|], o as [b|]; simpl in Hm.
  - injection Hm as <-. destruct (Z.max_spec a b) as [[_ ->]|[_ ->]].
    + right. by left.
    + by left.
  - by left.
  - right. rewrite Hm. by left.
  - by left.
Qed.

(** A projected row holds, under each new label, the cell of the first
    pair that gives the label. *)
Lemma get_project sel r k :
  get (project sel r) k =
  match List.find (fun p => bool_decide (snd p = k)) sel with
  | Some p => get r (fst p)
  | None => VNone
  end.
Proof.
  induction sel as [|p sel IH]; [done|].
  cbn [project fold_right List.find]. fold (project sel r).
  unfold get at 1. rewrite lookup_insert.
  destruct (decide (snd p = k)) as [Heq|Hne].
  - by rewrite bool_decide_eq_true_2.
  - rewrite bool_decide_eq_false_2 by done. exact IH.
Qed.

Section Runs.
Context `{PandasOps}.
Variable cfg : TransformConfig.

Lemma get_file_date_raw r :
  get (project select_list r) "file_date_raw" = get r "file_date".
Proof. by rewrite get_project. Qed.

Lemma file_date_ge_inv since r :
  file_date_ge since r = true →
  ∃ t, get r "file_date" = VTimestamp t ∧ since ≤ t.
Proof.
  unfold file_date_ge. destruct (get r "file_date"); try done.
  intros Hle. eexists. split; [done|]. by apply Z.leb_le.
Qed.

Lemma fetch_new_raw_rows table since raw :
  fetch_new_raw table since = Ok raw →
  columns raw = map snd select_list
  ∧ rows raw = map (project select_list)
                   (filter (fun r => file_date_ge since r = true) (rows table)).
Proof.
  unfold fetch_new_raw. destruct (forallb _ _); [|done].
  intros Hraw. injection Hraw as <-. done.
Qed.

Lemma compute_since_watermark today last rolling overlap since :
  compute_since today (Some last) rolling overlap = Ok since →
  since = last - overlap * DAY.
Proof.
  unfold compute_since, timedelta_days, datetime_sub.
  destruct (Z.abs overlap <=? 999999999); simpl; [|done].
  destruct (_ && _); [|done]. by intros [= <-].
Qed.

(** The watermark a successful run leaves: the one it found when it
    fetched nothing, else the largest file date it fetched. *)
Lemma advance_watermark env state raw state' table since :
  fetch_new_raw table since = Ok raw →
  advance env state raw = Ok state' →
  (rows raw = [] ∧ last_file_dt state' = last_file_dt state)
  ∨ (∃ r m, r ∈ rows table ∧ get r "file_date" = VTimestamp m ∧ since ≤ m
       ∧ last_file_dt state' = Some m
       ∧ ∀ r' t, r' ∈ rows table → get r' "file_date" = VTimestamp t →
                 since ≤ t → t ≤ m).
Proof.
  intros Hfetch Hadv.
  apply fetch_new_raw_rows in Hfetch as [Hcols Hrows].
  unfold advance in Hadv.
  destruct (rows raw) as [|r0 rs] eqn:Hrs.
  { left. split; [done|]. unfold empty in Hadv. rewrite Hrs in Hadv.
    simpl in Hadv. by injection Hadv as <-. }
  right.
  assert (Hempty : empty raw = false).
  { unfold empty. rewrite Hrs, Hcols. reflexivity. }
  rewrite Hempty in Hadv. unfold max_file_date, has_column in Hadv.
  rewrite Hcols in Hadv.
  rewrite bool_decide_eq_true_2 in Hadv by compute_done.
  simpl in Hadv. rewrite Hrs, Hrows, map_map in Hadv.
  remember (filter (fun r => file_date_ge since r = true) (rows table)) as kept
    eqn:Hkept.
  remember (map (fun r => to_datetime (get (project select_list r) "file_date_raw"))
                kept) as dates eqn:Hdates.
  assert (Hdate : ∀ r, r ∈ kept →
            ∃ t, get r "file_date" = VTimestamp t ∧ since ≤ t ∧ Some t ∈ dates).
  { intros r Hr. pose proof Hr as Hk. rewrite Hkept in Hk.
    apply list_elem_of_filter in Hk as [Hge _].
    apply file_date_ge_inv in Hge as (t & Ht & Hle).
    exists t. split; [done|]. split; [done|]. rewrite Hdates.
    apply list_elem_of_In, in_map_iff. exists r.
    split; [|by apply list_elem_of_In].
    by rewrite get_file_date_raw, Ht. }
  assert (Hne : ∃ r, r ∈ kept).
  { destruct kept as [|r kept']; [discriminate Hrows|]. exists r. by left. }
  destruct Hne as (r1 & Hr1).
  destruct (Hdate r1 Hr1) as (t1 & _ & _ & Hin1).
  rewrite max_datetime_fold in Hadv.
  destruct (fold_max_ge dates None t1) as (m & Hm & _); [by right|].
  rewrite Hm in Hadv. injection Hadv as <-. simpl.
  apply fold_max_in in Hm as Hmin. destruct Hmin as [Hmin|Hmin]; [done|].
  rewrite Hdates in Hmin.
  apply list_elem_of_In, in_map_iff in Hmin as (r & Hr & Hrk).
  apply list_elem_of_In in Hrk.
  destruct (Hdate r Hrk) as (t & Ht & Hle & _).
  rewrite get_file_date_raw, Ht in Hr. simpl in Hr. injection Hr as ->.
  exists r, m.
  split; [rewrite Hkept in Hrk; by apply list_elem_of_filter in Hrk as [_ ?]|].
  split; [done|]. split; [done|]. split; [done|].
  intros r' t' Hr' Ht' Hle'.
  assert (Hk' : r' ∈ kept).
  { rewrite Hkept. apply list_elem_of_filter. split; [|done].
    unfold file_date_ge. rewrite Ht'. by apply Z.leb_le. }
  destruct (Hdate r' Hk') as (t'' & Ht'' & _ & Hin'').
  rewrite Ht' in Ht''. injection Ht'' as <-.
  destruct (fold_max_ge dates None t') as (m' & Hm' & Hle''); [by right|].
  rewrite Hm in Hm'. by injection Hm' as <-.
Qed.

Lemma guarded_ok {A} env st (r : result A) a :
  guarded env st r = Ok a → r = Ok a.
Proof. unfold guarded. by destruct (fault env st). Qed.

(** What a successful run did: the boundary, the rows fetched, and the
    state it wrote. *)
Lemma run_succeeded env s :
  connection s = None →
  snd (run cfg env s) = Ok tt →
  ∃ since raw state',
    compute_since (today env) (watermark s) (rolling_days cfg) (overlap_days cfg)
    = Ok since
    ∧ fetch_new_raw (raw_table env) since = Ok raw
    ∧ advance env (load_state (state_file s)) raw = Ok state'
    ∧ state_file (fst (run cfg env s)) = Some state'
    ∧ connection (fst (run cfg env s)) = None.
Proof.
  intros Hidle. rewrite run_unfold by done. unfold run_steps, watermark.
  destruct (compute_since _ _ _ _) as [since|e]; [|done].
  destruct (fault env AtConnect); [done|].
  destruct (guarded env AtFetch _) as [raw|e] eqn:Hfetch; [|done].
  destruct (clean_transform raw) as [clean_df|e]; [|done].
  destruct (guarded env AtMerge _) as [merged|e]; [|done].
  destruct (guarded env AtRefresh _) as [?|e]; [|done].
  destruct (guarded env AtCommit _) as [?|e]; [|done].
  destruct (advance env _ raw) as [state'|e] eqn:Hadv; simpl; [|done].
  destruct (guarded env AtSaveState _) as [state''|e] eqn:Hsave; simpl; [|done].
  intros _. apply guarded_ok in Hfetch. apply guarded_ok in Hsave.
  injection Hsave as <-. by exists since, raw, state'.
Qed.

Lemma backed_grows w t1 t2 : grows t1 t2 → backed w t1 → backed w t2.
Proof.
  intros Hg. destruct w as [last|]; [|done].
  intros (r & t & Hr & Ht & Hle). exists r, t. split; [by apply Hg|done].
Qed.

(** One successful run does not lower the watermark, and the watermark
    it leaves is again the date of a row of the table. *)
Lemma run_watermark_step env s :
  connection s = None →
  snd (run cfg env s) = Ok tt →
  backed (watermark s) (raw_table env) →
  connection (fst (run cfg env s)) = None
  ∧ wm_le (watermark s) (watermark (fst (run cfg env s)))
  ∧ backed (watermark (fst (run cfg env s))) (raw_table env).
Proof.
  intros Hidle Hok Hbacked.
  destruct (run_succeeded env s Hidle Hok)
    as (since & raw & state' & Hsince & Hfetch & Hadv & Hfile & Hconn).
  split; [done|].
  assert (Hw' : watermark (fst (run cfg env s)) = last_file_dt state')
    by (unfold watermark; by rewrite Hfile).
  rewrite Hw'. clear Hw'.
  destruct (advance_watermark env _ raw state' _ since Hfetch Hadv)
    as [[_ Hsame] | (r & m & Hr & Hm & Hle & Hnew & Hmax)].
  - rewrite Hsame. fold (watermark s). split; [apply wm_le_refl | done].
  - rewrite Hnew. split.
    + destruct (watermark s) as [last|] eqn:Hw; [|done]. simpl.
      destruct Hbacked as (r' & t & Hr' & Ht & Hlast).
      destruct (Z_le_gt_dec since t) as [Hin|Hout].
      * specialize (Hmax r' t Hr' Ht Hin). lia.
      * lia.
    + exists r, m. split; [done|]. split; [done|lia].
Qed.

Lemma run_zero_rows env s since raw :
  connection s = None →
  snd (run cfg env s) = Ok tt →
  compute_since (today env) (watermark s) (rolling_days cfg) (overlap_days cfg)
  = Ok since →
  fetch_new_raw (raw_table env) since = Ok raw →
  rows raw = [] →
  watermark (fst (run cfg env s)) = watermark s.
Proof.
  intros Hidle Hok Hsince Hfetch Hrows.
  destruct (run_succeeded env s Hidle Hok)
    as (since' & raw' & state' & Hsince' & Hfetch' & Hadv & Hfile & _).
  rewrite Hsince in Hsince'. injection Hsince' as <-.
  rewrite Hfetch in Hfetch'. injection Hfetch' as <-.
  unfold watermark at 1. rewrite Hfile. simpl.
  unfold advance, empty in Hadv. rewrite Hrows in Hadv. simpl in Hadv.
  by injection Hadv as <-.
Qed.

(** C6.  Take any sequence of runs, each started in the world the
    previous one left, over raw tables that only grow, from a world
    whose watermark is absent or is backed by the first table (as every
    watermark written by a run is).  If the runs succeed, the watermarks
    they leave never decrease.  And a successful run that fetched no row
    leaves the watermark exactly as it found it. *)
Theorem watermark_never_decreases :
  (∀ envs s,
      connection s = None →
      append_only (map raw_table envs) →
      (∀ env, head envs = Some env → backed (watermark s) (raw_table env)) →
      Forall (fun o => snd o = Ok tt) (run_all cfg envs s) →
      nondecreasing (watermark s)
        (map (fun o => watermark (fst o)) (run_all cfg envs s)))
  ∧ (∀ env s since raw,
      connection s = None →
      snd (run cfg env s) = Ok tt →
      compute_since (today env) (watermark s) (rolling_days cfg) (overlap_days cfg)
      = Ok since →
      fetch_new_raw (raw_table env) since = Ok raw →
      rows raw = [] →
      watermark (fst (run cfg env s)) = watermark s).
Proof.
  split; [|exact run_zero_rows].
  induction envs as [|env envs IH]; intros s Hidle Happend Hbacked Hall; [done|].
  cbn [run_all map] in Hall |- *.
  apply Forall_cons in Hall as [Hok Hall].
  destruct (run_watermark_step env s Hidle Hok (Hbacked env eq_refl))
    as (Hidle' & Hle & Hbacked').
  split; [done|].
  apply IH; [done| | |done].
  - destruct envs as [|env2 envs]; [done|]. by destruct Happend.
  - intros env2 Hhead. destruct envs as [|env2' envs]; [done|].
    injection Hhead as ->. destruct Happend as [Hgrows _].
    by apply (backed_grows _ (raw_table env)).
Qed.

End Runs.

(** C6 on two runs, 2024-05-02 and 2024-05-03, the raw table growing by
    one leg in between: the watermark goes from absent to 2024-05-01 to
    2024-05-02. *)
Lemma watermark_never_decreases_witness :
  nondecreasing (watermark Sample.fresh)
    (map (fun o => watermark (fst o))
       (@run_all Sample.ops Sample.config
          [ Sample.env_on (Sample.may_1st + 1) Sample.raw_legs None;
            Sample.env_on (Sample.may_1st + 2) Sample.raw_legs_later None ]
          Sample.fresh))
  ∧ map (fun o => watermark (fst o))
       (@run_all Sample.ops Sample.config
          [ Sample.env_on (Sample.may_1st + 1) Sample.raw_legs None;
            Sample.env_on (Sample.may_1st + 2) Sample.raw_legs_later None ]
          Sample.fresh)
    = [ Some (midnight Sample.may_1st); Some (midnight (Sample.may_1st + 1)) ].
Proof.
  split; [|vm_compute; reflexivity].
  apply (proj1 (@watermark_never_decreases Sample.ops Sample.config)).
  - reflexivity.
  - split; [|exact I]. intros r Hr. apply elem_of_app. left. exact Hr.
  - intros env _. exact I.
  - cbn [run_all]. apply Forall_cons. split; [vm_compute; reflexivity|].
    apply Forall_cons. split; [vm_compute; reflexivity|]. constructor.
Defined.

End WatermarkFacts.

(* ===================================================================== *)
(** ** Enrichment of one file *)
(* ===================================================================== *)

Module EnrichFacts.
Import Py Frame Ingest.
Local Open Scope string_scope.
Local Open Scope list_scope.
Local Open Scope Z_scope.

Lemma has_column_set_scalar k v df c :
  c ≠ k → has_column (set_scalar k v df) c = has_column df c.
Proof.
  intros Hne. unfold set_scalar, has_column. simpl.
  destruct (bool_decide (k ∈ columns df)); [reflexivity|].
  apply bool_decide_ext. rewrite elem_of_app, list_elem_of_singleton.
  split; [intros [?|?]; [done|congruence] | by left].
Qed.

Lemma assign_rows dst src f df df' :
  assign dst src f df = Ok df' →
  rows df' = map (fun r => <[dst := f (get r src)]> r) (rows df)
  ∧ ∀ c, has_column df c = true → has_column df' c = true.
Proof.
  unfold assign. destruct (has_column df src); [|done].
  intros [= <-]. split; [done|]. intros c Hc. unfold has_column in *. simpl.
  destruct (bool_decide (dst ∈ columns df)); [done|].
  apply bool_decide_eq_true. apply bool_decide_eq_true in Hc.
  apply elem_of_app. by left.
Qed.

Lemma assign_same_columns c f df df' :
  assign c c f df = Ok df' → columns df' = columns df.
Proof.
  unfold assign. destruct (has_column df c) eqn:Hc; [|done].
  by intros [= <-].
Qed.

Section Geometry.
Context `{PandasOps} `{GeoOps}.

(** A frame that lacks one of the coordinate columns cannot be
    enriched. *)
Lemma clean_coords_missing cols df c :
  c ∈ cols → has_column df c = false → clean_coords cols df = Raise KeyError.
Proof.
  revert df. induction cols as [|c0 cols IH]; intros df Hin Hc.
  - by apply elem_of_nil in Hin.
  - cbn [clean_coords]. destruct (has_column df c0) eqn:Hc0; [|done].
    apply elem_of_cons in Hin as [->|Hin]; [congruence|].
    destruct (assign c0 c0 to_numeric df) as [df'|e] eqn:Ha; [|
      unfold assign in Ha; by rewrite Hc0 in Ha].
    simpl. apply IH; [done|].
    unfold has_column in *. by rewrite (assign_same_columns _ _ _ _ Ha).
Qed.

Lemma enrich_missing_column df fname cfg bg c :
  c ∈ coord_cols → has_column df c = false →
  enrich_file_dataframe df fname cfg bg = Raise KeyError.
Proof.
  intros Hin Hc. unfold enrich_file_dataframe.
  rewrite (clean_coords_missing coord_cols _ c); [done|done|].
  assert (c ≠ "source_file" ∧ c ≠ "file_date") as [Hs Hf].
  { unfold coord_cols in Hin.
    repeat (apply elem_of_cons in Hin as [->|Hin]; [split; discriminate|]).
    by apply elem_of_nil in Hin. }
  by rewrite !has_column_set_scalar.
Qed.

(** C7, the defect in general form.  Of the files still to ingest, let
    the first one parse but lack a coordinate column.  [run] then stops
    with [KeyError]: the raw table is left as it was and none of the
    files after it is looked at.  A file that does not parse at all is,
    by contrast, skipped, and the loop goes on with the next one. *)
Theorem missing_column_aborts_ingest :
  ∀ cfg bg f rest table total df c,
    download f = Csv df → c ∈ coord_cols → has_column df c = false →
    ingest_files cfg bg (f :: rest) table total = (table, Raise KeyError)
    ∧ ∀ g, download g = Unparsable →
           ingest_files cfg bg (g :: f :: rest) table total = (table, Raise KeyError)
           ∧ ingest_files cfg bg (g :: rest) table total
             = ingest_files cfg bg rest table total.
Proof.
  intros cfg bg f rest table total df c Hd Hin Hc.
  assert (Hf : ingest_files cfg bg (f :: rest) table total = (table, Raise KeyError)).
  { cbn [ingest_files]. rewrite Hd.
    by rewrite (enrich_missing_column df (name f) cfg bg c). }
  split; [done|]. intros g Hg. split.
  - cbn [ingest_files] in Hf |- *. by rewrite Hg.
  - cbn [ingest_files]. by rewrite Hg.
Qed.

Lemma clean_coords_rows cols df df' :
  clean_coords cols df = Ok df' →
  columns df' = columns df
  ∧ rows df' = map (fun r => fold_left (fun r c => <[c := to_numeric (get r c)]> r) cols r)
                   (rows df).
Proof.
  revert df. induction cols as [|c cols IH]; intros df Hok.
  - injection Hok as <-. split; [done|]. by rewrite map_id.
  - cbn [clean_coords] in Hok. destruct (has_column df c); [|done].
    destruct (assign c c to_numeric df) as [df1|e] eqn:Ha; [|done].
    simpl in Hok. apply IH in Hok as [Hcols Hrows].
    rewrite Hcols, Hrows, (assign_same_columns _ _ _ _ Ha).
    split; [done|]. apply assign_rows in Ha as [-> _]. by rewrite map_map.
Qed.

(** The polygons a point is within, in the order of the layer, and the
    code the first of them carries. *)
Definition hits (lon lat : Value) (bg : list (Value * Polygon)) : list (Value * Polygon) :=
  filter (fun g => within lon lat (snd g) = true) bg.

Definition first_code (lon lat : Value) (bg : list (Value * Polygon)) : Value :=
  match hits lon lat bg with
  | [] => nan
  | g :: _ => fst g
  end.

Definition join_rows (p : Value * Value) (bg : list (Value * Polygon)) : list Value :=
  match hits (fst p) (snd p) bg with
  | [] => [nan]
  | hs => map fst hs
  end.

Lemma sjoin_codes_cons p pts bg :
  sjoin_codes (p :: pts) bg = join_rows p bg ++ sjoin_codes pts bg.
Proof. reflexivity. Qed.

Lemma join_rows_length p bg :
  (1 ≤ length (join_rows p bg))%nat
  ∧ (length (join_rows p bg) = 1%nat →
     length (hits (fst p) (snd p) bg) ≤ 1 ∧ join_rows p bg = [first_code (fst p) (snd p) bg])%nat.
Proof.
  unfold join_rows, first_code.
  destruct (hits (fst p) (snd p) bg) as [|g [|g' hs]]; simpl.
  - split; [lia|]. intros _. split; [lia|done].
  - split; [lia|]. intros _. split; [lia|done].
  - split; [lia|]. intros Hlen. lia.
Qed.

Lemma sjoin_codes_length pts bg : (length pts ≤ length (sjoin_codes pts bg))%nat.
Proof.
  induction pts as [|p pts IH]; [done|].
  rewrite sjoin_codes_cons, length_app. cbn [length].
  pose proof (proj1 (join_rows_length p bg)). lia.
Qed.

(** The join has one row for each point exactly when no point is
    within two polygons; it then lists the first code of each point. *)
Lemma sjoin_codes_one_each pts bg :
  length (sjoin_codes pts bg) = length pts →
  sjoin_codes pts bg = map (fun p => first_code (fst p) (snd p) bg) pts
  ∧ ∀ p, p ∈ pts → (length (hits (fst p) (snd p) bg) ≤ 1)%nat.
Proof.
  induction pts as [|p pts IH]; intros Hlen.
  - split; [done|]. intros p Hp. by apply elem_of_nil in Hp.
  - rewrite sjoin_codes_cons, length_app in Hlen. cbn [length] in Hlen.
    destruct (join_rows_length p bg) as [Hge Hone].
    pose proof (sjoin_codes_length pts bg) as Hrest.
    destruct Hone as [Hp Hrow]; [lia|].
    destruct IH as [IHeq IHall]; [lia|].
    rewrite sjoin_codes_cons, Hrow, IHeq. split; [done|].
    intros q Hq. apply elem_of_cons in Hq as [->|Hq]; [done|by apply IHall].
Qed.

Lemma sjoin_codes_two_hits pts bg p :
  p ∈ pts → (2 ≤ length (hits (fst p) (snd p) bg))%nat →
  length (sjoin_codes pts bg) ≠ length pts.
Proof.
  intros Hp Htwo Hlen. apply sjoin_codes_one_each in Hlen as [_ Hall].
  specialize (Hall p Hp). lia.
Qed.

Lemma zip_with_maps {A B C D} (h : B → C → D) (a : A → B) (b : A → C) l :
  zip_with h (map a l) (map b l) = map (fun x => h (a x) (b x)) l.
Proof. induction l as [|x l IH]; [done|]. simpl. by rewrite IH. Qed.

Lemma set_column_rows c values df df' :
  set_column c values df = Ok df' →
  length values = length (rows df)
  ∧ columns df' = (if has_column df c then columns df else columns df ++ [c])
  ∧ rows df' = zip_with (fun r v => <[c := v]> r) (rows df) values.
Proof.
  unfold set_column. case_bool_decide; [|done]. by intros [= <-].
Qed.

Lemma set_column_mismatch c values df :
  length values ≠ length (rows df) → set_column c values df = Raise ValueError.
Proof. intros Hne. unfold set_column. by rewrite bool_decide_eq_false_2. Qed.

Lemma astype_string_idemp v : astype_string (astype_string v) = astype_string v.
Proof. unfold astype_string. by destruct (isna v). Qed.

Lemma astype_string_nan : astype_string nan = VNA.
Proof. reflexivity. Qed.

Lemma set_scalar_columns k v df : columns (set_scalar k v df) ≠ [].
Proof.
  unfold set_scalar. simpl. destruct (has_column df k) eqn:Hk.
  - unfold has_column in Hk. apply bool_decide_eq_true in Hk.
    intros Hnil. rewrite Hnil in Hk. by apply elem_of_nil in Hk.
  - by destruct (columns df).
Qed.

(** A line of the file once the provenance is attached and the
    coordinates are converted. *)
Definition prepared (fname : pystr) (cfg : IngestConfig) (r : gmap string Value)
  : gmap string Value :=
  let date_str :=
    remove_all (file_suffix cfg)
      (remove_all (filename_substring cfg ++ text "_") fname) in
  fold_left (fun r c => <[c := to_numeric (get r c)]> r) coord_cols
    (<["file_date" := timestamp_or_nat (to_datetime (VStr date_str))]>
       (<["source_file" := VStr fname]> r)).

(** All four coordinates are there. *)
Definition located (r : gmap string Value) : Prop :=
  forallb (fun c => negb (isna (get r c))) coord_cols = true.

(** The enriched row of a located line. *)
Definition enriched (bg : list (Value * Polygon)) (r : gmap string Value)
  : gmap string Value :=
  let along (f : Value → Value → Value → Value → Value) :=
    f (get r "start_longitude") (get r "start_latitude")
      (get r "end_longitude") (get r "end_latitude") in
  let origin :=
    astype_string (first_code (get r "start_longitude") (get r "start_latitude") bg) in
  let dest :=
    astype_string (first_code (get r "end_longitude") (get r "end_latitude") bg) in
  <["source_file" := astype_string (get r "source_file")]>
    (<["Dest_BG" := astype_string dest]>
       (<["Origin_BG" := astype_string origin]>
          (<["Dest_BG" := dest]>
             (<["Origin_BG" := origin]>
                (<["euclidean_distance_mi" := along euclidean_mi]>
                   (<["manhattan_distance_mi" := along manhattan_mi]> r)))))).

Lemma zip_with_map_r {A B C} (h : A → B → C) (b : A → B) l :
  zip_with h l (map b l) = map (fun x => h x (b x)) l.
Proof. induction l as [|x l IH]; [done|]. simpl. by rewrite IH. Qed.

Ltac get_simpl :=
  unfold get;
  repeat first [ rewrite lookup_insert_eq
               | rewrite lookup_insert_ne by discriminate ].

Lemma enrich_ok df fname cfg bg out :
  enrich_file_dataframe df fname cfg bg = Ok out →
  rows out = map (enriched bg) (filter located (map (prepared fname cfg) (rows df)))
  ∧ ∀ r, r ∈ filter located (map (prepared fname cfg) (rows df)) →
      (length (hits (get r "start_longitude") (get r "start_latitude") bg) ≤ 1)%nat
      ∧ (length (hits (get r "end_longitude") (get r "end_latitude") bg) ≤ 1)%nat.
Proof.
  intros Hok. unfold enrich_file_dataframe in Hok.
  destruct (clean_coords coord_cols _) as [df3|e] eqn:Hcc; [|done].
  cbn [bind] in Hok. apply clean_coords_rows in Hcc as [Hcols3 Hrows3].
  remember (filter located (map (prepared fname cfg) (rows df))) as kept eqn:Ek.
  assert (Hkept : rows (dropna_coords df3) = kept).
  { rewrite Ek. unfold dropna_coords. cbn [rows]. rewrite Hrows3.
    unfold set_scalar. cbn [rows]. by rewrite !map_map. }
  assert (Hcols4 : columns (dropna_coords df3) ≠ []).
  { unfold dropna_coords. cbn [columns]. rewrite Hcols3. apply set_scalar_columns. }
  remember (dropna_coords df3) as df4 eqn:E4. clear E4 Hcols3 Hrows3 df3.
  destruct (empty df4) eqn:Hempty.
  { injection Hok as <-. rewrite Hkept. unfold empty in Hempty. rewrite Hkept in Hempty.
    destruct kept as [|r kept'].
    - split; [done|]. intros r Hr. by apply elem_of_nil in Hr.
    - by destruct (columns df4). }
  rewrite Hkept in Hok.
  destruct (set_column "manhattan_distance_mi" _ df4) as [df5|e] eqn:H5; [|done].
  cbn [bind] in Hok.
  destruct (set_column "euclidean_distance_mi" _ df5) as [df6|e] eqn:H6; [|done].
  cbn [bind] in Hok.
  destruct (set_column "Origin_BG" _ df6) as [df7|e] eqn:H7; [|done].
  cbn [bind] in Hok.
  destruct (set_column "Dest_BG" _ df7) as [df8|e] eqn:H8; [|done].
  cbn [bind assign_each] in Hok.
  destruct (assign "Origin_BG" "Origin_BG" astype_string df8) as [df9|e] eqn:H9; [|done].
  cbn [bind] in Hok.
  destruct (assign "Dest_BG" "Dest_BG" astype_string df9) as [df10|e] eqn:H10; [|done].
  cbn [bind] in Hok.
  destruct (assign "source_file" "source_file" astype_string df10) as [df11|e] eqn:H11;
    [|done].
  cbn [bind] in Hok. injection Hok as <-.
  apply set_column_rows in H5 as (_ & _ & Hr5).
  rewrite Hkept, zip_with_map_r in Hr5.
  apply set_column_rows in H6 as (_ & _ & Hr6).
  rewrite Hr5, zip_with_maps in Hr6.
  apply set_column_rows in H7 as (Hlen7 & _ & Hr7).
  unfold area_codes in Hlen7, Hr7. rewrite !length_map in Hlen7.
  rewrite <- (length_map (fun r => (get r "start_longitude", get r "start_latitude")))
    in Hlen7.
  apply sjoin_codes_one_each in Hlen7 as [Hjoin7 Hone7].
  rewrite Hjoin7, Hr6, !map_map, zip_with_maps in Hr7.
  apply set_column_rows in H8 as (Hlen8 & _ & Hr8).
  unfold area_codes in Hlen8, Hr8. rewrite !length_map in Hlen8.
  rewrite <- (length_map (fun r => (get r "end_longitude", get r "end_latitude")))
    in Hlen8.
  apply sjoin_codes_one_each in Hlen8 as [Hjoin8 Hone8].
  rewrite Hjoin8, Hr7, !map_map, zip_with_maps in Hr8.
  apply assign_rows in H9 as [Hr9 _].
  apply assign_rows in H10 as [Hr10 _].
  apply assign_rows in H11 as [Hr11 _].
  rewrite Hr11, Hr10, Hr9, Hr8, !map_map. split.
  - apply map_ext. intros r. unfold enriched. cbn [fst snd]. get_simpl. reflexivity.
  - intros r Hr. split.
    + specialize (Hone7 (get r "start_longitude", get r "start_latitude")).
      apply Hone7. rewrite Hr6. apply list_elem_of_In, in_map_iff.
      exists (<["euclidean_distance_mi" :=
                 euclidean_mi (get r "start_longitude") (get r "start_latitude")
                   (get r "end_longitude") (get r "end_latitude")]>
                (<["manhattan_distance_mi" :=
                    manhattan_mi (get r "start_longitude") (get r "start_latitude")
                      (get r "end_longitude") (get r "end_latitude")]> r)).
      split; [get_simpl; reflexivity|].
      apply in_map_iff. exists r. split; [reflexivity|by apply list_elem_of_In].
    + specialize (Hone8 (get r "end_longitude", get r "end_latitude")).
      apply Hone8. rewrite Hr7. apply list_elem_of_In, in_map_iff.
      eexists. split; [|apply in_map_iff; exists r; split;
                         [reflexivity|by apply list_elem_of_In]].
      cbn [fst snd]. get_simpl. reflexivity.
Qed.

Lemma enriched_codes bg r :
  get (enriched bg r) "start_longitude" = get r "start_longitude"
  ∧ get (enriched bg r) "start_latitude" = get r "start_latitude"
  ∧ get (enriched bg r) "end_longitude" = get r "end_longitude"
  ∧ get (enriched bg r) "end_latitude" = get r "end_latitude"
  ∧ get (enriched bg r) "Origin_BG"
    = astype_string (first_code (get r "start_longitude") (get r "start_latitude") bg)
  ∧ get (enriched bg r) "Dest_BG"
    = astype_string (first_code (get r "end_longitude") (get r "end_latitude") bg).
Proof.
  unfold enriched. repeat split; get_simpl; try reflexivity;
    apply astype_string_idemp.
Qed.




End Geometry.

(** C7 on two new files, the first without its [start_latitude] column:
    the run raises [KeyError] and ingests nothing, the second file
    included.  Had the first file been unparsable instead, the second one
    would have been ingested. *)
Lemma missing_column_aborts_ingest_witness :
  @ingest_files Sample.ops Sample.grid Sample.ingest_config Sample.block_groups
    [ Sample.file_of "2024-05-01" (Csv Sample.csv_no_latitude);
      Sample.file_of "2024-05-02" (Csv Sample.csv_good) ] None O
  = (None, Raise KeyError)
  ∧ Sample.ingest_summary
      (@run Sample.ops Sample.grid Sample.ingest_config Sample.block_groups
         [ Sample.file_of "2024-05-01" (Csv Sample.csv_no_latitude);
           Sample.file_of "2024-05-02" (Csv Sample.csv_good) ] None)
    = (O, Raise KeyError)
  ∧ Sample.ingest_summary
      (@run Sample.ops Sample.grid Sample.ingest_config Sample.block_groups
         [ Sample.file_of "2024-05-01" Unparsable;
           Sample.file_of "2024-05-02" (Csv Sample.csv_good) ] None)
    = (1%nat, Ok 1%nat).
Proof.
  split; [|split; vm_compute; reflexivity].
  apply (proj1 (@missing_column_aborts_ingest Sample.ops Sample.grid
                  Sample.ingest_config Sample.block_groups
                  (Sample.file_of "2024-05-01" (Csv Sample.csv_no_latitude))
                  [Sample.file_of "2024-05-02" (Csv Sample.csv_good)] None O
                  Sample.csv_no_latitude "start_latitude"
                  eq_refl ltac:(compute_done) ltac:(vm_compute; reflexivity))).
Defined.



End EnrichFacts.

(* ===================================================================== *)
(** ** What the canonical rows are hashed from *)
(* ===================================================================== *)

Module CanonicalFacts.
Import Py Frame Transform HashFacts MergeFacts.
Local Open Scope string_scope.
Local Open Scope list_scope.
Local Open Scope Z_scope.

Ltac get_simpl :=
  unfold get;
  repeat first [ rewrite lookup_insert_eq
               | rewrite lookup_insert_ne by discriminate ].

Lemma assign_each_rows cols f df df' :
  assign_each cols f df = Ok df' →
  rows df' = map (fun r => fold_left (fun r c => <[c := f (get r c)]> r) cols r)
                 (rows df).
Proof.
  revert df. induction cols as [|c cols IH]; intros df Hok.
  - injection Hok as <-. by rewrite map_id.
  - cbn [assign_each] in Hok.
    destruct (assign c c f df) as [df1|e] eqn:Ha; [|done].
    simpl in Hok. apply IH in Hok. rewrite Hok.
    apply EnrichFacts.assign_rows in Ha as [-> _]. by rewrite map_map.
Qed.

Section Canonical.
Context `{PandasOps}.

Definition utc (v : Value) : Value := timestamp_or_nat (to_datetime_utc v).

(** The effect of [df[dst] = f(df[src])] on one row. *)
Definition set_cell (dst src : string) (f : Value → Value) (r : gmap string Value)
  : gmap string Value :=
  <[dst := f (get r src)]> r.

Definition numeric_columns : list string :=
  [ "start_longitude"; "start_latitude"; "end_longitude"; "end_latitude";
    "manhattan_distance_mi"; "euclidean_distance_mi" ].
Definition string_columns : list string :=
  [ "user_trip_id"; "Origin_BG"; "Dest_BG"; "source_file" ].

(** A fetched row as [df] holds it when the hash is computed. *)
Definition normalized (r : gmap string Value) : gmap string Value :=
  fold_left (fun r c => set_cell c c astype_string r) string_columns
    (fold_left (fun r c => set_cell c c to_numeric r) numeric_columns
       (set_cell "end_time_utc" "end_time" utc
          (set_cell "start_time_utc" "start_time" utc
             (set_cell "trip_date" "file_date_raw" to_date r)))).

Lemma get_set_cell dst src f r k :
  get (set_cell dst src f r) k = if String.eqb dst k then f (get r src) else get r k.
Proof.
  unfold set_cell, get at 1. rewrite lookup_insert.
  destruct (String.eqb_spec dst k) as [->|Hne].
  - by rewrite decide_True.
  - by rewrite decide_False.
Qed.

Lemma get_set_cells cols f r k :
  NoDup cols →
  get (fold_left (fun r c => set_cell c c f r) cols r) k
  = if existsb (String.eqb k) cols then f (get r k) else get r k.
Proof.
  revert r. induction cols as [|c cols IH]; intros r Hnd; [done|].
  apply NoDup_cons in Hnd as [Hc Hnd]. cbn [fold_left existsb].
  rewrite IH by done. rewrite !get_set_cell.
  destruct (String.eqb_spec k c) as [->|Hne]; simpl.
  - rewrite String.eqb_refl.
    destruct (existsb (String.eqb c) cols) eqn:Hex; [|done].
    apply existsb_exists in Hex as (c' & Hin & Heq).
    apply String.eqb_eq in Heq as <-. by apply list_elem_of_In in Hin.
  - destruct (String.eqb_spec c k) as [->|_]; [done|]. reflexivity.
Qed.

(** Evaluates the closed tests left by the two lemmas above. *)
Ltac decide_tests :=
  repeat match goal with
         | |- context [if ?b then _ else _] =>
             let v := eval vm_compute in b in
             change b with v; cbv iota
         end.

Ltac get_normalized :=
  unfold normalized;
  rewrite ?get_set_cells by compute_done;
  rewrite ?get_set_cell;
  decide_tests;
  rewrite ?get_set_cell;
  decide_tests.

Definition hashed_row (r : gmap string Value) : result (gmap string Value) :=
  bind (sha256_rowhash r) (fun h => Ok (<["row_hash_hex" := VStr (text h)]> r)).

(** The row of the output frame. *)
Definition canonical (r : gmap string Value) : gmap string Value :=
  (fun v => if is_inf v then nan else v)
    <$> project (map (fun c => (c, c)) clean_columns) r.

Lemma clean_transform_rows raw out :
  empty raw = false →
  clean_transform raw = Ok out →
  ∃ rs, mapM hashed_row (map normalized (rows raw)) = Ok rs
    ∧ columns out = clean_columns
    ∧ rows out
      = map canonical
          (filter (fun r => isna (get (project (map (fun c => (c, c)) clean_columns) r)
                                      "trip_date") = false) rs).
Proof.
  intros Hne Hok. unfold clean_transform in Hok. rewrite Hne in Hok.
  destruct (assign "trip_date" _ _ raw) as [df1|e] eqn:H1; [|done].
  cbn [bind] in Hok.
  destruct (assign "start_time_utc" _ _ df1) as [df2|e] eqn:H2; [|done].
  cbn [bind] in Hok.
  destruct (assign "end_time_utc" _ _ df2) as [df3|e] eqn:H3; [|done].
  cbn [bind] in Hok.
  destruct (assign_each _ to_numeric df3) as [df4|e] eqn:H4; [|done].
  cbn [bind] in Hok.
  destruct (assign_each _ astype_string df4) as [df5|e] eqn:H5; [|done].
  cbn [bind] in Hok.
  destruct (add_row_hash df5) as [df6|e] eqn:H6; [|done].
  cbn [bind] in Hok.
  destruct (select_clean df6) as [df7|e] eqn:H7; [|done].
  cbn [bind] in Hok. injection Hok as <-. cbn [rows].
  apply EnrichFacts.assign_rows in H1 as [Hr1 _].
  apply EnrichFacts.assign_rows in H2 as [Hr2 _].
  apply EnrichFacts.assign_rows in H3 as [Hr3 _].
  apply assign_each_rows in H4. apply assign_each_rows in H5.
  unfold add_row_hash in H6.
  destruct (mapM _ (rows df5)) as [rs|e] eqn:Hrs; [|done].
  cbn [bind] in H6. injection H6 as <-.
  unfold select_clean in H7. destruct (forallb _ _); [|done].
  injection H7 as <-. cbn [rows columns].
  exists rs. split; [|split; [done|]].
  - rewrite <- Hrs, H5, H4, Hr3, Hr2, Hr1, !map_map. reflexivity.
  - unfold canonical. clear.
    induction rs as [|r rs IH]; [done|].
    cbn [map]. rewrite !filter_cons. case_decide.
    + rewrite decide_True by done. cbn [map]. by rewrite IH.
    + by rewrite decide_False.
Qed.

Lemma lookup_project sel (r : gmap string Value) k :
  project sel r !! k
  = (fun p => get r (fst p)) <$> List.find (fun p => bool_decide (snd p = k)) sel.
Proof.
  induction sel as [|p sel IH]; [done|].
  cbn [project fold_right List.find]. fold (project sel r).
  rewrite lookup_insert.
  destruct (decide (snd p = k)) as [Heq|Hne].
  - by rewrite bool_decide_eq_true_2.
  - rewrite bool_decide_eq_false_2 by done. exact IH.
Qed.

(** A cell of the output row: the cell of [df], with an infinite number
    replaced. *)
Lemma get_canonical r k :
  k ∈ clean_columns →
  get (canonical r) k = (if is_inf (get r k) then nan else get r k).
Proof.
  intros Hk. unfold canonical, get at 1. rewrite lookup_fmap, lookup_project.
  unfold clean_columns in Hk.
  repeat (apply elem_of_cons in Hk as [->|Hk]; [reflexivity|]).
  by apply elem_of_nil in Hk.
Qed.

Lemma part_of_str s : part_of (VStr s) = Ok s.
Proof.
  unfold part_of, or_else. cbn [truth bind]. unfold pystr_eqb.
  case_bool_decide; simpl; [by subst|done].
Qed.

(** Changing the raw start time changes, of what is hashed, the start
    time only; the UTC column follows it, the trip date does not move. *)
Lemma normalized_start_time r v :
  (∀ k, k ∈ hashed_fields →
        get (normalized (<["start_time" := v]> r)) k
        = get (<["start_time" := v]> (normalized r)) k)
  ∧ get (normalized (<["start_time" := v]> r)) "start_time_utc" = utc v
  ∧ get (normalized (<["start_time" := v]> r)) "trip_date"
    = to_date (get r "file_date_raw").
Proof.
  split; [|split].
  - intros k Hk. unfold hashed_fields in Hk.
    repeat (apply elem_of_cons in Hk as [->|Hk];
            [ first [ rewrite get_insert_eq | rewrite get_insert_ne by discriminate ];
              get_normalized;
              first [ rewrite get_insert_eq | rewrite get_insert_ne by discriminate ];
              reflexivity |]).
    by apply elem_of_nil in Hk.
  - get_normalized. by rewrite get_insert_eq.
  - get_normalized. by rewrite get_insert_ne.
Qed.

Lemma get_project_clean r k :
  k ∈ clean_columns →
  get (project (map (fun c => (c, c)) clean_columns) r) k = get r k.
Proof.
  intros Hk. unfold get at 1. rewrite lookup_project.
  unfold clean_columns in Hk.
  repeat (apply elem_of_cons in Hk as [->|Hk]; [reflexivity|]).
  by apply elem_of_nil in Hk.
Qed.

Lemma utc_not_inf v : is_inf (utc v) = false.
Proof. unfold utc. by destruct (to_datetime_utc v). Qed.

(** The hash of a fetched row whose start time is [v]. *)
Lemma rowhash_bytes_start_time r v :
  rowhash_bytes (normalized (<["start_time" := v]> r))
  = rowhash_bytes (<["start_time" := v]> (normalized r)).
Proof. apply rowhash_bytes_ext. apply normalized_start_time. Qed.

(** The parts of the hash input that stand for the two times are read
    from the raw cells. *)
Lemma raw_times_are_hashed r :
  part (normalized r) "start_time" = part_of (get r "start_time")
  ∧ part (normalized r) "end_time" = part_of (get r "end_time").
Proof. unfold part. split; get_normalized; reflexivity. Qed.

(** The row of [df] with its hash, for a fetched row whose start time
    is [v]. *)
Definition with_hash (r : gmap string Value) (v : Value) (b : list Z)
  : gmap string Value :=
  <["row_hash_hex" := VStr (text (Sha256.hexdigest b))]>
    (normalized (<["start_time" := v]> r)).

Lemma hashed_row_start_time r v :
  hashed_row (normalized (<["start_time" := v]> r))
  = bind (rowhash_bytes (<["start_time" := v]> (normalized r)))
         (fun b => Ok (with_hash r v b)).
Proof.
  unfold hashed_row, sha256_rowhash. rewrite rowhash_bytes_start_time.
  by destruct (rowhash_bytes _).
Qed.

Lemma with_hash_cells r v b :
  get (canonical (with_hash r v b)) "row_hash_hex"
  = VStr (text (Sha256.hexdigest b))
  ∧ get (canonical (with_hash r v b)) "start_time_utc" = utc v
  ∧ isna (get (project (map (fun c => (c, c)) clean_columns) (with_hash r v b))
              "trip_date")
    = isna (to_date (get r "file_date_raw")).
Proof.
  unfold with_hash. split; [|split].
  - rewrite get_canonical by compute_done. by rewrite get_insert_eq.
  - rewrite get_canonical by compute_done.
    rewrite get_insert_ne by discriminate.
    rewrite (proj1 (proj2 (normalized_start_time r v))).
    by rewrite utc_not_inf.
  - rewrite get_project_clean by compute_done.
    rewrite get_insert_ne by discriminate.
    by rewrite (proj2 (proj2 (normalized_start_time r v))).
Qed.

Lemma transform_two_rows raw out r v1 v2 :
  empty raw = false →
  rows raw = [ <["start_time" := v1]> r; <["start_time" := v2]> r ] →
  isna (to_date (get r "file_date_raw")) = false →
  clean_transform raw = Ok out →
  ∃ b1 b2,
    rowhash_bytes (<["start_time" := v1]> (normalized r)) = Ok b1
    ∧ rowhash_bytes (<["start_time" := v2]> (normalized r)) = Ok b2
    ∧ columns out = clean_columns
    ∧ rows out = [ canonical (with_hash r v1 b1); canonical (with_hash r v2 b2) ].
Proof.
  intros Hne Hraw Hdate Hok.
  destruct (clean_transform_rows raw out Hne Hok) as (rs & Hrs & Hcols & Hrows).
  rewrite Hraw in Hrs. cbn [map mapM] in Hrs.
  rewrite !hashed_row_start_time in Hrs.
  destruct (rowhash_bytes (<["start_time" := v1]> (normalized r)))
    as [b1|e] eqn:Hb1; [|done].
  destruct (rowhash_bytes (<["start_time" := v2]> (normalized r)))
    as [b2|e] eqn:Hb2; [|done].
  cbn [bind] in Hrs. apply Ok_inj in Hrs. subst rs.
  exists b1, b2. split; [done|]. split; [done|]. split; [done|].
  rewrite Hrows.
  rewrite !filter_cons_True, filter_nil
    by (rewrite (proj2 (proj2 (with_hash_cells r _ _))); exact Hdate).
  reflexivity.
Qed.

(** C10.  The two parts of the hash input that stand for the times are
    made from the raw [start_time] and [end_time] cells, not from the
    UTC columns.  So take two fetched rows that differ only in the text
    of [start_time], the two texts denoting the same instant and having
    different UTF-8 encodings.  Both rows come out of the transform with
    the same [start_time_utc]; their hashes are the SHA-256 digests of
    different byte strings; and an upsert into a table that holds
    neither hash inserts both rows. *)
Theorem hash_is_over_the_raw_times :
  (∀ r, part (normalized r) "start_time" = part_of (get r "start_time")
        ∧ part (normalized r) "end_time" = part_of (get r "end_time"))
  ∧ ∀ raw out r s1 s2,
      empty raw = false →
      rows raw = [ <["start_time" := VStr s1]> r; <["start_time" := VStr s2]> r ] →
      encode_utf8_ignore s1 ≠ encode_utf8_ignore s2 →
      to_datetime_utc (VStr s1) = to_datetime_utc (VStr s2) →
      isna (to_date (get r "file_date_raw")) = false →
      clean_transform raw = Ok out →
      ∃ o1 o2 b1 b2,
        rows out = [o1; o2]
        ∧ rowhash_bytes (<["start_time" := VStr s1]> (normalized r)) = Ok b1
        ∧ rowhash_bytes (<["start_time" := VStr s2]> (normalized r)) = Ok b2
        ∧ get o1 "row_hash_hex" = VStr (text (Sha256.hexdigest b1))
        ∧ get o2 "row_hash_hex" = VStr (text (Sha256.hexdigest b2))
        ∧ b1 ≠ b2
        ∧ get o1 "start_time_utc" = get o2 "start_time_utc"
        ∧ (∀ tbl tbl' n src,
             upsert_legtrips_clean tbl out = Ok (tbl', n) →
             batch_of out = Ok src →
             (∀ c, c ∈ src → matched (stored tbl) c = false) →
             stored tbl' = stored tbl ++ src ∧ length src = 2%nat).
Proof.
  split; [exact raw_times_are_hashed|].
  intros raw out r s1 s2 Hne Hraw Henc Hsame Hdate Hok.
  destruct (transform_two_rows raw out r _ _ Hne Hraw Hdate Hok)
    as (b1 & b2 & Hb1 & Hb2 & Hcols & Hrows).
  destruct (with_hash_cells r (VStr s1) b1) as (Hh1 & Hu1 & _).
  destruct (with_hash_cells r (VStr s2) b2) as (Hh2 & Hu2 & _).
  exists (canonical (with_hash r (VStr s1) b1)),
         (canonical (with_hash r (VStr s2) b2)), b1, b2.
  split; [exact Hrows|]. split; [exact Hb1|]. split; [exact Hb2|].
  split; [exact Hh1|]. split; [exact Hh2|]. split.
  { intros Heq.
    destruct (rowhash_bytes_insert_iff (normalized r) "start_time"
                (VStr s1) (VStr s2) b1 b2) as (p1 & p2 & Hp1 & Hp2 & Hiff);
      [compute_done|exact Hb1|exact Hb2|].
    rewrite part_of_str in Hp1, Hp2. apply Ok_inj in Hp1, Hp2. subst p1 p2.
    apply Henc, Hiff, Heq. }
  split.
  { rewrite Hu1, Hu2. unfold utc. by rewrite Hsame. }
  intros tbl tbl' n src Hup Hsrc Hnone.
  apply upsert_ok in Hup as (src' & Hsrc' & ->).
  rewrite Hsrc in Hsrc'. apply Ok_inj in Hsrc'. subst src'.
  unfold merged. cbn [stored]. rewrite (unmatched_all _ _ Hnone).
  split; [reflexivity|].
  assert (Hempty : empty out = false)
    by (unfold empty; rewrite Hrows, Hcols; reflexivity).
  unfold batch_of in Hsrc. rewrite Hempty in Hsrc.
  apply mapM_length in Hsrc. rewrite Hsrc. unfold staged_rows.
  rewrite !length_map, Hrows. reflexivity.
Qed.

End Canonical.

(** A fetched leg whose origin lies in no block group has a NULL
    [Origin_BG]; [astype("string")] makes it [pandas.NA], and the
    transform stops on it. *)
Lemma missing_area_code_stops_transform :
  @clean_transform Sample.ops
    (Sample.frame_of [ <["Origin_BG" := VNone]> Sample.leg ])
  = Raise TypeError.
Proof. vm_compute. reflexivity. Qed.

Lemma cleaned_ok raw :
  Sample.is_ok (@clean_transform Sample.ops raw) = true →
  @clean_transform Sample.ops raw = Ok (Sample.cleaned raw).
Proof. unfold Sample.cleaned. by destruct (clean_transform raw). Qed.

(** C10 on one leg fetched with its start time written
    [2024-05-01 12:00:00+00:00] and [2024-05-01T12:00:00Z]: the two rows
    carry the same [start_time_utc], two different hashes, and both go
    into an empty table. *)
Lemma hash_is_over_the_raw_times_witness :
  (∃ o1 o2,
      rows (Sample.cleaned (Sample.frame_of Sample.same_instant_twice)) = [o1; o2]
      ∧ get o1 "start_time_utc" = get o2 "start_time_utc")
  ∧ map (fun o => get o "start_time_utc")
        (rows (Sample.cleaned (Sample.frame_of Sample.same_instant_twice)))
    = [ VTimestamp Sample.noon; VTimestamp Sample.noon ]
  ∧ map (fun o => get o "row_hash_hex")
        (rows (Sample.cleaned (Sample.frame_of Sample.same_instant_twice)))
    = [ VStr (text "7a850aed965b9f5d34dd6fe1382955687fab2c87d4078b7c8be553833cfe6493");
        VStr (text "05491b8fe100ee66cbd04adfc4e02f034b2b15690d5eed76aa144be7bb1537c5") ]
  ∧ ∃ h1 h2,
      Sample.upsert_summary
        (upsert_legtrips_clean (Sample.no_table true)
           (Sample.cleaned (Sample.frame_of Sample.same_instant_twice)))
      = Ok ([h1; h2], 2%nat).
Proof.
  split; [|split; [|split]].
  - destruct (proj2 (@hash_is_over_the_raw_times Sample.ops)
                (Sample.frame_of Sample.same_instant_twice)
                (Sample.cleaned (Sample.frame_of Sample.same_instant_twice))
                Sample.leg
                (text "2024-05-01 12:00:00+00:00") (text "2024-05-01T12:00:00Z"))
      as (o1 & o2 & b1 & b2 & Hrows & _ & _ & _ & _ & _ & Hutc & _).
    + reflexivity.
    + reflexivity.
    + vm_compute. discriminate.
    + vm_compute. reflexivity.
    + vm_compute. reflexivity.
    + apply cleaned_ok. vm_compute. reflexivity.
    + exists o1, o2. split; [exact Hrows | exact Hutc].
  - vm_compute. reflexivity.
  - vm_compute. reflexivity.
  - vm_compute. eexists. eexists. reflexivity.
Defined.

End CanonicalFacts.

(* ===================================================================== *)
(** ** The digest as text and as stored bytes *)
(* ===================================================================== *)

Module DigestFacts.
Import Py Frame Transform HashFacts.
Local Open Scope string_scope.
Local Open Scope list_scope.
Local Open Scope Z_scope.

Definition is_byte (b : Z) : Prop := 0 ≤ b < 256.

Lemma be_bytes_length n x : length (Sha256.be_bytes n x) = n.
Proof. induction n as [|n IH]; [done|]. simpl. by rewrite IH. Qed.

Lemma be_bytes_range n x : Forall is_byte (Sha256.be_bytes n x).
Proof.
  induction n as [|n IH]; [constructor|].
  cbn [Sha256.be_bytes]. constructor; [|exact IH].
  unfold is_byte. by apply Z.mod_pos_bound.
Qed.

Lemma round_length st kw : length st = 8%nat → length (Sha256.round st kw) = 8%nat.
Proof.
  intros Hlen. unfold Sha256.round.
  do 9 (destruct st as [|? st]; try discriminate Hlen). reflexivity.
Qed.

Lemma rounds_length kws st :
  length st = 8%nat → length (fold_left Sha256.round kws st) = 8%nat.
Proof.
  revert st. induction kws as [|kw kws IH]; intros st Hlen; [done|].
  simpl. apply IH. by apply round_length.
Qed.

Lemma add_words_length xs ys :
  length (Sha256.add_words xs ys) = Nat.min (length xs) (length ys).
Proof.
  revert ys. induction xs as [|x xs IH]; intros [|y ys]; simpl; try done.
  by rewrite IH.
Qed.

Lemma compress_length st block :
  length st = 8%nat → length (Sha256.compress st block) = 8%nat.
Proof.
  intros Hlen. unfold Sha256.compress.
  rewrite add_words_length, rounds_length by done. by rewrite Hlen.
Qed.

Lemma blocks_length blocks st :
  length st = 8%nat → length (fold_left Sha256.compress blocks st) = 8%nat.
Proof.
  revert st. induction blocks as [|b blocks IH]; intros st Hlen; [done|].
  simpl. apply IH. by apply compress_length.
Qed.

Lemma words_bytes_length ws :
  length (flat_map (Sha256.be_bytes 4) ws) = (4 * length ws)%nat.
Proof.
  induction ws as [|w ws IH]; [done|].
  cbn [flat_map]. rewrite length_app, be_bytes_length, IH. cbn [length]. lia.
Qed.

Lemma words_bytes_range ws : Forall is_byte (flat_map (Sha256.be_bytes 4) ws).
Proof.
  induction ws as [|w ws IH]; [constructor|].
  cbn [flat_map]. apply Forall_app. split; [apply be_bytes_range | exact IH].
Qed.

Lemma digest_length msg : length (Sha256.digest msg) = 32%nat.
Proof.
  unfold Sha256.digest. rewrite words_bytes_length, blocks_length; reflexivity.
Qed.

Lemma digest_range msg : Forall is_byte (Sha256.digest msg).
Proof. unfold Sha256.digest. apply words_bytes_range. Qed.

Lemma hex_value_digit d :
  0 ≤ d < 16 → hex_value (Z.of_N (N_of_ascii (Sha256.hex_digit d))) = Some d.
Proof.
  intros Hd.
  assert (Hcases : d = 0 ∨ d = 1 ∨ d = 2 ∨ d = 3 ∨ d = 4 ∨ d = 5 ∨ d = 6 ∨ d = 7
                   ∨ d = 8 ∨ d = 9 ∨ d = 10 ∨ d = 11 ∨ d = 12 ∨ d = 13 ∨ d = 14
                   ∨ d = 15) by lia.
  repeat (destruct Hcases as [->|Hcases]; [reflexivity|]).
  by subst d.
Qed.

Lemma unhex_hex bs : Forall is_byte bs → unhex (text (Sha256.hex bs)) = Some bs.
Proof.
  induction 1 as [|b bs Hb _ IH]; [done|].
  cbn [Sha256.hex text unhex]. unfold is_byte in Hb.
  rewrite !hex_value_digit, IH.
  - do 2 f_equal. pose proof (Z.div_mod b 16). lia.
  - apply Z.mod_pos_bound. lia.
  - split; [apply Z.div_pos; lia | apply Z.div_lt_upper_bound; lia].
Qed.

Lemma hex_length bs : String.length (Sha256.hex bs) = (2 * length bs)%nat.
Proof. induction bs as [|b bs IH]; [done|]. cbn [Sha256.hex String.length length]. lia. Qed.

(** The text of a digest converts back to the digest. *)
Lemma convert_hexdigest msg :
  convert_varbinary32 (VStr (text (Sha256.hexdigest msg))) = Ok (Sha256.digest msg).
Proof.
  unfold convert_varbinary32, Sha256.hexdigest.
  rewrite unhex_hex by apply digest_range.
  by rewrite firstn_all2 by (rewrite digest_length; lia).
Qed.

(** X1.  [hexdigest()] gives 64 hexadecimal digits, the text of 32
    bytes; [CONVERT(varbinary(32), ..., 2)] in the [MERGE] accepts that
    text and gives back those very bytes, nothing cut off: the stored
    binary hash is the digest itself, and two hex digests are equal
    exactly when the stored hashes are. *)
Theorem hexdigest_converts_to_the_digest :
  ∀ msg msg',
    String.length (Sha256.hexdigest msg) = 64%nat
    ∧ length (Sha256.digest msg) = 32%nat
    ∧ convert_varbinary32 (VStr (text (Sha256.hexdigest msg))) = Ok (Sha256.digest msg)
    ∧ (Sha256.hexdigest msg = Sha256.hexdigest msg'
       ↔ Sha256.digest msg = Sha256.digest msg').
Proof.
  intros msg msg'. split; [|split; [|split]].
  - unfold Sha256.hexdigest. by rewrite hex_length, digest_length.
  - apply digest_length.
  - apply convert_hexdigest.
  - split.
    + intros Heq. apply Ok_inj. rewrite <- !convert_hexdigest. by rewrite Heq.
    + unfold Sha256.hexdigest. by intros ->.
Qed.

Lemma part_of_ok v : v ≠ VNA → ∃ p, part_of v = Ok p.
Proof.
  intros Hv. unfold part_of, or_else.
  destruct v; try done; cbn [truth bind]; eexists; reflexivity.
Qed.

Lemma mapM_ok {A B} (f : A → result B) l :
  (∀ a, a ∈ l → ∃ b, f a = Ok b) → ∃ bs, mapM f l = Ok bs.
Proof.
  induction l as [|a l IH]; intros Hall; [by eexists|].
  destruct (Hall a) as (b & Hb); [by left|].
  destruct IH as (bs & Hbs); [intros x Hx; apply Hall; by right|].
  exists (b :: bs). cbn [mapM]. by rewrite Hb, Hbs.
Qed.

Lemma mapM_ok_inv {A B} (f : A → result B) l bs a :
  mapM f l = Ok bs → a ∈ l → ∃ b, f a = Ok b.
Proof.
  revert bs. induction l as [|x l IH]; intros bs Hbs Hin.
  - by apply elem_of_nil in Hin.
  - cbn [mapM] in Hbs. destruct (f x) as [b|e] eqn:Hx; [|done].
    simpl in Hbs. destruct (mapM f l) as [bs'|e] eqn:Hl; [|done].
    apply elem_of_cons in Hin as [->|Hin]; [by eexists|].
    by apply (IH bs').
Qed.

Lemma mapM_raise_inv {A B} (f : A → result B) l e :
  mapM f l = Raise e → ∃ a, a ∈ l ∧ f a = Raise e.
Proof.
  induction l as [|x l IH]; [done|].
  cbn [mapM]. destruct (f x) as [b|e'] eqn:Hx; simpl.
  - destruct (mapM f l) as [bs|e'] eqn:Hl; [done|].
    simpl. intros [= ->]. destruct IH as (a & Ha & Hfa); [done|].
    exists a. split; [by right|done].
  - intros [= ->]. exists x. split; [by left|done].
Qed.

Lemma sha256_rowhash_ok_iff (r : gmap string Value) :
  (∃ h, sha256_rowhash r = Ok h) ↔ ∀ k, k ∈ hashed_fields → get r k ≠ VNA.
Proof.
  unfold sha256_rowhash, rowhash_bytes, rowhash_parts. split.
  - intros (h & Hh) k Hk Hna.
    destruct (mapM (part r) hashed_fields) as [ps|e] eqn:Hps; [|done].
    destruct (mapM_ok_inv _ _ _ k Hps Hk) as (p & Hp).
    unfold part in Hp. by rewrite Hna in Hp.
  - intros Hall.
    destruct (mapM_ok (part r) hashed_fields) as (ps & ->); [|by eexists].
    intros k Hk. apply part_of_ok. by apply Hall.
Qed.

Lemma sha256_rowhash_raise (r : gmap string Value) e :
  sha256_rowhash r = Raise e →
  e = TypeError ∧ ∃ k, k ∈ hashed_fields ∧ get r k = VNA.
Proof.
  unfold sha256_rowhash, rowhash_bytes, rowhash_parts.
  destruct (mapM (part r) hashed_fields) as [ps|e'] eqn:Hps; [done|].
  simpl. intros [= ->].
  apply mapM_raise_inv in Hps as (k & Hk & Hp).
  split; [by apply part_of_only_type_error in Hp|].
  exists k. split; [done|]. unfold part in Hp.
  destruct (decide (get r k = VNA)) as [|Hne]; [done|].
  apply part_of_ok in Hne as (p & Hp'). congruence.
Qed.

(** X2.  [sha256_rowhash] returns a digest for every row in which none
    of the sixteen hashed fields is [pandas.NA] (absent keys, [None],
    NaN and [NaT] included), and raises for every other row; the only
    exception it raises is the [TypeError] of the truth test in
    [value or ""]. *)
Theorem sha256_rowhash_fails_on_na_only :
  ∀ r : gmap string Value,
    ((∃ h, sha256_rowhash r = Ok h) ↔ ∀ k, k ∈ hashed_fields → get r k ≠ VNA)
    ∧ (sha256_rowhash r = Raise TypeError
       ↔ ∃ k, k ∈ hashed_fields ∧ get r k = VNA)
    ∧ (∀ e, sha256_rowhash r = Raise e → e = TypeError).
Proof.
  intros r. split; [apply sha256_rowhash_ok_iff|]. split.
  - split.
    + intros Hr. by apply sha256_rowhash_raise in Hr as [_ ?].
    + intros (k & Hk & Hna).
      destruct (sha256_rowhash r) as [h|e] eqn:Hr.
      * assert (Hok : ∃ h, sha256_rowhash r = Ok h) by (exists h; exact Hr).
        destruct (proj1 (sha256_rowhash_ok_iff r) Hok k Hk Hna).
      * by apply sha256_rowhash_raise in Hr as [-> _].
  - intros e Hr. by apply sha256_rowhash_raise in Hr as [-> _].
Qed.

End DigestFacts.

(* ===================================================================== *)
(** ** Values as they are bound to the staging insert *)
(* ===================================================================== *)

Module SqlSafeFacts.
Import Py Frame Transform.
Local Open Scope Z_scope.

Lemma truncated_again t : (t - t mod 1000) mod 1000 = 0.
Proof.
  rewrite Zminus_mod_idemp_r. by rewrite Z.sub_diag.
Qed.

(** The three ways through [_sql_safe] for a cell. *)
Lemma _sql_safe_cases v :
  (isna v || is_inf v = true ∧ _sql_safe (Cell v) = VNone)
  ∨ (isna v = false ∧ is_inf v = false
     ∧ ∃ t, v = VTimestamp t ∧ _sql_safe (Cell v) = VTimestamp (t - t mod 1000))
  ∨ (isna v = false ∧ is_inf v = false
     ∧ (∀ t, v ≠ VTimestamp t) ∧ _sql_safe (Cell v) = v).
Proof.
  unfold _sql_safe. destruct (isna v || is_inf v) eqn:Hv; [by left|].
  right. apply orb_false_iff in Hv as [Hna Hinf].
  destruct v; try (right; by repeat split).
  left. split; [done|]. split; [done|]. by eexists.
Qed.

(** What is bound for a cell, bound again. *)
Lemma _sql_safe_again v :
  _sql_safe (Cell (_sql_safe (Cell v))) = _sql_safe (Cell v).
Proof.
  destruct (_sql_safe_cases v)
    as [[Hv ->] | [(Hna & Hinf & t & -> & ->) | (Hna & Hinf & Hts & Heq)]].
  - reflexivity.
  - unfold _sql_safe. cbn [isna is_inf orb].
    by rewrite truncated_again, Z.sub_0_r.
  - by rewrite !Heq.
Qed.

(** X3.  On the cells of a frame [_sql_safe] is idempotent, and what
    it returns is either [None] or a value that is neither missing nor
    infinite: [None], NaN, [NaT], [pandas.NA] and the two infinities
    all become [None], and nothing else does; a cell that is none of
    these and no [Timestamp] (text, an integer, a boolean, a date, a
    finite float) is returned as it is.  A [Timedelta] is not returned
    as it is: it becomes the float of its total seconds, which, being
    finite, would itself be bound unchanged. *)
Theorem sql_safe_is_idempotent :
  (∀ v,
     _sql_safe (Cell (_sql_safe (Cell v))) = _sql_safe (Cell v)
     ∧ (isna (_sql_safe (Cell v)) = true → _sql_safe (Cell v) = VNone)
     ∧ is_inf (_sql_safe (Cell v)) = false
     ∧ (_sql_safe (Cell v) = VNone ↔ isna v || is_inf v = true)
     ∧ (isna v || is_inf v = false → (∀ t, v ≠ VTimestamp t) →
        _sql_safe (Cell v) = v))
  ∧ (∀ total_seconds,
       _sql_safe (Timedelta total_seconds) = VFloat total_seconds
       ∧ (isna (VFloat total_seconds) || is_inf (VFloat total_seconds) = false →
          _sql_safe (Cell (_sql_safe (Timedelta total_seconds)))
          = _sql_safe (Timedelta total_seconds))).
Proof.
  split.
  - intros v. split; [apply _sql_safe_again|].
    destruct (_sql_safe_cases v)
      as [[Hv ->] | [(Hna & Hinf & t & -> & ->) | (Hna & Hinf & Hts & Heq)]].
    + repeat split; try done. intros Hf. congruence.
    + repeat split; try done. intros _ Hne. by destruct (Hne t).
    + rewrite !Heq. repeat split; try done.
      * intros Hf. congruence.
      * intros Hnone. rewrite Hnone in Hna. discriminate Hna.
      * intros Hv. rewrite Hna, Hinf in Hv. discriminate Hv.
  - intros total_seconds. split; [reflexivity|].
    intros Hfinite. cbn [_sql_safe]. by rewrite Hfinite.
Qed.

(** X4.  A [Timestamp] is bound rounded down to the millisecond, as
    [datetime2(3)] holds it: the value bound is a whole number of
    milliseconds, is not later than the original and is less than one
    millisecond earlier; the calendar day and the second stay the
    same. *)
Theorem sql_safe_rounds_down_to_milliseconds :
  ∀ t, ∃ t',
    _sql_safe (Cell (VTimestamp t)) = VTimestamp t'
    ∧ t' mod 1000 = 0
    ∧ t' ≤ t < t' + 1000
    ∧ ordinal_of t' = ordinal_of t
    ∧ time_of t' / 1000000 = time_of t / 1000000.
Proof.
  intros t. exists (t - t mod 1000).
  split; [reflexivity|]. split; [apply truncated_again|].
  unfold ordinal_of, time_of, DAY.
  repeat split; Z.div_mod_to_equations; lia.
Qed.

End SqlSafeFacts.

(* ===================================================================== *)
(** ** What the transform hands to the merge *)
(* ===================================================================== *)

Module OutputFacts.
Import Py Frame Transform HashFacts MergeFacts CanonicalFacts DigestFacts.
Local Open Scope string_scope.
Local Open Scope list_scope.
Local Open Scope Z_scope.

Lemma mapM_elem {A B} (f : A → result B) l bs b :
  mapM f l = Ok bs → b ∈ bs → ∃ a, a ∈ l ∧ f a = Ok b.
Proof.
  revert bs. induction l as [|x l IH]; intros bs Hbs Hin.
  - apply Ok_inj in Hbs. subst bs. by apply elem_of_nil in Hin.
  - cbn [mapM] in Hbs. destruct (f x) as [y|e] eqn:Hx; [|done].
    simpl in Hbs. destruct (mapM f l) as [bs'|e] eqn:Hl; [|done].
    apply Ok_inj in Hbs. subst bs.
    apply elem_of_cons in Hin as [->|Hin].
    + exists x. split; [by left|done].
    + destruct (IH bs' eq_refl Hin) as (a & Ha & Hfa).
      exists a. split; [by right|done].
Qed.

Lemma mapM_elem_of {A B} (f : A → result B) l bs a :
  mapM f l = Ok bs → a ∈ l → ∃ b, b ∈ bs ∧ f a = Ok b.
Proof.
  revert bs. induction l as [|x l IH]; intros bs Hbs Hin.
  - by apply elem_of_nil in Hin.
  - cbn [mapM] in Hbs. destruct (f x) as [y|e] eqn:Hx; [|done].
    simpl in Hbs. destruct (mapM f l) as [bs'|e] eqn:Hl; [|done].
    apply Ok_inj in Hbs. subst bs.
    apply elem_of_cons in Hin as [->|Hin].
    + exists y. split; [by left|done].
    + destruct (IH bs' eq_refl Hin) as (b & Hb & Hfb).
      exists b. split; [by right|done].
Qed.

Ltac decide_tests :=
  repeat match goal with
         | |- context [if ?b then _ else _] =>
             let v := eval vm_compute in b in
             change b with v; cbv iota
         end.

Ltac get_normalized :=
  unfold normalized;
  rewrite ?get_set_cells by compute_done;
  rewrite ?get_set_cell;
  decide_tests;
  rewrite ?get_set_cell;
  decide_tests.

Section Output.
Context `{PandasOps}.

(** The row of the output frame made from the fetched row [r], whose
    hash is [h]. *)
Definition output_row (r : gmap string Value) (h : string) : gmap string Value :=
  canonical (<["row_hash_hex" := VStr (text h)]> (normalized r)).

(** A fetched row is kept when its file date can be read. *)
Definition dated (r : gmap string Value) : bool :=
  negb (isna (to_date (get r "file_date_raw"))).

Lemma normalized_cells r :
  get (normalized r) "trip_date" = to_date (get r "file_date_raw")
  ∧ get (normalized r) "user_trip_id" = astype_string (get r "user_trip_id")
  ∧ get (normalized r) "start_time_utc" = utc (get r "start_time")
  ∧ get (normalized r) "end_time_utc" = utc (get r "end_time").
Proof. repeat split; get_normalized; reflexivity. Qed.

Lemma hashed_row_inv r r' :
  hashed_row r = Ok r' →
  ∃ h, sha256_rowhash r = Ok h ∧ r' = <["row_hash_hex" := VStr (text h)]> r.
Proof.
  unfold hashed_row. destruct (sha256_rowhash r) as [h|e]; [|done].
  simpl. intros Hr. apply Ok_inj in Hr. by exists h.
Qed.

Lemma trip_date_kept r h :
  isna (get (project (map (fun c => (c, c)) clean_columns)
               (<["row_hash_hex" := VStr (text h)]> (normalized r))) "trip_date")
  = negb (dated r).
Proof.
  rewrite get_project_clean by compute_done.
  rewrite get_insert_ne by discriminate.
  rewrite (proj1 (normalized_cells r)). unfold dated. by rewrite negb_involutive.
Qed.

(** The rows that come out of the transform, one by one. *)
Lemma clean_transform_out raw out :
  empty raw = false →
  clean_transform raw = Ok out →
  columns out = clean_columns
  ∧ (length (rows out) ≤ length (rows raw))%nat
  ∧ (∀ o, o ∈ rows out →
       ∃ r h, r ∈ rows raw ∧ sha256_rowhash (normalized r) = Ok h
              ∧ dated r = true ∧ o = output_row r h)
  ∧ (∀ r, r ∈ rows raw → dated r = true →
       ∃ h, sha256_rowhash (normalized r) = Ok h ∧ output_row r h ∈ rows out).
Proof.
  intros Hne Hok.
  destruct (clean_transform_rows raw out Hne Hok) as (rs & Hrs & Hcols & Hrows).
  split; [exact Hcols|]. split; [|split].
  - rewrite Hrows, length_map.
    etrans; [apply length_filter|].
    apply mapM_length in Hrs. rewrite Hrs, length_map. done.
  - intros o Ho. rewrite Hrows in Ho.
    apply list_elem_of_In, in_map_iff in Ho as (r' & <- & Hr').
    apply list_elem_of_In, list_elem_of_filter in Hr' as [Hkeep Hr'].
    destruct (mapM_elem _ _ _ _ Hrs Hr') as (nr & Hnr & Hh).
    apply list_elem_of_In, in_map_iff in Hnr as (r & <- & Hr).
    apply hashed_row_inv in Hh as (h & Hh & ->).
    exists r, h. split; [by apply list_elem_of_In|]. split; [exact Hh|].
    split; [|reflexivity].
    rewrite trip_date_kept in Hkeep. by apply negb_false_iff in Hkeep.
  - intros r Hr Hdated.
    assert (Hnr : normalized r ∈ map normalized (rows raw)).
    { apply list_elem_of_In, in_map_iff. exists r. split; [done|by apply list_elem_of_In]. }
    destruct (mapM_elem_of _ _ _ _ Hrs Hnr) as (r' & Hr' & Hh).
    apply hashed_row_inv in Hh as (h & Hh & ->).
    exists h. split; [exact Hh|]. rewrite Hrows.
    apply list_elem_of_In, in_map_iff. eexists. split; [reflexivity|].
    apply list_elem_of_In, list_elem_of_filter. split; [|exact Hr'].
    rewrite trip_date_kept. by rewrite Hdated.
Qed.

Lemma canonical_no_inf r k : is_inf (get (canonical r) k) = false.
Proof.
  unfold canonical, get. rewrite lookup_fmap.
  destruct (project _ r !! k) as [v|]; [|reflexivity].
  simpl. by destruct (is_inf v) eqn:E.
Qed.

Lemma sha256_rowhash_digest (r : gmap string Value) h :
  sha256_rowhash r = Ok h → ∃ b, rowhash_bytes r = Ok b ∧ h = Sha256.hexdigest b.
Proof.
  unfold sha256_rowhash. destruct (rowhash_bytes r) as [b|e]; [|done].
  simpl. intros Hh. apply Ok_inj in Hh. by exists b.
Qed.

Lemma astype_string_cases v :
  astype_string v = VNA ∧ isna v = true
  ∨ astype_string v = VStr (str v) ∧ isna v = false.
Proof. unfold astype_string. destruct (isna v); [by left|by right]. Qed.

Lemma to_date_cases v :
  (∃ d, to_date v = VDate d) ∨ to_date v = VNaT.
Proof. unfold to_date. destruct (to_datetime v); [left; by eexists|by right]. Qed.

(** The cells of an output row that the staging table wants filled. *)
Lemma output_row_cells r h :
  sha256_rowhash (normalized r) = Ok h → dated r = true →
  get (output_row r h) "row_hash_hex" = VStr (text h)
  ∧ get (output_row r h) "user_trip_id" = VStr (str (get r "user_trip_id"))
  ∧ isna (get r "user_trip_id") = false
  ∧ ∃ d, get (output_row r h) "trip_date" = VDate d.
Proof.
  intros Hh Hdated. unfold output_row.
  rewrite !get_canonical by compute_done.
  rewrite get_insert_eq, !get_insert_ne by discriminate.
  destruct (normalized_cells r) as (-> & -> & _).
  split; [reflexivity|].
  assert (Hid : get (normalized r) "user_trip_id" ≠ VNA).
  { apply (proj1 (sha256_rowhash_ok_iff (normalized r))); [by exists h|compute_done]. }
  rewrite (proj1 (proj2 (normalized_cells r))) in Hid.
  destruct (astype_string_cases (get r "user_trip_id")) as [[Hna _]|[-> Hpresent]];
    [done|].
  split; [reflexivity|]. split; [exact Hpresent|].
  unfold dated in Hdated. apply negb_true_iff in Hdated.
  destruct (to_date_cases (get r "file_date_raw")) as [(d & Hd)|Hnat].
  - rewrite Hd. by exists d.
  - by rewrite Hnat in Hdated.
Qed.

(** X5.  Every row that [clean_transform] returns (from a frame that is
    not empty) has a trip date, a user trip id that is text, and a
    [row_hash_hex] of 64 hexadecimal digits which is the hash of the
    fetched row it was made from; no cell of it is infinite.  The frame
    has the twenty clean columns, and its rows are the fetched rows
    whose file date can be read, in order: no other row is dropped and
    none is added. *)
Theorem clean_transform_output_rows :
  ∀ raw out,
    empty raw = false →
    clean_transform raw = Ok out →
    columns out = clean_columns
    ∧ length (rows out) = length (filter (fun r => dated r = true) (rows raw))
    ∧ (∀ o, o ∈ rows out →
         (∃ d, get o "trip_date" = VDate d)
         ∧ (∃ s, get o "user_trip_id" = VStr s)
         ∧ (∃ r h, r ∈ rows raw ∧ sha256_rowhash (normalized r) = Ok h
                   ∧ get o "row_hash_hex" = VStr (text h)
                   ∧ String.length h = 64%nat)
         ∧ ∀ k, is_inf (get o k) = false).
Proof.
  intros raw out Hne Hok.
  destruct (clean_transform_out raw out Hne Hok) as (Hcols & _ & Hout & _).
  split; [exact Hcols|]. split.
  - destruct (clean_transform_rows raw out Hne Hok) as (rs & Hrs & _ & Hrows).
    rewrite Hrows, length_map. clear Hrows Hok Hout.
    revert rs Hrs. induction (rows raw) as [|r l IH]; intros rs Hrs.
    + apply Ok_inj in Hrs. by subst rs.
    + cbn [map mapM] in Hrs.
      destruct (hashed_row (normalized r)) as [r'|e] eqn:Hr; [|done].
      simpl in Hrs.
      destruct (mapM hashed_row (map normalized l)) as [rs'|e] eqn:Hl; [|done].
      apply Ok_inj in Hrs. subst rs.
      apply hashed_row_inv in Hr as (h & _ & ->).
      rewrite !filter_cons. rewrite trip_date_kept.
      destruct (dated r); cbn [negb].
      * rewrite !decide_True by reflexivity.
        cbn [length]. f_equal. by apply IH.
      * rewrite !decide_False by discriminate. by apply IH.
  - intros o Ho. destruct (Hout o Ho) as (r & h & Hr & Hh & Hdated & ->).
    destruct (output_row_cells r h Hh Hdated) as (Hhash & Hid & _ & Hdate).
    split; [exact Hdate|]. split; [by eexists|]. split.
    + exists r, h. split; [exact Hr|]. split; [exact Hh|]. split; [exact Hhash|].
      apply sha256_rowhash_digest in Hh as (b & _ & ->).
      unfold Sha256.hexdigest. by rewrite hex_length, digest_length.
    + intros k. apply canonical_no_inf.
Qed.

End Output.

End OutputFacts.

Module LoadFacts.
Import Py Frame Transform HashFacts MergeFacts CanonicalFacts DigestFacts
  SqlSafeFacts OutputFacts.
Local Open Scope string_scope.
Local Open Scope list_scope.
Local Open Scope Z_scope.

(** The values a column of [#stg_legtrips] is declared for: text, a
    date, a time, a number.  NULL is among them everywhere; the NOT
    NULL columns are checked apart. *)
Definition is_text (v : Value) : bool :=
  match v with VNone | VStr _ => true | _ => false end.
Definition is_date (v : Value) : bool :=
  match v with VNone | VDate _ => true | _ => false end.
Definition is_time (v : Value) : bool :=
  match v with VNone | VTimestamp _ => true | _ => false end.
Definition is_number (v : Value) : bool :=
  match v with VNone | VInt _ | VFloat _ => true | _ => false end.

(** [file_date_raw] is declared [nvarchar(50)] and is handed the
    [Timestamp] of the raw table, whose text is shorter. *)
Definition is_text_or_time (v : Value) : bool :=
  match v with VNone | VStr _ | VTimestamp _ => true | _ => false end.

Definition declared : list (string * (Value → bool)) :=
  [ ("row_hash_hex", is_text); ("user_trip_id", is_text);
    ("trip_date", is_date);
    ("start_time_utc", is_time); ("end_time_utc", is_time);
    ("start_longitude", is_number); ("start_latitude", is_number);
    ("end_longitude", is_number); ("end_latitude", is_number);
    ("service_name", is_text); ("route_short_name", is_text); ("mode", is_text);
    ("start_stop_name", is_text); ("end_stop_name", is_text);
    ("source_file", is_text); ("file_date_raw", is_text_or_time);
    ("manhattan_distance_mi", is_number); ("euclidean_distance_mi", is_number);
    ("Origin_BG", is_text); ("Dest_BG", is_text) ].

(** A staged row whose cells are all of the kind their column is
    declared for.  The staging insert of the model binds every cell
    as it is; for a typed row the driver has nothing to convert but
    the [Timestamp] of [file_date_raw]. *)
Definition typed (s : gmap string Value) : bool :=
  forallb (fun p => snd p (get s (fst p))) declared.








Lemma safe_cell_text v s : safe_cell v = VStr s → v = VStr s.
Proof.
  unfold safe_cell.
  destruct (_sql_safe_cases v)
    as [[_ ->] | [(_ & _ & t & -> & ->) | (_ & _ & _ & ->)]]; done.
Qed.

(** Binding does not change what is measured. *)
Lemma row_fits_safe (r : gmap string Value) : row_fits (safe_cell <$> r) = row_fits r.
Proof.
  assert (Hcol : ∀ col, fits (safe_cell <$> r) col = fits r col).
  { intros col. unfold fits, get.
    rewrite lookup_fmap. destruct (r !! fst col) as [v|]; [|reflexivity].
    cbn [fmap option_fmap option_map default].
    destruct (safe_cell v) as [| | | |s| | | |] eqn:Hv.
    5: { apply safe_cell_text in Hv. by subst v. }
    all: destruct v as [| | | |s'| | | |]; try reflexivity;
      discriminate Hv. }
  unfold row_fits. induction staging_sizes as [|col cols IH]; [reflexivity|].
  cbn [forallb]. by rewrite Hcol, IH.
Qed.

Section Load.
Context `{PandasOps}.










(** A hashed field of a fetched row is [pandas.NA] when the hash is
    computed. *)
Definition has_na (r : gmap string Value) : Prop :=
  ∃ k, k ∈ hashed_fields ∧ get (normalized r) k = VNA.

Lemma string_column_na r k :
  k ∈ string_columns → isna (get r k) = true → has_na r.
Proof.
  intros Hk Hna. exists k. unfold string_columns in Hk.
  repeat (apply elem_of_cons in Hk as [->|Hk];
          [ split; [compute_done|]; get_normalized;
            unfold astype_string; by rewrite Hna |]).
  by apply elem_of_nil in Hk.
Qed.

Lemma assign_ok dst src f df :
  has_column df src = true →
  ∃ df', assign dst src f df = Ok df'
         ∧ rows df' = map (fun r => <[dst := f (get r src)]> r) (rows df)
         ∧ (∀ c, has_column df c = true → has_column df' c = true)
         ∧ has_column df' dst = true.
Proof.
  intros Hsrc. unfold assign. rewrite Hsrc. eexists. split; [reflexivity|].
  split; [reflexivity|]. unfold has_column. cbn [columns]. split.
  - intros c Hc. destruct (bool_decide (dst ∈ columns df)); [exact Hc|].
    apply bool_decide_eq_true. apply bool_decide_eq_true in Hc.
    apply elem_of_app. by left.
  - destruct (bool_decide (dst ∈ columns df)) eqn:Hd; [exact Hd|].
    apply bool_decide_eq_true. apply elem_of_app. right. by left.
Qed.

Lemma assign_each_ok cols f df :
  (∀ c, c ∈ cols → has_column df c = true) →
  ∃ df', assign_each cols f df = Ok df'
         ∧ ∀ c, has_column df c = true → has_column df' c = true.
Proof.
  revert df. induction cols as [|c cols IH]; intros df Hall.
  - exists df. by split.
  - destruct (assign_ok c c f df) as (df1 & H1 & _ & Hkeep & _); [apply Hall; by left|].
    destruct (IH df1) as (df2 & H2 & Hkeep2).
    { intros c' Hc'. apply Hkeep, Hall. by right. }
    exists df2. cbn [assign_each]. rewrite H1. cbn [bind]. split; [exact H2|].
    intros c' Hc'. by apply Hkeep2, Hkeep.
Qed.

(** With the eighteen fetched columns there, the transform gets as far
    as the hash, and every column of the output is there after it. *)
Lemma clean_transform_hashes raw :
  empty raw = false →
  (∀ c, c ∈ map snd select_list → has_column raw c = true) →
  clean_transform raw
  = bind (mapM hashed_row (map normalized (rows raw))) (fun rs =>
      Ok {| columns := clean_columns;
            rows := map canonical
                      (filter (fun r => isna (get (project (map (fun c => (c, c))
                                                     clean_columns) r)
                                                 "trip_date") = false) rs) |}).
Proof.
  intros Hne Hall. unfold clean_transform. rewrite Hne.
  destruct (assign_ok "trip_date" "file_date_raw" to_date raw)
    as (df1 & -> & Hr1 & Hk1 & Hn1); [apply Hall; compute_done|].
  cbn [bind].
  destruct (assign_ok "start_time_utc" "start_time"
              (fun v => timestamp_or_nat (to_datetime_utc v)) df1)
    as (df2 & -> & Hr2 & Hk2 & Hn2); [apply Hk1, Hall; compute_done|].
  cbn [bind].
  destruct (assign_ok "end_time_utc" "end_time"
              (fun v => timestamp_or_nat (to_datetime_utc v)) df2)
    as (df3 & -> & Hr3 & Hk3 & Hn3); [apply Hk2, Hk1, Hall; compute_done|].
  cbn [bind].
  assert (Hall3 : ∀ c, c ∈ map snd select_list → has_column df3 c = true)
    by (intros c Hc; by apply Hk3, Hk2, Hk1, Hall).
  destruct (assign_each_ok
              [ "start_longitude"; "start_latitude"; "end_longitude"; "end_latitude";
                "manhattan_distance_mi"; "euclidean_distance_mi" ] to_numeric df3)
    as (df4 & H4 & Hk4).
  { intros c Hc. apply Hall3.
    repeat (apply elem_of_cons in Hc as [->|Hc]; [compute_done|]).
    by apply elem_of_nil in Hc. }
  rewrite H4. cbn [bind].
  destruct (assign_each_ok [ "user_trip_id"; "Origin_BG"; "Dest_BG"; "source_file" ]
              astype_string df4) as (df5 & H5 & Hk5).
  { intros c Hc. apply Hk4, Hall3.
    repeat (apply elem_of_cons in Hc as [->|Hc]; [compute_done|]).
    by apply elem_of_nil in Hc. }
  rewrite H5. cbn [bind].
  apply assign_each_rows in H4. apply assign_each_rows in H5.
  assert (Hrows5 : rows df5 = map normalized (rows raw)).
  { rewrite H5, H4, Hr3, Hr2, Hr1, !map_map.
    unfold normalized, set_cell, utc, numeric_columns, string_columns.
    reflexivity. }
  unfold add_row_hash. rewrite Hrows5.
  change (fun r => bind (sha256_rowhash r)
                     (fun h => Ok (<["row_hash_hex" := VStr (text h)]> r)))
    with hashed_row.
  destruct (mapM hashed_row (map normalized (rows raw))) as [rs|e]; [|reflexivity].
  cbn [bind]. unfold select_clean.
  assert (Hcols : forallb
            (has_column {| columns := columns df5 ++ ["row_hash_hex"]; rows := rs |})
            clean_columns = true).
  { apply forallb_forall. intros c Hc. apply list_elem_of_In in Hc.
    unfold has_column. cbn [columns]. apply bool_decide_eq_true.
    apply elem_of_app.
    assert (Hhas : ∀ c', has_column df3 c' = true → c' ∈ columns df5).
    { intros c' Hc'. apply Hk4, Hk5 in Hc'. unfold has_column in Hc'.
      by apply bool_decide_eq_true in Hc'. }
    unfold clean_columns in Hc.
    apply elem_of_cons in Hc as [->|Hc]; [right; by left|]. left.
    apply elem_of_cons in Hc as [->|Hc]; [apply Hhas, Hall3; compute_done|].
    apply elem_of_cons in Hc as [->|Hc]; [by apply Hhas, Hk3, Hk2|].
    apply elem_of_cons in Hc as [->|Hc]; [by apply Hhas, Hk3|].
    apply elem_of_cons in Hc as [->|Hc]; [by apply Hhas|].
    repeat (apply elem_of_cons in Hc as [->|Hc]; [apply Hhas, Hall3; compute_done|]).
    by apply elem_of_nil in Hc. }
  rewrite Hcols. cbn [bind rows columns]. f_equal. f_equal.
  clear. induction rs as [|r rs IH]; [done|].
  cbn [map]. rewrite !filter_cons.
  case_decide; rewrite ?decide_True, ?decide_False by done; cbn [map];
    by rewrite IH.
Qed.

(** When the transform of a fetched frame returns and when it raises. *)
Lemma clean_transform_result raw :
  empty raw = false →
  (∀ c, c ∈ map snd select_list → has_column raw c = true) →
  ((∃ out, clean_transform raw = Ok out) ↔ ∀ r, r ∈ rows raw → ¬ has_na r)
  ∧ (clean_transform raw = Raise TypeError ↔ ∃ r, r ∈ rows raw ∧ has_na r).
Proof.
  intros Hne Hall.
  rewrite (clean_transform_hashes raw Hne Hall).
  assert (Hrow : ∀ r, (∃ r', hashed_row (normalized r) = Ok r') ↔ ¬ has_na r).
  { intros r. unfold hashed_row, has_na. split.
    - intros (r' & Hr') (k & Hk & Hna).
      destruct (sha256_rowhash (normalized r)) as [h|e] eqn:Hh; [|done].
      apply (proj1 (sha256_rowhash_ok_iff (normalized r)) (ex_intro _ h Hh) k Hk Hna).
    - intros Hno.
      destruct (proj2 (sha256_rowhash_ok_iff (normalized r))) as (h & ->).
      + intros k Hk Hna. apply Hno. by exists k.
      + by eexists. }
  assert (Hraise : ∀ r e, hashed_row (normalized r) = Raise e →
                          e = TypeError ∧ has_na r).
  { intros r e. unfold hashed_row.
    destruct (sha256_rowhash (normalized r)) as [h|e'] eqn:Hh; [done|].
    intros [= <-]. by apply sha256_rowhash_raise in Hh. }
  assert (Hin : ∀ nr, nr ∈ map normalized (rows raw) →
                      ∃ r, r ∈ rows raw ∧ nr = normalized r).
  { intros nr Hnr. apply list_elem_of_In, in_map_iff in Hnr as (r & <- & Hr).
    exists r. split; [by apply list_elem_of_In|done]. }
  assert (Hok : (∃ rs, mapM hashed_row (map normalized (rows raw)) = Ok rs)
                ↔ ∀ r, r ∈ rows raw → ¬ has_na r).
  { split.
    - intros (rs & Hrs) r Hr. apply Hrow.
      apply (mapM_ok_inv _ _ _ (normalized r) Hrs).
      apply list_elem_of_In, in_map_iff. exists r. split; [done|by apply list_elem_of_In].
    - intros Hno. apply mapM_ok. intros nr Hnr.
      destruct (Hin nr Hnr) as (r & Hr & ->). by apply Hrow, Hno. }
  assert (Hfail : mapM hashed_row (map normalized (rows raw)) = Raise TypeError
                  ↔ ∃ r, r ∈ rows raw ∧ has_na r).
  { split.
    - intros Hr. apply mapM_raise_inv in Hr as (nr & Hnr & Hnr').
      destruct (Hin nr Hnr) as (r & Hr & ->).
      exists r. split; [exact Hr|]. by apply Hraise in Hnr' as [_ ?].
    - intros (r & Hr & Hna).
      destruct (mapM hashed_row (map normalized (rows raw))) as [rs|e] eqn:Hrs.
      + destruct (proj1 Hok (ex_intro _ rs eq_refl) r Hr Hna).
      + apply mapM_raise_inv in Hrs as (nr & Hnr & Hnr').
        destruct (Hin nr Hnr) as (r0 & _ & ->).
        by apply Hraise in Hnr' as [-> _]. }
  split.
  - rewrite <- Hok. split.
    + intros (out & Hout).
      destruct (mapM hashed_row (map normalized (rows raw))) as [rs|e]; [|done].
      by exists rs.
    + intros (rs & ->). by eexists.
  - rewrite <- Hfail.
    destruct (mapM hashed_row (map normalized (rows raw))) as [rs|e]; [done|].
    cbn [bind]. split; intros [= ->]; reflexivity.
Qed.

(** One row without an id or an area code is enough. *)
Lemma clean_transform_missing_id raw r k :
  empty raw = false →
  (∀ c, c ∈ map snd select_list → has_column raw c = true) →
  r ∈ rows raw → k ∈ string_columns → isna (get r k) = true →
  clean_transform raw = Raise TypeError.
Proof.
  intros Hne Hall Hr Hk Hna.
  apply (proj2 (clean_transform_result raw Hne Hall)).
  exists r. split; [exact Hr|]. by apply string_column_na with k.
Qed.

(** X7.  A fetched frame (the eighteen columns, at least one row) is
    transformed unless, in some row, a hashed field is [pandas.NA] at
    the moment the hash is taken; the transform then raises the
    [TypeError] of the hash, for the whole frame.  That is the case as
    soon as one row has no [user_trip_id], [Origin_BG], [Dest_BG] or
    [source_file], because [astype("string")] turns a missing cell of
    these four columns into [pandas.NA]. *)
Theorem clean_transform_stops_on_a_missing_id :
  ∀ raw,
    empty raw = false →
    (∀ c, c ∈ map snd select_list → has_column raw c = true) →
    ((∃ out, clean_transform raw = Ok out) ↔ ∀ r, r ∈ rows raw → ¬ has_na r)
    ∧ (clean_transform raw = Raise TypeError ↔ ∃ r, r ∈ rows raw ∧ has_na r)
    ∧ (∀ r k, r ∈ rows raw → k ∈ string_columns → isna (get r k) = true →
              clean_transform raw = Raise TypeError).
Proof.
  intros raw Hne Hall.
  destruct (clean_transform_result raw Hne Hall) as [Hok Hfail].
  split; [exact Hok|]. split; [exact Hfail|].
  intros r k. by apply clean_transform_missing_id.
Qed.

End Load.

End LoadFacts.

(* ===================================================================== *)
(** ** Staging and the count the upsert returns *)
(* ===================================================================== *)

Module StagingFacts.
Import Py Frame Transform HashFacts MergeFacts SqlSafeFacts LoadFacts.
Local Open Scope string_scope.
Local Open Scope list_scope.
Local Open Scope Z_scope.

(** A cell that can be bound to a NOT NULL column. *)
Definition filled (v : Value) : bool := negb (isna v || is_inf v).

(** A row of the frame that the staging insert takes: its texts fit
    their columns and its NOT NULL cells are there. *)
Definition accepted (r : gmap string Value) : bool :=
  row_fits r && forallb (fun c => filled (get r c)) staging_not_null.

Lemma safe_cell_none v : safe_cell v = VNone ↔ filled v = false.
Proof.
  unfold filled, safe_cell. rewrite negb_false_iff.
  destruct (_sql_safe_cases v)
    as [[Hv ->] | [(Hna & Hinf & t & -> & ->) | (Hna & Hinf & _ & ->)]].
  - done.
  - done.
  - rewrite Hna, Hinf. split; [|done]. intros ->. discriminate Hna.
Qed.

Lemma get_safe (r : gmap string Value) c :
  bool_decide (get (safe_cell <$> r) c = VNone) = negb (filled (get r c)).
Proof.
  unfold get. rewrite lookup_fmap. destruct (r !! c) as [v|]; simpl.
  - destruct (filled v) eqn:Hv; simpl.
    + apply bool_decide_eq_false. intros Hnone.
      apply safe_cell_none in Hnone. congruence.
    + apply bool_decide_eq_true. by apply safe_cell_none.
  - reflexivity.
Qed.

Lemma row_ok_safe (r : gmap string Value) : row_ok (safe_cell <$> r) = accepted r.
Proof.
  unfold row_ok, accepted. rewrite row_fits_safe. f_equal.
  unfold row_filled, staging_not_null. cbn [forallb].
  by rewrite !get_safe, !negb_involutive.
Qed.

Lemma rows_ok_safe rs :
  forallb row_ok (map (fmap safe_cell) rs) = forallb accepted rs
  ∧ forallb row_fits (map (fmap safe_cell) rs) = forallb row_fits rs
  ∧ forallb row_filled (map (fmap safe_cell) rs)
    = forallb (fun r => forallb (fun c => filled (get r c)) staging_not_null) rs.
Proof.
  induction rs as [|r rs (IH1 & IH2 & IH3)]; [done|].
  cbn [forallb map]. rewrite IH1, IH2, IH3, row_ok_safe, row_fits_safe.
  split; [reflexivity|]. split; [reflexivity|]. f_equal.
  unfold row_filled, staging_not_null. cbn [forallb].
  by rewrite !get_safe, !negb_involutive.
Qed.

(** X8.  The staging loop, which sends the rows in batches of 50000
    and the rest after the loop, stages every row of the frame once
    and in order, each cell passed through [_sql_safe], and counts
    them all; the batch boundaries do not show: it succeeds exactly
    when one [executemany] of all the rows would.  For rows whose
    cells have the kinds of their columns, that is exactly when every
    row has its [row_hash_hex], [user_trip_id] and [trip_date]
    (neither missing nor infinite) and no text longer than its
    column.  Otherwise the loop raises the error of the first batch
    that is refused: the truncation error of the driver or the
    constraint violation of the store. *)
Theorem staging_in_batches_stages_every_row :
  ∀ rs,
    (stage rs = Ok (map (fmap safe_cell) rs, length rs)
     ↔ executemany [] (map (fmap safe_cell) rs) = Ok (map (fmap safe_cell) rs))
    ∧ (∀ st, stage rs = Ok st → st = (map (fmap safe_cell) rs, length rs))
    ∧ (forallb typed (map (fmap safe_cell) rs) = true →
       (stage rs = Ok (map (fmap safe_cell) rs, length rs)
        ↔ forallb accepted rs = true)
       ∧ ∀ e, stage rs = Raise e →
           (e = IntegrityError ∨ e = ExternalError "truncation")
           ∧ (forallb row_fits rs = true → e = IntegrityError)
           ∧ (forallb (fun r => forallb (fun c => filled (get r c)) staging_not_null) rs
              = true → e = ExternalError "truncation")).
Proof.
  intros rs. destruct (rows_ok_safe rs) as (Hok & Hfits & Hfilled).
  rewrite stage_spec, executemany_eq. cbn [app].
  destruct (forallb row_ok (map (fmap safe_cell) rs)) eqn:Hall.
  - split; [done|]. split; [by intros st [= <-]|].
    intros _. split; [by rewrite <- Hok|]. intros e [=].
  - split; [done|]. split; [done|].
    intros _. split; [by rewrite <- Hok|]. intros e [= <-].
    rewrite <- Hfits, <- Hfilled. by apply stage_refused.
Qed.

(** What a completed upsert returns and how far the table grows. *)
Lemma upsert_count tbl df tbl' n :
  upsert_legtrips_clean tbl df = Ok (tbl', n) →
  n = (if empty df then O else length (rows df))
  ∧ ∃ inserted, stored tbl' = stored tbl ++ inserted ∧ (length inserted ≤ n)%nat.
Proof.
  intros Hup. destruct (empty df) eqn:Hempty.
  - unfold upsert_legtrips_clean in Hup. rewrite Hempty in Hup.
    injection Hup as <- <-. split; [done|]. exists []. by rewrite app_nil_r.
  - rewrite upsert_nonempty in Hup by done.
    destruct (forallb (has_column df) clean_columns); [|done].
    destruct (forallb row_ok (staged_rows df)); [|done].
    destruct (mapM to_clean_row (staged_rows df)) as [src|] eqn:Hsrc; [|done].
    cbn [bind] in Hup. destruct (violates tbl src); [done|].
    injection Hup as <- <-. split; [done|].
    exists (unmatched (stored tbl) src). split; [done|].
    unfold unmatched. etrans; [apply length_filter|].
    apply mapM_length in Hsrc. rewrite Hsrc. unfold staged_rows.
    by rewrite !length_map.
Qed.

(** X9.  The number [upsert_legtrips_clean] returns is the number of
    rows of the frame it was given (zero for an empty frame): it says
    how many rows were staged, not how many were inserted.  The table
    grows by at most that many rows, and the number is the same
    whatever the table already holds. *)
Theorem upsert_returns_the_rows_staged :
  ∀ tbl df tbl' n,
    upsert_legtrips_clean tbl df = Ok (tbl', n) →
    n = (if empty df then O else length (rows df))
    ∧ (∃ inserted, stored tbl' = stored tbl ++ inserted ∧ (length inserted ≤ n)%nat)
    ∧ ∀ tbl2 tbl2' n2, upsert_legtrips_clean tbl2 df = Ok (tbl2', n2) → n2 = n.
Proof.
  intros tbl df tbl' n Hup.
  destruct (upsert_count _ _ _ _ Hup) as [Hn Hins].
  split; [exact Hn|]. split; [exact Hins|].
  intros tbl2 tbl2' n2 Hup2. destruct (upsert_count _ _ _ _ Hup2) as [Hn2 _]. congruence.
Qed.

End StagingFacts.

(* ===================================================================== *)
(** ** The window of the extraction *)
(* ===================================================================== *)

Module FetchFacts.
Import Py Frame Transform HashFacts WatermarkFacts.
Local Open Scope string_scope.
Local Open Scope list_scope.
Local Open Scope Z_scope.

Lemma file_date_ge_iff since r :
  file_date_ge since r = true ↔ ∃ t, get r "file_date" = VTimestamp t ∧ since ≤ t.
Proof.
  unfold file_date_ge. split.
  - destruct (get r "file_date"); try done.
    intros Hle. eexists. split; [done|]. by apply Z.leb_le.
  - intros (t & -> & Hle). by apply Z.leb_le.
Qed.

Lemma file_date_ge_mono since since' r :
  since ≤ since' → file_date_ge since' r = true → file_date_ge since r = true.
Proof.
  rewrite !file_date_ge_iff. intros Hle (t & Ht & Hle'). exists t. split; [done|lia].
Qed.

Lemma sublist_filter_mono {A} (P Q : A → Prop)
    `{∀ x, Decision (P x)} `{∀ x, Decision (Q x)} (l : list A) :
  (∀ x, P x → Q x) → filter P l `sublist_of` filter Q l.
Proof.
  intros Himp. induction l as [|x l IH]; [done|].
  rewrite !filter_cons. destruct (decide (P x)) as [HP|HP].
  - rewrite decide_True by by apply Himp. by apply sublist_skip.
  - destruct (decide (Q x)); [by apply sublist_cons|done].
Qed.

Lemma sublist_map {A B} (f : A → B) l1 l2 :
  l1 `sublist_of` l2 → map f l1 `sublist_of` map f l2.
Proof.
  induction 1 as [|x l1 l2 _ IH|x l1 l2 _ IH]; cbn [map].
  - constructor.
  - by apply sublist_skip.
  - by apply sublist_cons.
Qed.

(** X10.  [fetch_new_raw] returns the rows of the raw table whose file
    date is at or after the boundary, in the order of the table, under
    the eighteen labels of its select list; [file_date] comes back as
    [file_date_raw].  A row whose file date is NULL is returned for no
    boundary.  A later boundary returns a sub-sequence of what an
    earlier one returns.  The one failure is a raw table that lacks a
    selected column. *)
Theorem fetch_new_raw_window :
  ∀ table since,
    (∀ raw, fetch_new_raw table since = Ok raw →
       columns raw = map snd select_list
       ∧ (∀ o, o ∈ rows raw →
            ∃ r t, r ∈ rows table ∧ o = project select_list r
                   ∧ get o "file_date_raw" = VTimestamp t ∧ since ≤ t)
       ∧ (∀ r t, r ∈ rows table → get r "file_date" = VTimestamp t → since ≤ t →
                 project select_list r ∈ rows raw)
       ∧ (∀ since' raw', since ≤ since' → fetch_new_raw table since' = Ok raw' →
                         rows raw' `sublist_of` rows raw))
    ∧ ((∃ raw, fetch_new_raw table since = Ok raw)
       ↔ ∀ c, c ∈ map fst select_list → has_column table c = true)
    ∧ (∀ r, r ∈ rows table → (∀ t, get r "file_date" ≠ VTimestamp t) →
            file_date_ge since r = false).
Proof.
  intros table since. split; [|split].
  - intros raw Hraw. apply fetch_new_raw_rows in Hraw as [Hcols Hrows].
    split; [exact Hcols|]. split; [|split].
    + intros o Ho. rewrite Hrows in Ho.
      apply list_elem_of_In, in_map_iff in Ho as (r & <- & Hr).
      apply list_elem_of_In, list_elem_of_filter in Hr as [Hge Hr].
      apply file_date_ge_iff in Hge as (t & Ht & Hle).
      exists r, t. split; [exact Hr|]. split; [reflexivity|].
      split; [|exact Hle]. by rewrite get_project.
    + intros r t Hr Ht Hle. rewrite Hrows.
      apply list_elem_of_In, in_map_iff. exists r. split; [reflexivity|].
      apply list_elem_of_In, list_elem_of_filter. split; [|exact Hr].
      apply file_date_ge_iff. by exists t.
    + intros since' raw' Hle Hraw'.
      apply fetch_new_raw_rows in Hraw' as [_ Hrows'].
      rewrite Hrows, Hrows'. apply sublist_map.
      apply sublist_filter_mono. intros r. by apply file_date_ge_mono.
  - unfold fetch_new_raw. split.
    + intros (raw & Hraw) c Hc.
      destruct (forallb _ select_list) eqn:Hall; [|done].
      apply list_elem_of_In, in_map_iff in Hc as (p & <- & Hp).
      by apply (proj1 (forallb_forall _ _) Hall p).
    + intros Hall.
      assert (Hcols : forallb (fun p => has_column table (fst p)) select_list = true).
      { apply forallb_forall. intros p Hp. apply Hall.
        apply list_elem_of_In, in_map_iff. by exists p. }
      rewrite Hcols. by eexists.
  - intros r _ Hnull. unfold file_date_ge.
    destruct (get r "file_date") eqn:Hd; try reflexivity.
    by destruct (Hnull t).
Qed.

(** X11.  With a watermark in the state, a run fetches the rows whose
    file date is not more than [overlap_days] days before the
    watermark, and no others: with an overlap that is not negative the
    files of the watermark's own date and of the days just before it
    are read again, while a row that arrives later with an older file
    date is never fetched. *)
Theorem overlap_window_is_refetched :
  ∀ today watermark rolling overlap since table raw,
    compute_since today (Some watermark) rolling overlap = Ok since →
    fetch_new_raw table since = Ok raw →
    since = watermark - overlap * DAY
    ∧ (∀ r t, r ∈ rows table → get r "file_date" = VTimestamp t →
              (project select_list r ∈ rows raw ↔ watermark - overlap * DAY ≤ t))
    ∧ (0 ≤ overlap →
       ∀ r t, r ∈ rows table → get r "file_date" = VTimestamp t → watermark ≤ t →
              project select_list r ∈ rows raw).
Proof.
  intros today watermark rolling overlap since table raw Hsince Hraw.
  apply compute_since_watermark in Hsince. subst since.
  apply fetch_new_raw_rows in Hraw as [_ Hrows].
  assert (Hin : ∀ r t, r ∈ rows table → get r "file_date" = VTimestamp t →
            (project select_list r ∈ rows raw ↔ watermark - overlap * DAY ≤ t)).
  { intros r t Hr Ht. rewrite Hrows. split.
    - intros Ho. apply list_elem_of_In, in_map_iff in Ho as (r' & Heq & Hr').
      apply list_elem_of_In, list_elem_of_filter in Hr' as [Hge _].
      apply file_date_ge_iff in Hge as (t' & Ht' & Hle).
      assert (Hsame : get (project select_list r') "file_date_raw"
                      = get (project select_list r) "file_date_raw") by by rewrite Heq.
      rewrite !get_file_date_raw in Hsame.
      rewrite Ht, Ht' in Hsame. injection Hsame as ->. exact Hle.
    - intros Hle. apply list_elem_of_In, in_map_iff. exists r. split; [done|].
      apply list_elem_of_In, list_elem_of_filter. split; [|exact Hr].
      apply file_date_ge_iff. by exists t. }
  split; [reflexivity|]. split; [exact Hin|].
  intros Hover r t Hr Ht Hle. apply (Hin r t Hr Ht). unfold DAY. lia.
Qed.

End FetchFacts.

(* ===================================================================== *)
(** ** How a run of the transform ends *)
(* ===================================================================== *)

Module OutcomeFacts.
Import Py Frame Transform HashFacts MergeFacts RunFacts WatermarkFacts FetchFacts.
Local Open Scope string_scope.
Local Open Scope list_scope.
Local Open Scope Z_scope.

(** An event that is none of those listed. *)
Ltac absent :=
  let Hin := fresh in
  intros Hin;
  repeat (apply elem_of_cons in Hin as [Hin|Hin]; [discriminate Hin|]);
  by apply elem_of_nil in Hin.

Section Outcome.
Context `{PandasOps}.
Variables (cfg : TransformConfig) (env : Env).

(** The boundary a run starts from. *)
Definition boundary (s : Sys) : result datetime :=
  compute_since (today env) (watermark s) (rolling_days cfg) (overlap_days cfg).

(** The store as the open transaction sees it once the merge and the
    refresh are done. *)
Definition loaded (s : Sys) (tbl : CleanTable) : Db :=
  {| clean := tbl; refreshes := S (refreshes (committed s)) |}.

(** What the steps of a run up to the commit return, when they all
    succeed: the frame fetched and the table merged. *)
Definition reaches_commit (s : Sys) (since : datetime) (raw : DataFrame)
    (tbl : CleanTable) : Prop :=
  ∃ clean_df n,
    guarded env AtFetch (fetch_new_raw (raw_table env) since) = Ok raw
    ∧ clean_transform raw = Ok clean_df
    ∧ guarded env AtMerge (upsert_legtrips_clean (clean (committed s)) clean_df)
      = Ok (tbl, n)
    ∧ fault env AtRefresh = None
    ∧ fault env AtCommit = None.

(** A run that fails before it has a connection. *)
Lemma run_not_connected (s : Sys) e :
  connection s = None →
  boundary s = Raise e ∨ (∃ since, boundary s = Ok since) ∧ fault env AtConnect = Some e →
  run cfg env s = (s, Raise e).
Proof.
  intros Hidle Hwhy. rewrite run_unfold by done. unfold run_steps.
  fold (watermark s). fold (boundary s).
  destruct Hwhy as [->|[(since & ->) ->]]; reflexivity.
Qed.

(** The three ways a run can end once it has a connection. *)
Lemma run_connected (s : Sys) since :
  connection s = None →
  boundary s = Ok since →
  fault env AtConnect = None →
  (∃ e, run cfg env s
        = (finished s (state_file s) (committed s) [EvConnect; EvRollback; EvClose],
           Raise e))
  ∨ (∃ e raw tbl,
        reaches_commit s since raw tbl
        ∧ bind (advance env (load_state (state_file s)) raw)
               (fun state' => guarded env AtSaveState (Ok state')) = Raise e
        ∧ run cfg env s
          = (finished s (state_file s) (loaded s tbl)
               [EvConnect; EvCommit; EvRollback; EvClose], Raise e))
  ∨ (∃ raw tbl state',
        reaches_commit s since raw tbl
        ∧ advance env (load_state (state_file s)) raw = Ok state'
        ∧ fault env AtSaveState = None
        ∧ run cfg env s
          = (finished s (Some state') (loaded s tbl)
               [EvConnect; EvCommit; EvSaveState; EvClose], Ok tt)).
Proof.
  intros Hidle Hsince Hconnect. rewrite run_unfold by done.
  unfold run_steps, loaded.
  fold (watermark s). fold (boundary s). rewrite Hsince, Hconnect.
  destruct (guarded env AtFetch _) as [raw|e] eqn:Hfetch.
  2: { left. by exists e. }
  destruct (clean_transform raw) as [clean_df|e] eqn:Hclean.
  2: { left. by exists e. }
  destruct (guarded env AtMerge _) as [[tbl n]|e] eqn:Hmerge.
  2: { left. by exists e. }
  change (guarded env AtRefresh (Ok ()))
    with (match fault env AtRefresh with Some e => Raise e | None => Ok () end).
  destruct (fault env AtRefresh) as [e|] eqn:Hrefresh.
  { left. by exists e. }
  change (guarded env AtCommit (Ok ()))
    with (match fault env AtCommit with Some e => Raise e | None => Ok () end).
  destruct (fault env AtCommit) as [e|] eqn:Hcommit.
  { left. by exists e. }
  cbn [fst].
  assert (Hreach : reaches_commit s since raw tbl)
    by (exists clean_df, n; done).
  destruct (bind (advance env _ raw) _) as [state'|e] eqn:Hsave.
  2: { right. left. by exists e, raw, tbl. }
  right. right. exists raw, tbl, state'.
  destruct (advance env _ raw) as [state''|e] eqn:Hadv; [|done].
  cbn [bind] in Hsave. unfold guarded in Hsave.
  destruct (fault env AtSaveState) as [e|]; [done|].
  apply Ok_inj in Hsave. by subst state''.
Qed.

(** X12.  However a run ends, it leaves no connection open.  When the
    boundary cannot be computed or the connect fails, there is no
    connection: the run calls neither rollback nor close and leaves
    everything as it found it.  Otherwise the connection is opened
    once and closed once, the close being the last call of the run;
    and when the run raises, a rollback comes just before the close. *)
Theorem run_leaves_no_connection_open :
  ∀ s,
    connection s = None →
    connection (fst (run cfg env s)) = None
    ∧ (∀ e, boundary s = Raise e
            ∨ (∃ since, boundary s = Ok since) ∧ fault env AtConnect = Some e →
            run cfg env s = (s, Raise e))
    ∧ (∀ since, boundary s = Ok since → fault env AtConnect = None →
         ∃ middle,
           trace (fst (run cfg env s)) = trace s ++ (EvConnect :: middle) ++ [EvClose]
           ∧ (EvConnect ∉ middle) ∧ (EvClose ∉ middle)
           ∧ ∀ e, snd (run cfg env s) = Raise e → last middle = Some EvRollback).
Proof.
  intros s Hidle.
  assert (Hlate : ∀ since, boundary s = Ok since → fault env AtConnect = None →
            connection (fst (run cfg env s)) = None
            ∧ ∃ middle,
                trace (fst (run cfg env s)) = trace s ++ (EvConnect :: middle) ++ [EvClose]
                ∧ (EvConnect ∉ middle) ∧ (EvClose ∉ middle)
                ∧ ∀ e, snd (run cfg env s) = Raise e → last middle = Some EvRollback).
  { intros since Hsince Hconnect.
    destruct (run_connected s since Hidle Hsince Hconnect)
      as [(e & ->) | [(e & raw & tbl & _ & _ & ->)
                     | (raw & tbl & state' & _ & _ & _ & ->)]];
      cbn [fst snd finished connection trace]; (split; [reflexivity|]).
    - exists [EvRollback]. split; [done|].
      split; [absent|]. split; [absent|]. done.
    - exists [EvCommit; EvRollback]. split; [done|].
      split; [absent|]. split; [absent|]. done.
    - exists [EvCommit; EvSaveState]. split; [done|].
      split; [absent|]. split; [absent|]. done. }
  split; [|split].
  - destruct (boundary s) as [since|e] eqn:Hsince.
    + destruct (fault env AtConnect) as [e|] eqn:Hconnect.
      * rewrite (run_not_connected s e Hidle); [exact Hidle|].
        right. split; [by exists since|done].
      * by destruct (Hlate since eq_refl eq_refl).
    + rewrite (run_not_connected s e Hidle); [exact Hidle|by left].
  - intros e. by apply run_not_connected.
  - intros since Hsince Hconnect. by destruct (Hlate since Hsince Hconnect).
Qed.

(** X13.  A failure after the commit is not undone.  When everything
    up to the commit succeeds and the state file then cannot be
    written (or the new watermark cannot be computed), the run raises
    and calls rollback, but the store keeps what was committed: the
    merged table and the rebuilt aggregates.  The state file is what it
    was, so the next run starts from the same watermark. *)
Theorem failure_after_commit_keeps_the_data :
  ∀ s since raw tbl e,
    connection s = None →
    boundary s = Ok since →
    fault env AtConnect = None →
    reaches_commit s since raw tbl →
    bind (advance env (load_state (state_file s)) raw)
         (fun state' => guarded env AtSaveState (Ok state')) = Raise e →
    snd (run cfg env s) = Raise e
    ∧ committed (fst (run cfg env s)) = loaded s tbl
    ∧ state_file (fst (run cfg env s)) = state_file s
    ∧ watermark (fst (run cfg env s)) = watermark s
    ∧ trace (fst (run cfg env s))
      = trace s ++ [EvConnect; EvCommit; EvRollback; EvClose].
Proof.
  intros s since raw tbl e Hidle Hsince Hconnect Hreach Hfail.
  destruct Hreach as (clean_df & n & Hfetch & Hclean & Hmerge & Hrefresh & Hcommit).
  rewrite run_unfold by done. unfold run_steps.
  fold (watermark s). fold (boundary s).
  rewrite Hsince, Hconnect, Hfetch, Hclean, Hmerge.
  change (guarded env AtRefresh (Ok ()))
    with (match fault env AtRefresh with Some e => Raise e | None => Ok () end).
  change (guarded env AtCommit (Ok ()))
    with (match fault env AtCommit with Some e => Raise e | None => Ok () end).
  rewrite Hrefresh, Hcommit, Hfail. done.
Qed.

(** X14.  What every successful run does, the ones that fetch nothing
    included: it rebuilds the aggregates once and commits; the rows the
    clean table held are still there, first and unchanged; and the
    state file it writes after the commit carries the time of the run
    in [last_run_utc]. *)
Theorem successful_run_commits_and_stamps :
  ∀ s,
    connection s = None →
    snd (run cfg env s) = Ok tt →
    refreshes (committed (fst (run cfg env s))) = S (refreshes (committed s))
    ∧ (∃ inserted,
         stored (clean (committed (fst (run cfg env s))))
         = stored (clean (committed s)) ++ inserted)
    ∧ (∃ state', state_file (fst (run cfg env s)) = Some state'
                 ∧ last_run_utc state' = Some (now_utc env))
    ∧ trace (fst (run cfg env s))
      = trace s ++ [EvConnect; EvCommit; EvSaveState; EvClose].
Proof.
  intros s Hidle Hok.
  destruct (boundary s) as [since|e] eqn:Hsince.
  2: { rewrite (run_not_connected s e Hidle) in Hok; [done|by left]. }
  destruct (fault env AtConnect) as [e|] eqn:Hconnect.
  { rewrite (run_not_connected s e Hidle) in Hok; [done|].
    right. split; [by exists since|done]. }
  destruct (run_connected s since Hidle Hsince Hconnect)
    as [(e & Hrun) | [(e & raw & tbl & _ & _ & Hrun)
                     | (raw & tbl & state' & Hreach & Hadv & _ & Hrun)]];
    rewrite Hrun in Hok |- *; [done|done|].
  cbn [fst finished committed state_file trace loaded refreshes clean].
  split; [reflexivity|]. split; [|split; [|reflexivity]].
  - destruct Hreach as (clean_df & n & _ & _ & Hmerge & _).
    apply guarded_ok in Hmerge.
    destruct (StagingFacts.upsert_count _ _ _ _ Hmerge) as [_ Hins].
    destruct Hins as (inserted & Hins & _). by exists inserted.
  - exists state'. split; [reflexivity|].
    unfold advance in Hadv.
    destruct (if empty raw then _ else _) as [st|e]; [|done].
    cbn [bind] in Hadv. apply Ok_inj in Hadv. by subst state'.
Qed.

End Outcome.

End OutcomeFacts.

(* ===================================================================== *)
(** ** The file name, the file date and the rows of a file *)
(* ===================================================================== *)

Module ProvenanceFacts.
Import Py Frame Ingest HashFacts EnrichFacts.
Local Open Scope string_scope.
Local Open Scope list_scope.
Local Open Scope Z_scope.

Lemma starts_with_app old s : starts_with old (old ++ s) = true.
Proof.
  induction old as [|a old IH]; [done|].
  cbn [starts_with app]. by rewrite Z.eqb_refl, IH.
Qed.

Lemma starts_with_other a old c s : a ≠ c → starts_with (a :: old) (c :: s) = false.
Proof. intros Hne. cbn [starts_with]. by rewrite (proj2 (Z.eqb_neq a c) Hne). Qed.

(** With enough fuel the scan does not depend on the fuel. *)
Lemma remove_fuel_enough a old fuel1 fuel2 s :
  (length s ≤ fuel1)%nat → (length s ≤ fuel2)%nat →
  remove_fuel fuel1 (a :: old) s = remove_fuel fuel2 (a :: old) s.
Proof.
  revert fuel2 s. induction fuel1 as [|fuel1 IH]; intros fuel2 s H1 H2.
  - destruct s; [|cbn [length] in H1; lia]. by destruct fuel2.
  - destruct s as [|c rest]; [by destruct fuel2|].
    destruct fuel2 as [|fuel2]; [cbn [length] in H2; lia|].
    cbn [remove_fuel]. cbn [length] in H1, H2.
    destruct (starts_with (a :: old) (c :: rest)).
    + apply IH; cbn [length skipn]; rewrite length_skipn; lia.
    + f_equal. apply IH; lia.
Qed.

Lemma remove_all_nil old : remove_all old [] = [].
Proof. by destruct old. Qed.

(** [replace] drops an occurrence at the front. *)
Lemma remove_all_front a old s :
  remove_all (a :: old) ((a :: old) ++ s) = remove_all (a :: old) s.
Proof.
  unfold remove_all.
  change (length ((a :: old) ++ s)) with (S (length (old ++ s))).
  cbn [remove_fuel app].
  change (a :: old ++ s) with ((a :: old) ++ s).
  rewrite starts_with_app.
  change (skipn (length (a :: old)) ((a :: old) ++ s)) with (skipn (length old) (old ++ s)).
  rewrite drop_app_length.
  apply remove_fuel_enough; [rewrite length_app; lia|lia].
Qed.

(** [replace] passes over text in which no occurrence can start. *)
Lemma remove_all_pass a old d s :
  a ∉ d → remove_all (a :: old) (d ++ s) = d ++ remove_all (a :: old) s.
Proof.
  intros Hd. induction d as [|c d IH]; [done|].
  apply not_elem_of_cons in Hd as [Hne Hd].
  unfold remove_all in *. cbn [app length remove_fuel].
  rewrite starts_with_other by done. f_equal. by apply IH.
Qed.

Lemma remove_all_absent old d :
  (∀ a, head old = Some a → a ∉ d) → remove_all old d = d.
Proof.
  destruct old as [|a old]; [done|]. intros Hd.
  rewrite <- (app_nil_r d) at 1. rewrite remove_all_pass by by apply Hd.
  by rewrite remove_all_nil, app_nil_r.
Qed.

Lemma remove_all_back old d :
  (∀ a, head old = Some a → a ∉ d) → remove_all old (d ++ old) = d.
Proof.
  destruct old as [|a old]; [by rewrite app_nil_r|]. intros Hd.
  rewrite remove_all_pass by by apply Hd.
  rewrite <- (app_nil_r (a :: old)) at 2.
  by rewrite remove_all_front, remove_all_nil, app_nil_r.
Qed.

Lemma has_column_set_scalar_new k v df : has_column (set_scalar k v df) k = true.
Proof.
  unfold set_scalar, has_column. cbn [columns].
  destruct (bool_decide (k ∈ columns df)) eqn:Hk; [exact Hk|].
  apply bool_decide_eq_true, elem_of_app. right. by left.
Qed.

Lemma has_column_set_scalar_keep k v df c :
  has_column df c = true → has_column (set_scalar k v df) c = true.
Proof.
  unfold set_scalar, has_column. cbn [columns]. intros Hc.
  destruct (bool_decide (k ∈ columns df)); [exact Hc|].
  apply bool_decide_eq_true. apply bool_decide_eq_true in Hc.
  apply elem_of_app. by left.
Qed.

Lemma set_column_keep c values df df' c' :
  set_column c values df = Ok df' → has_column df c' = true → has_column df' c' = true.
Proof.
  intros Hset Hc'. apply set_column_rows in Hset as (_ & Hcols & _).
  unfold has_column in *. rewrite Hcols.
  destruct (bool_decide (c ∈ columns df)); [exact Hc'|].
  apply bool_decide_eq_true. apply bool_decide_eq_true in Hc'.
  apply elem_of_app. by left.
Qed.

Lemma assign_each_keep cols f df df' c :
  assign_each cols f df = Ok df' → has_column df c = true → has_column df' c = true.
Proof.
  revert df. induction cols as [|c0 cols IH]; intros df Hok Hc.
  - apply Ok_inj in Hok. by subst df'.
  - cbn [assign_each] in Hok.
    destruct (assign c0 c0 f df) as [df1|e] eqn:Ha; [|done].
    cbn [bind] in Hok. apply (IH df1 Hok).
    by apply (proj2 (assign_rows _ _ _ _ _ Ha)).
Qed.

Section Provenance.
Context `{PandasOps} `{GeoOps}.
Variable cfg : IngestConfig.

(** The text the file date is read from: the file name without the
    configured prefix and suffix. *)
Definition file_date_text (fname : pystr) : pystr :=
  remove_all (file_suffix cfg)
    (remove_all (filename_substring cfg ++ text "_") fname).

(** The cell [file_date] of every row of the file. *)
Definition file_date (fname : pystr) : Value :=
  timestamp_or_nat (to_datetime (VStr (file_date_text fname))).

Lemma prepared_cells fname r :
  get (prepared fname cfg r) "source_file" = VStr fname
  ∧ get (prepared fname cfg r) "file_date" = file_date fname.
Proof.
  unfold prepared, coord_cols, file_date, file_date_text. cbn [fold_left].
  split.
  - rewrite !get_insert_ne by discriminate. by rewrite get_insert_eq.
  - rewrite !get_insert_ne by discriminate. by rewrite get_insert_eq.
Qed.

Lemma enriched_cells bg r :
  get (enriched bg r) "source_file" = astype_string (get r "source_file")
  ∧ get (enriched bg r) "file_date" = get r "file_date"
  ∧ ∀ c, c ∈ coord_cols → get (enriched bg r) c = get r c.
Proof.
  unfold enriched. split; [by rewrite get_insert_eq|]. split.
  - by rewrite !get_insert_ne by discriminate.
  - intros c Hc. unfold coord_cols in Hc.
    repeat (apply elem_of_cons in Hc as [->|Hc];
            [by rewrite !get_insert_ne by discriminate|]).
    by apply elem_of_nil in Hc.
Qed.

(** The rows of an enriched file, read one by one. *)
Lemma enrich_rows df fname bg out o :
  enrich_file_dataframe df fname cfg bg = Ok out →
  o ∈ rows out →
  get o "source_file" = VStr fname
  ∧ get o "file_date" = file_date fname
  ∧ ∀ c, c ∈ coord_cols → isna (get o c) = false.
Proof.
  intros Hok Ho. destruct (enrich_ok df fname cfg bg out Hok) as [Hrows _].
  rewrite Hrows in Ho.
  apply list_elem_of_In, in_map_iff in Ho as (r & <- & Hr).
  apply list_elem_of_In, list_elem_of_filter in Hr as [Hloc Hr].
  apply list_elem_of_In, in_map_iff in Hr as (r0 & <- & _).
  destruct (enriched_cells bg (prepared fname cfg r0)) as (-> & -> & Hcoord).
  destruct (prepared_cells fname r0) as (-> & ->).
  split; [reflexivity|]. split; [reflexivity|].
  intros c Hc. rewrite (Hcoord c Hc).
  unfold located in Hloc. apply list_elem_of_In in Hc.
  apply negb_true_iff. exact (proj1 (forallb_forall _ _) Hloc c Hc).
Qed.

(** The columns a file has after the enrichment. *)
Lemma enrich_columns df fname bg out c :
  enrich_file_dataframe df fname cfg bg = Ok out →
  has_column df c = true ∨ c = "source_file" ∨ c = "file_date" →
  has_column out c = true.
Proof.
  intros Hok Hc. unfold enrich_file_dataframe in Hok.
  set (df1 := set_scalar "source_file" (VStr fname) df) in Hok.
  set (df2 := set_scalar "file_date" _ df1) in Hok.
  assert (Hc2 : has_column df2 c = true).
  { destruct Hc as [Hc|[->| ->]].
    - by apply has_column_set_scalar_keep, has_column_set_scalar_keep.
    - apply has_column_set_scalar_keep, has_column_set_scalar_new.
    - apply has_column_set_scalar_new. }
  clearbody df2. clear df1 Hc.
  destruct (clean_coords coord_cols df2) as [df3|e] eqn:Hcc; [|done].
  cbn [bind] in Hok. apply clean_coords_rows in Hcc as [Hcols3 _].
  assert (Hc4 : has_column (dropna_coords df3) c = true).
  { unfold has_column, dropna_coords in *. cbn [columns]. by rewrite Hcols3. }
  remember (dropna_coords df3) as df4 eqn:E4. clear E4 Hcols3 df3 Hc2.
  destruct (empty df4); [apply Ok_inj in Hok; by subst out|].
  destruct (set_column "manhattan_distance_mi" _ df4) as [df5|e] eqn:H5; [|done].
  cbn [bind] in Hok.
  destruct (set_column "euclidean_distance_mi" _ df5) as [df6|e] eqn:H6; [|done].
  cbn [bind] in Hok.
  destruct (set_column "Origin_BG" _ df6) as [df7|e] eqn:H7; [|done].
  cbn [bind] in Hok.
  destruct (set_column "Dest_BG" _ df7) as [df8|e] eqn:H8; [|done].
  cbn [bind] in Hok.
  apply (assign_each_keep _ _ _ _ _ Hok).
  apply (set_column_keep _ _ _ _ _ H8), (set_column_keep _ _ _ _ _ H7),
    (set_column_keep _ _ _ _ _ H6), (set_column_keep _ _ _ _ _ H5), Hc4.
Qed.

(** X15.  A file named by the configured prefix, an underscore, a
    date text and the configured suffix gets that date text read back
    from its name, provided the date text holds neither the first
    character of the suffix nor, together with the suffix, the first
    character of the prefix (digits and hyphens between
    [tapped_trip_view_legs_] and [.csv] qualify).  Every row of the
    enriched file then carries the file name in [source_file] and the
    date parsed from that text in [file_date], the same for all rows. *)
Theorem file_date_is_read_from_the_name :
  ∀ d,
    (∀ a, head (filename_substring cfg ++ text "_") = Some a → a ∉ d ++ file_suffix cfg) →
    (∀ b, head (file_suffix cfg) = Some b → b ∉ d) →
    file_date_text (filename_substring cfg ++ text "_" ++ d ++ file_suffix cfg) = d
    ∧ ∀ df bg out o,
        enrich_file_dataframe df
          (filename_substring cfg ++ text "_" ++ d ++ file_suffix cfg) cfg bg = Ok out →
        o ∈ rows out →
        get o "source_file"
        = VStr (filename_substring cfg ++ text "_" ++ d ++ file_suffix cfg)
        ∧ get o "file_date" = timestamp_or_nat (to_datetime (VStr d)).
Proof.
  intros d Hpre Hsuf.
  assert (Htext : file_date_text
                    (filename_substring cfg ++ text "_" ++ d ++ file_suffix cfg) = d).
  { unfold file_date_text. rewrite (app_assoc (filename_substring cfg)).
    destruct (filename_substring cfg ++ text "_") as [|a pre] eqn:Epre.
    { by destruct (filename_substring cfg). }
    rewrite remove_all_front.
    rewrite (remove_all_absent (a :: pre)) by exact Hpre.
    by apply remove_all_back. }
  split; [exact Htext|].
  intros df bg out o Hok Ho.
  destruct (enrich_rows _ _ _ _ _ Hok Ho) as (Hsrc & Hdate & _).
  split; [exact Hsrc|]. rewrite Hdate. unfold file_date. by rewrite Htext.
Qed.

End Provenance.

End ProvenanceFacts.

(* ===================================================================== *)
(** ** The loop over the new files *)
(* ===================================================================== *)

Module IngestFacts.
Import Py Frame Ingest HashFacts EnrichFacts ProvenanceFacts.
Local Open Scope string_scope.
Local Open Scope list_scope.
Local Open Scope Z_scope.

(** The rows of the raw table; a table that does not exist has none. *)
Definition raw_rows (table : option DataFrame) : list (gmap string Value) :=
  match table with
  | Some t => rows t
  | None => []
  end.

(** The file names recorded in a list of rows. *)
Definition names_of (rs : list (gmap string Value)) : list pystr :=
  map (fun r => str (get r "source_file"))
      (filter (fun r => isna (get r "source_file") = false) rs).

(** The table can be asked for its file names. *)
Definition readable (table : option DataFrame) : Prop :=
  match table with
  | Some t => has_column t "source_file" = true
  | None => True
  end.

Lemma readable_or_not table : readable table ∨ ¬ readable table.
Proof.
  destruct table as [t|]; cbn [readable]; [|by left].
  destruct (has_column t "source_file"); [by left|by right].
Qed.

Lemma names_of_app rs1 rs2 : names_of (rs1 ++ rs2) = names_of rs1 ++ names_of rs2.
Proof. unfold names_of. by rewrite filter_app, map_app. Qed.

Lemma names_of_row r rs fname :
  r ∈ rs → get r "source_file" = VStr fname → fname ∈ names_of rs.
Proof.
  intros Hr Hsrc. unfold names_of.
  apply list_elem_of_In, in_map_iff. exists r. rewrite Hsrc. split; [done|].
  apply list_elem_of_In, list_elem_of_filter. by rewrite Hsrc.
Qed.

Lemma already_loaded_readable table :
  readable table → get_already_loaded_files table = Ok (names_of (raw_rows table)).
Proof.
  destruct table as [t|]; [|done]. cbn [readable]. intros Hcol.
  unfold get_already_loaded_files. by rewrite Hcol.
Qed.

(** What [write_to_sql] does to the table. *)
Lemma write_to_sql_rows df table :
  empty df = false →
  ∃ table', write_to_sql df table = (table', length (rows df))
            ∧ raw_rows table' = raw_rows table ++ rows df
            ∧ (∀ c, match table with
                    | Some t => has_column t c = true
                    | None => has_column df c = true
                    end →
                    ∃ t', table' = Some t' ∧ has_column t' c = true).
Proof.
  intros Hne. unfold write_to_sql. rewrite Hne. destruct table as [t|].
  - eexists. split; [reflexivity|]. split; [reflexivity|].
    intros c Hc. eexists. split; [reflexivity|]. exact Hc.
  - eexists. split; [reflexivity|]. split; [reflexivity|].
    intros c Hc. eexists. split; [reflexivity|]. exact Hc.
Qed.

Lemma nonempty_rows df : empty df = false → ∃ r, r ∈ rows df.
Proof.
  unfold empty. destruct (rows df) as [|r rs]; [done|]. intros _. exists r. by left.
Qed.

Section Files.
Context `{PandasOps} `{GeoOps}.
Variables (cfg : IngestConfig) (bg : list (Value * Polygon)).

(** A file the loop passes over: its body does not parse, or no line
    of it has all four coordinates. *)
Definition skipped (f : PortalFile) : Prop :=
  download f = Unparsable
  ∨ ∃ df df2, download f = Csv df
              ∧ enrich_file_dataframe df (name f) cfg bg = Ok df2
              ∧ empty df2 = true.

(** A file the loop writes to the raw table, and the frame written. *)
Definition written (f : PortalFile) (df2 : DataFrame) : Prop :=
  ∃ df, download f = Csv df
        ∧ enrich_file_dataframe df (name f) cfg bg = Ok df2
        ∧ empty df2 = false.

(** A file the loop stops at. *)
Definition fails (f : PortalFile) (e : exn) : Prop :=
  download f = HttpError e
  ∨ ∃ df, download f = Csv df ∧ enrich_file_dataframe df (name f) cfg bg = Raise e.

Lemma ingest_files_skipped files table total :
  Forall skipped files → ingest_files cfg bg files table total = (table, Ok total).
Proof.
  induction 1 as [|f files Hf _ IH]; [done|].
  cbn [ingest_files]. destruct Hf as [->|(df & df2 & -> & -> & ->)]; exact IH.
Qed.

Lemma ingest_files_written f df2 rest table total :
  written f df2 →
  ∃ table1,
    ingest_files cfg bg (f :: rest) table total
    = ingest_files cfg bg rest table1 (total + length (rows df2))%nat
    ∧ raw_rows table1 = raw_rows table ++ rows df2
    ∧ (readable table → readable table1)
    ∧ ∀ o, o ∈ rows df2 → get o "source_file" = VStr (name f).
Proof.
  intros (df & Hd & Hen & Hne).
  destruct (write_to_sql_rows df2 table Hne) as (table1 & Hw & Hrows & Hcols).
  exists table1. split; [|split; [exact Hrows|split]].
  - cbn [ingest_files]. by rewrite Hd, Hen, Hne, Hw.
  - intros Hread. destruct (Hcols "source_file") as (t1 & -> & Ht1); [|exact Ht1].
    destruct table as [t|]; [exact Hread|].
    apply (enrich_columns cfg df (name f) bg df2 _ Hen). right. by left.
  - intros o Ho. by destruct (enrich_rows cfg df (name f) bg df2 o Hen Ho).
Qed.

(** One step of the loop, whatever the file. *)
Lemma ingest_files_cons f rest table total :
  (skipped f
   ∧ ingest_files cfg bg (f :: rest) table total = ingest_files cfg bg rest table total)
  ∨ (∃ df2, written f df2)
  ∨ (∃ e, fails f e ∧ ingest_files cfg bg (f :: rest) table total = (table, Raise e)).
Proof.
  cbn [ingest_files]. unfold skipped, written, fails.
  destruct (download f) as [e| |df] eqn:Hd.
  - right. right. exists e. split; [by left|done].
  - left. split; [by left|done].
  - destruct (enrich_file_dataframe df (name f) cfg bg) as [df2|e] eqn:Hen.
    + destruct (empty df2) eqn:Hempty.
      * left. split; [|done]. right. by exists df, df2.
      * right. left. exists df2, df. done.
    + right. right. exists e. split; [|done]. right. by exists df.
Qed.

(** What the loop leaves behind: the rows it appended, and for a loop
    that went through, what became of each file. *)
Lemma ingest_files_spec files table total :
  ∃ added,
    raw_rows (fst (ingest_files cfg bg files table total)) = raw_rows table ++ added
    ∧ (readable table → readable (fst (ingest_files cfg bg files table total)))
    ∧ (∀ o, o ∈ added → ∃ f, f ∈ files ∧ get o "source_file" = VStr (name f))
    ∧ ∀ n, snd (ingest_files cfg bg files table total) = Ok n →
           n = (total + length added)%nat
           ∧ ∀ f, f ∈ files → skipped f ∨ name f ∈ names_of added.
Proof.
  revert table total. induction files as [|f rest IH]; intros table total.
  { exists []. cbn [ingest_files fst snd]. rewrite app_nil_r.
    split; [done|]. split; [done|]. split; [intros o Ho; by apply elem_of_nil in Ho|].
    intros n Hn. apply Ok_inj in Hn. split; [cbn [length]; lia|].
    intros f Hf. by apply elem_of_nil in Hf. }
  destruct (ingest_files_cons f rest table total)
    as [[Hskip ->] | [(df2 & Hw) | (e & Hfail & ->)]].
  - destruct (IH table total) as (added & Hrows & Hread & Hsrc & Hok).
    exists added. split; [exact Hrows|]. split; [exact Hread|]. split.
    + intros o Ho. destruct (Hsrc o Ho) as (g & Hg & Hname).
      exists g. split; [by right|done].
    + intros n Hn. destruct (Hok n Hn) as [Hcount Hall].
      split; [exact Hcount|]. intros g Hg.
      apply elem_of_cons in Hg as [->|Hg]; [by left|by apply Hall].
  - destruct (ingest_files_written f df2 rest table total Hw)
      as (table1 & -> & Hrows1 & Hread1 & Hsrc1).
    destruct (IH table1 (total + length (rows df2))%nat)
      as (added & Hrows & Hread & Hsrc & Hok).
    exists (rows df2 ++ added). split; [by rewrite Hrows, Hrows1, app_assoc|].
    split; [intros Ht; by apply Hread, Hread1|]. split.
    + intros o Ho. apply elem_of_app in Ho as [Ho|Ho].
      * exists f. split; [by left|by apply Hsrc1].
      * destruct (Hsrc o Ho) as (g & Hg & Hname). exists g. split; [by right|done].
    + intros n Hn. destruct (Hok n Hn) as [Hcount Hall].
      split; [rewrite length_app; lia|]. intros g Hg. rewrite names_of_app.
      apply elem_of_cons in Hg as [->|Hg].
      * right. apply elem_of_app. left.
        destruct Hw as (df & _ & _ & Hne).
        destruct (nonempty_rows df2 Hne) as (o & Ho).
        apply (names_of_row o); [exact Ho|by apply Hsrc1].
      * destruct (Hall g Hg) as [Hs|Hn']; [by left|].
        right. apply elem_of_app. by right.
  - exists []. cbn [fst snd]. rewrite app_nil_r.
    split; [done|]. split; [done|]. split; [intros o Ho; by apply elem_of_nil in Ho|].
    intros n Hn. discriminate Hn.
Qed.

(** The files of a listing that are not in the table yet. *)
Definition new_files (listing : list PortalFile) (table : option DataFrame)
  : list PortalFile :=
  filter (fun f => name f ∉ names_of (raw_rows table)) listing.

Lemma run_unreadable listing table :
  ¬ readable table → run cfg bg listing table = (table, Raise (ExternalError "read_sql")).
Proof.
  destruct table as [t|]; cbn [readable]; [|done].
  intros Hno. unfold run, get_already_loaded_files.
  by destruct (has_column t "source_file").
Qed.

Lemma run_ingests listing table :
  readable table →
  run cfg bg listing table = ingest_files cfg bg (new_files listing table) table O.
Proof.
  intros Hread. unfold run, new_files.
  rewrite already_loaded_readable by done.
  by destruct (filter _ listing).
Qed.

(** X16.  An ingest run only appends to the raw table: the rows that
    were there stay, first and unchanged, whether the run returns or
    raises.  The rows appended carry the name of a listed file that
    the table did not name before; and when the run returns, the
    number it returns is the number of rows it appended. *)
Theorem ingest_run_appends_and_counts :
  ∀ listing table,
    ∃ added,
      raw_rows (fst (run cfg bg listing table)) = raw_rows table ++ added
      ∧ (∀ o, o ∈ added →
           ∃ f, f ∈ listing ∧ get o "source_file" = VStr (name f)
                ∧ name f ∉ names_of (raw_rows table))
      ∧ ∀ n, snd (run cfg bg listing table) = Ok n → n = length added.
Proof.
  intros listing table.
  destruct (readable_or_not table) as [Hread|Hno].
  - rewrite run_ingests by done.
    destruct (ingest_files_spec (new_files listing table) table O)
      as (added & Hrows & _ & Hsrc & Hok).
    exists added. split; [exact Hrows|]. split.
    + intros o Ho. destruct (Hsrc o Ho) as (f & Hf & Hname).
      apply list_elem_of_filter in Hf as [Hnew Hf]. by exists f.
    + intros n Hn. by destruct (Hok n Hn).
  - rewrite run_unreadable by done. exists []. cbn [fst snd].
    rewrite app_nil_r. split; [done|].
    split; [intros o Ho; by apply elem_of_nil in Ho|]. intros n Hn. discriminate Hn.
Qed.

(** X17.  Ingesting is incremental: after a run that returned, a second
    run over the same listing finds nothing to do.  It writes nothing
    and returns 0, because every listed file is by then named in the
    table or is one the loop passes over (a body that does not parse,
    or no line with all four coordinates). *)
Theorem second_ingest_run_inserts_nothing :
  ∀ listing table table' n,
    run cfg bg listing table = (table', Ok n) →
    run cfg bg listing table' = (table', Ok O)
    ∧ ∀ f, f ∈ listing → name f ∈ names_of (raw_rows table') ∨ skipped f.
Proof.
  intros listing table table' n Hrun.
  assert (Hread : readable table).
  { destruct (readable_or_not table) as [Hread|Hno]; [done|].
    rewrite run_unreadable in Hrun by done. discriminate Hrun. }
  rewrite run_ingests in Hrun by done.
  destruct (ingest_files_spec (new_files listing table) table O)
    as (added & Hrows & Hread' & _ & Hok).
  rewrite Hrun in Hrows, Hread', Hok. cbn [fst snd] in Hrows, Hread', Hok.
  destruct (Hok n eq_refl) as [_ Hall].
  assert (Hfiles : ∀ f, f ∈ listing → name f ∈ names_of (raw_rows table') ∨ skipped f).
  { intros f Hf. rewrite Hrows, names_of_app.
    destruct (decide (name f ∈ names_of (raw_rows table))) as [Hold|Hnew].
    - left. apply elem_of_app. by left.
    - destruct (Hall f) as [Hs|Hn]; [by apply list_elem_of_filter|by right|].
      left. apply elem_of_app. by right. }
  split; [|exact Hfiles].
  rewrite run_ingests by by apply Hread'.
  apply ingest_files_skipped. apply Forall_forall. intros f Hf.
  apply list_elem_of_filter in Hf as [Hnew Hf].
  by destruct (Hfiles f Hf).
Qed.

(** X18.  The loop has no transaction of its own: what it wrote stays
    written.  When the files before some file went through and that
    file cannot be fetched or enriched, the run raises there, the rows
    of the files before it are in the table, and no file after it is
    looked at. *)
Theorem ingest_keeps_what_it_wrote_before_a_failure :
  ∀ before f after table total table1 n1 e,
    ingest_files cfg bg before table total = (table1, Ok n1) →
    fails f e →
    ingest_files cfg bg (before ++ f :: after) table total = (table1, Raise e)
    ∧ ∃ added, raw_rows table1 = raw_rows table ++ added
               ∧ n1 = (total + length added)%nat.
Proof.
  intros before f after table total table1 n1 e Hbefore Hfail. split.
  - revert table total Hbefore.
    induction before as [|g before IH]; intros table total Hbefore.
    + cbn [ingest_files] in Hbefore. injection Hbefore as -> ->.
      cbn [app ingest_files].
      destruct Hfail as [->|(df & -> & ->)]; reflexivity.
    + cbn [app ingest_files] in Hbefore |- *.
      destruct (download g) as [e'| |df]; [discriminate Hbefore|by apply IH|].
      destruct (enrich_file_dataframe df (name g) cfg bg) as [df2|e'];
        [|discriminate Hbefore].
      destruct (empty df2); [by apply IH|].
      destruct (write_to_sql df2 table) as [table2 inserted]. by apply IH.
  - destruct (ingest_files_spec before table total) as (added & Hrows & _ & _ & Hok).
    rewrite Hbefore in Hrows, Hok. cbn [fst snd] in Hrows, Hok.
    exists added. split; [exact Hrows|]. by destruct (Hok n1 eq_refl).
Qed.

End Files.

End IngestFacts.

(* ===================================================================== *)
(** ** From the ingest to the transform *)
(* ===================================================================== *)

Module PipelineFacts.
Import Py Frame Transform Ingest HashFacts MergeFacts WatermarkFacts EnrichFacts
  CanonicalFacts LoadFacts FetchFacts ProvenanceFacts IngestFacts.
Local Open Scope string_scope.
Local Open Scope list_scope.
Local Open Scope Z_scope.

Lemma fetch_new_raw_same_columns t rs since :
  fetch_new_raw {| columns := columns t; rows := rs |} since
  = if forallb (fun p => has_column t (fst p)) select_list then
      Ok {| columns := map snd select_list;
            rows := map (project select_list)
                        (filter (fun r => file_date_ge since r = true) rs) |}
    else Raise (ExternalError "fetch").
Proof. reflexivity. Qed.

Lemma fetched_frame table since raw r :
  fetch_new_raw table since = Ok raw →
  r ∈ rows table → file_date_ge since r = true →
  empty raw = false
  ∧ (∀ c, c ∈ map snd select_list → has_column raw c = true)
  ∧ project select_list r ∈ rows raw.
Proof.
  intros Hraw Hr Hge. apply fetch_new_raw_rows in Hraw as [Hcols Hrows].
  assert (Hin : project select_list r ∈ rows raw).
  { rewrite Hrows. apply list_elem_of_In, in_map_iff. exists r. split; [done|].
    apply list_elem_of_In, list_elem_of_filter. by split. }
  split; [|split; [|exact Hin]].
  - unfold empty. rewrite Hcols. destruct (rows raw); [by apply elem_of_nil in Hin|done].
  - intros c Hc. unfold has_column. rewrite Hcols. by apply bool_decide_eq_true.
Qed.

Lemma fetched_area_codes (r : gmap string Value) :
  get (project select_list r) "Origin_BG" = get r "Origin_BG"
  ∧ get (project select_list r) "Dest_BG" = get r "Dest_BG".
Proof. split; by rewrite get_project. Qed.

Section Pipeline.
Context `{PandasOps} `{GeoOps}.
Variable cfg : IngestConfig.

(** X19.  A file whose name gives no date is ingested all the same:
    [errors="coerce"] makes its [file_date] [NaT] in every row, which
    the raw table stores as NULL.  The transform never sees these
    rows: whatever the boundary, appending them to the raw table does
    not change what [fetch_new_raw] returns. *)
Theorem undated_file_is_never_fetched :
  ∀ df fname bg out,
    enrich_file_dataframe df fname cfg bg = Ok out →
    to_datetime (VStr (file_date_text cfg fname)) = None →
    (∀ o, o ∈ rows out → get o "file_date" = VNaT)
    ∧ ∀ table since,
        ∃ table', fst (write_to_sql out (Some table)) = Some table'
                  ∧ raw_rows (Some table') = rows table ++ (if empty out then [] else rows out)
                  ∧ fetch_new_raw table' since = fetch_new_raw table since.
Proof.
  intros df fname bg out Hok Hdate.
  assert (Hnat : ∀ o, o ∈ rows out → get o "file_date" = VNaT).
  { intros o Ho. destruct (enrich_rows cfg df fname bg out o Hok Ho) as (_ & -> & _).
    unfold file_date. by rewrite Hdate. }
  split; [exact Hnat|]. intros table since. unfold write_to_sql.
  destruct (empty out).
  - exists table. cbn [fst raw_rows]. by rewrite app_nil_r.
  - eexists. cbn [fst raw_rows]. split; [reflexivity|]. split; [reflexivity|].
    rewrite fetch_new_raw_same_columns. unfold fetch_new_raw.
    rewrite filter_app.
    rewrite (filter_none (fun r => file_date_ge since r = true) (rows out)).
    + by rewrite app_nil_r.
    + intros o Ho. unfold file_date_ge. by rewrite (Hnat o Ho).
Qed.

(** X20.  A leg that starts or ends outside every polygon of the layer
    is ingested with a missing [Origin_BG] or [Dest_BG].  Once such a
    row is in the raw table and inside the window of a run, the
    transform of that run raises [TypeError]: the missing area code is
    [pandas.NA] when the row is hashed.  No row of the window is then
    transformed. *)
Theorem leg_outside_the_layer_stops_the_transform :
  ∀ df fname bg out o table since raw,
    enrich_file_dataframe df fname cfg bg = Ok out →
    o ∈ rows out →
    hits (get o "start_longitude") (get o "start_latitude") bg = []
    ∨ hits (get o "end_longitude") (get o "end_latitude") bg = [] →
    o ∈ rows table →
    file_date_ge since o = true →
    fetch_new_raw table since = Ok raw →
    (get o "Origin_BG" = VNA ∨ get o "Dest_BG" = VNA)
    ∧ clean_transform raw = Raise TypeError.
Proof.
  intros df fname bg out o table since raw Hok Ho Hout Htable Hge Hraw.
  assert (Hna : get o "Origin_BG" = VNA ∨ get o "Dest_BG" = VNA).
  { destruct (enrich_ok df fname cfg bg out Hok) as [Hrows _].
    rewrite Hrows in Ho.
    apply list_elem_of_In, in_map_iff in Ho as (r & <- & _).
    destruct (enriched_codes bg r) as (Hx1 & Hy1 & Hx2 & Hy2 & Horigin & Hdest).
    rewrite Hx1, Hy1, Hx2, Hy2 in Hout. rewrite Horigin, Hdest.
    unfold first_code. destruct Hout as [-> | ->]; [by left|by right]. }
  split; [exact Hna|].
  destruct (fetched_frame table since raw o Hraw Htable Hge) as (Hne & Hcols & Hin).
  destruct Hna as [Hna|Hna].
  - apply (clean_transform_missing_id raw (project select_list o) "Origin_BG");
      [done|done|done|compute_done|].
    rewrite (proj1 (fetched_area_codes o)), Hna. reflexivity.
  - apply (clean_transform_missing_id raw (project select_list o) "Dest_BG");
      [done|done|done|compute_done|].
    rewrite (proj2 (fetched_area_codes o)), Hna. reflexivity.
Qed.

End Pipeline.

End PipelineFacts.

(* ===================================================================== *)
(** ** The listing *)
(* ===================================================================== *)

Module ListingFacts.
Import Py Frame Ingest Listing.
Local Open Scope list_scope.
Local Open Scope Z_scope.

Definition before (a b : pystr) : Prop := pystr_lt a b = true.

Lemma pystr_lt_irrefl a : pystr_lt a a = false.
Proof.
  induction a as [|x a IH]; [done|].
  cbn [pystr_lt]. by rewrite Z.ltb_irrefl, Z.eqb_refl, IH.
Qed.

Lemma pystr_lt_trans a b c : before a b → before b c → before a c.
Proof.
  unfold before. revert b c. induction a as [|x a IH]; intros [|y b] [|z c]; try done.
  cbn [pystr_lt]. rewrite !orb_true_iff, !andb_true_iff.
  rewrite !Z.ltb_lt, !Z.eqb_eq.
  intros [Hxy|[-> Hab]] [Hyz|[-> Hbc]].
  - left. lia.
  - by left.
  - by left.
  - right. split; [done|]. by apply (IH b c).
Qed.

(** Two texts are equal, or one comes before the other. *)
Lemma pystr_lt_total a b : pystr_lt a b = false → a ≠ b → before b a.
Proof.
  unfold before. revert b. induction a as [|x a IH]; intros [|y b]; try done.
  cbn [pystr_lt]. rewrite orb_false_iff, andb_false_iff.
  rewrite orb_true_iff, andb_true_iff, Z.ltb_ge, Z.ltb_lt, !Z.eqb_eq, Z.eqb_neq.
  intros [Hle Hrest] Hne.
  destruct (decide (x = y)) as [->|Hxy]; [|left; lia].
  right. split; [done|]. apply IH.
  - by destruct Hrest.
  - intros ->. done.
Qed.

Lemma insert_sorted_elem u l v : v ∈ insert_sorted u l ↔ v = u ∨ v ∈ l.
Proof.
  induction l as [|w l IH]; cbn [insert_sorted].
  - rewrite list_elem_of_singleton. split; [by left|]. intros [?|Hin]; [done|].
    by apply elem_of_nil in Hin.
  - destruct (pystr_lt u w).
    + by rewrite elem_of_cons.
    + unfold pystr_eqb. case_bool_decide as Heq.
      * subst w. rewrite elem_of_cons. split; [by right|].
        intros [->|Hin]; [by left|done].
      * rewrite !elem_of_cons, IH. split.
        -- intros [->|[->|Hin]]; [right; by left|by left|right; by right].
        -- intros [->|[->|Hin]]; [right; by left|by left|right; by right].
Qed.

Lemma insert_sorted_sorted u l :
  StronglySorted before l → StronglySorted before (insert_sorted u l).
Proof.
  induction 1 as [|w l Hl IH Hw]; cbn [insert_sorted].
  - repeat constructor.
  - destruct (pystr_lt u w) eqn:Huw.
    + constructor; [by constructor|]. constructor; [exact Huw|].
      apply Forall_forall. intros v Hv.
      apply (pystr_lt_trans u w v Huw).
      by apply (proj1 (Forall_forall _ _) Hw v).
    + unfold pystr_eqb. case_bool_decide as Heq; [by constructor|].
      constructor; [exact IH|].
      apply Forall_forall. intros v Hv.
      apply insert_sorted_elem in Hv as [->|Hv].
      * by apply pystr_lt_total.
      * by apply (proj1 (Forall_forall _ _) Hw v).
Qed.

Lemma sorted_set_elem l v : v ∈ sorted_set l ↔ v ∈ l.
Proof.
  induction l as [|u l IH]; [done|].
  cbn [sorted_set fold_right]. fold (sorted_set l).
  by rewrite insert_sorted_elem, IH, elem_of_cons.
Qed.

Lemma sorted_set_sorted l : StronglySorted before (sorted_set l).
Proof.
  induction l as [|u l IH]; [constructor|].
  cbn [sorted_set fold_right]. by apply insert_sorted_sorted.
Qed.

Lemma sorted_NoDup l : StronglySorted before l → NoDup l.
Proof.
  induction 1 as [|w l Hl IH Hw]; [constructor|].
  apply NoDup_cons. split; [|exact IH].
  intros Hin.
  pose proof (proj1 (Forall_forall _ _) Hw w Hin) as Hlt.
  unfold before in Hlt. by rewrite pystr_lt_irrefl in Hlt.
Qed.

Section WithText.
Context `{TextOps}.

(** X21.  [list_matching_files] returns each URL once, in ascending
    order of [str]; the URLs are those of the [href]s that end with
    the configured suffix, contain the configured substring and pass
    the year filter, each joined to the listing URL.  If the request
    for the page fails, so does the function. *)
Theorem listed_urls_are_sorted_and_unique :
  ∀ cfg listing_url years hrefs,
    StronglySorted before (matching_urls cfg listing_url years hrefs)
    ∧ NoDup (matching_urls cfg listing_url years hrefs)
    ∧ (∀ u, u ∈ matching_urls cfg listing_url years hrefs
            ↔ ∃ href, href ∈ hrefs ∧ wanted cfg years href = true
                      ∧ u = urljoin listing_url href)
    ∧ list_matching_files cfg listing_url years (Ok hrefs)
      = Ok (matching_urls cfg listing_url years hrefs)
    ∧ ∀ e, list_matching_files cfg listing_url years (Raise e) = Raise e.
Proof.
  intros cfg listing_url years hrefs. unfold matching_urls.
  split; [apply sorted_set_sorted|].
  split; [apply sorted_NoDup, sorted_set_sorted|].
  split; [|split; [reflexivity|reflexivity]].
  intros u. rewrite sorted_set_elem. split.
  - intros Hu. apply list_elem_of_In, in_map_iff in Hu as (href & <- & Hh).
    apply filter_In in Hh as [Hh Hw]. exists href.
    split; [by apply list_elem_of_In|by split].
  - intros (href & Hh & Hw & ->).
    apply list_elem_of_In, in_map_iff. exists href. split; [done|].
    apply filter_In. split; [by apply list_elem_of_In|done].
Qed.

Lemma date_at_no_digit c s : decimal c = None → date_at (c :: s) = None.
Proof. intros Hc. cbn [date_at]. by rewrite Hc. Qed.

Lemma search_date_skip pre s :
  Forall (fun c => decimal c = None) pre → search_date (pre ++ s) = search_date s.
Proof.
  induction 1 as [|c pre Hc _ IH]; [done|].
  cbn [app search_date]. by rewrite date_at_no_digit.
Qed.

Lemma search_date_none s :
  Forall (fun c => decimal c = None) s → search_date s = None.
Proof.
  intros Hs. rewrite <- (app_nil_r s). by rewrite search_date_skip.
Qed.

(** X22.  The year filter reads the year of the leftmost
    [YYYY-MM-DD] in the [href]: when no digit comes before that date,
    the [href] is kept exactly when it has the suffix and the
    substring and that year is one of [only_years].  An [href] without
    any digit has no date and is kept whatever the years; and with
    [only_years] unset or empty no [href] is dropped for its date. *)
Theorem year_filter_reads_the_first_date :
  ∀ cfg,
    (∀ pre y1 y2 y3 y4 m1 m2 d1 d2 post a b c d m m' e e' y ys,
        Forall (fun x => decimal x = None) pre →
        decimal y1 = Some a → decimal y2 = Some b →
        decimal y3 = Some c → decimal y4 = Some d →
        decimal m1 = Some m → decimal m2 = Some m' →
        decimal d1 = Some e → decimal d2 = Some e' →
        wanted cfg (Some (y :: ys))
          (pre ++ [y1; y2; y3; y4; 45; m1; m2; 45; d1; d2] ++ post)
        = ends_with (file_suffix cfg)
            (pre ++ [y1; y2; y3; y4; 45; m1; m2; 45; d1; d2] ++ post)
          && contains (filename_substring cfg)
               (pre ++ [y1; y2; y3; y4; 45; m1; m2; 45; d1; d2] ++ post)
          && bool_decide (1000 * a + 100 * b + 10 * c + d ∈ y :: ys))
    ∧ (∀ href years,
        Forall (fun x => decimal x = None) href →
        wanted cfg years href
        = ends_with (file_suffix cfg) href && contains (filename_substring cfg) href)
    ∧ (∀ href years,
        years = None ∨ years = Some [] →
        wanted cfg years href
        = ends_with (file_suffix cfg) href && contains (filename_substring cfg) href).
Proof.
  intros cfg. split; [|split].
  - intros pre y1 y2 y3 y4 m1 m2 d1 d2 post a b c d m m' e e' y ys
      Hpre H1 H2 H3 H4 H5 H6 H7 H8.
    unfold wanted. f_equal. rewrite search_date_skip by done.
    cbn [app search_date date_at]. rewrite H1, H2, H3, H4, H5, H6, H7, H8.
    reflexivity.
  - intros href years Hnone. unfold wanted.
    rewrite search_date_none by done.
    destruct years as [[|y ys]|]; by rewrite andb_true_r.
  - intros href years [-> | ->]; unfold wanted; by rewrite andb_true_r.
Qed.

End WithText.

Lemma file_name_app pre s :
  file_name (pre ++ s)
  = fold_left (fun acc c => if c =? 47 then [] else acc ++ [c]) s (file_name pre).
Proof. unfold file_name. by rewrite fold_left_app. Qed.

Lemma file_name_plain acc s :
  47 ∉ s →
  fold_left (fun acc c => if c =? 47 then [] else acc ++ [c]) s acc = acc ++ s.
Proof.
  revert acc. induction s as [|c s IH]; intros acc Hs; [by rewrite app_nil_r|].
  apply not_elem_of_cons in Hs as [Hc Hs].
  cbn [fold_left]. rewrite (proj2 (Z.eqb_neq c 47)) by done.
  rewrite IH by done. by rewrite <- app_assoc.
Qed.

Lemma file_name_no_slash acc s :
  47 ∉ acc →
  47 ∉ fold_left (fun acc c => if c =? 47 then [] else acc ++ [c]) s acc.
Proof.
  revert acc. induction s as [|c s IH]; intros acc Hacc; [done|].
  cbn [fold_left]. apply IH. destruct (Z.eqb_spec c 47) as [->|Hne].
  - apply not_elem_of_nil.
  - rewrite elem_of_app, list_elem_of_singleton. intros [?|?]; [done|congruence].
Qed.

(** X23.  The file name of a URL is what follows its last slash: it
    holds no slash, the URL ends with it, and a name without a slash
    that is put after a slash is read back as it is.  So two URLs that
    differ only before the last slash have the same file name. *)
Theorem file_name_is_the_last_segment :
  (∀ url, (47 ∉ file_name url)
          ∧ ∃ pre, url = pre ++ file_name url ∧ (pre = [] ∨ last pre = Some 47))
  ∧ (∀ pre name, 47 ∉ name → file_name (pre ++ [47] ++ name) = name)
  ∧ (∀ name, 47 ∉ name → file_name name = name).
Proof.
  split; [|split].
  - intros url. split; [apply file_name_no_slash, not_elem_of_nil|].
    induction url as [|c url IH] using rev_ind.
    + exists []. split; [done|by left].
    + rewrite file_name_app. cbn [fold_left].
      destruct (Z.eqb_spec c 47) as [->|Hne].
      * exists (url ++ [47]). rewrite app_nil_r. split; [done|].
        right. by rewrite last_snoc.
      * destruct IH as (pre & Heq & Hpre). exists pre.
        split; [|exact Hpre]. rewrite app_assoc. by rewrite <- Heq.
  - intros pre name Hname. rewrite app_assoc, file_name_app.
    rewrite file_name_app. cbn [fold_left].
    change (47 =? 47) with true. cbv iota. by rewrite file_name_plain.
  - intros name Hname. unfold file_name. by rewrite file_name_plain.
Qed.

End ListingFacts.

Module OutputExamples.
Import Py Frame Transform HashFacts MergeFacts RunFacts CanonicalFacts OutputFacts
  LoadFacts StagingFacts FetchFacts.
Local Open Scope string_scope.
Local Open Scope list_scope.
Local Open Scope Z_scope.

(** X5 on two legs of the file of 2024-05-01: both come out, each with
    a trip date, its id and a hash of 64 digits. *)
Lemma clean_transform_output_rows_witness :
  columns (Sample.cleaned (Sample.frame_of [Sample.leg; Sample.leg2])) = clean_columns
  ∧ length (rows (Sample.cleaned (Sample.frame_of [Sample.leg; Sample.leg2]))) = 2%nat
  ∧ ∀ o, o ∈ rows (Sample.cleaned (Sample.frame_of [Sample.leg; Sample.leg2])) →
         (∃ d, get o "trip_date" = VDate d)
         ∧ (∃ s, get o "user_trip_id" = VStr s)
         ∧ ∀ k, is_inf (get o k) = false.
Proof.
  destruct (@clean_transform_output_rows Sample.ops
              (Sample.frame_of [Sample.leg; Sample.leg2])
              (Sample.cleaned (Sample.frame_of [Sample.leg; Sample.leg2])))
    as (Hcols & Hlen & Hrows).
  - reflexivity.
  - apply cleaned_ok. vm_compute. reflexivity.
  - split; [exact Hcols|]. split.
    + rewrite Hlen. vm_compute. reflexivity.
    + intros o Ho. destruct (Hrows o Ho) as (Hd & Hs & _ & Hinf). by repeat split.
Defined.


(** X7 on a leg whose origin lies in no block group: the transform of
    the frame raises [TypeError]. *)
Lemma clean_transform_stops_on_a_missing_id_witness :
  isna (get (<["Origin_BG" := VNone]> Sample.leg) "Origin_BG") = true
  ∧ @clean_transform Sample.ops
      (Sample.frame_of [ <["Origin_BG" := VNone]> Sample.leg ])
    = Raise TypeError.
Proof.
  split; [reflexivity|].
  apply (proj2 (proj2 (@clean_transform_stops_on_a_missing_id Sample.ops
                         (Sample.frame_of [ <["Origin_BG" := VNone]> Sample.leg ])
                         eq_refl
                         (fun c Hc => bool_decide_eq_true_2 _ Hc)))
           (<["Origin_BG" := VNone]> Sample.leg) "Origin_BG").
  - apply list_elem_of_singleton. reflexivity.
  - apply elem_of_cons. right. apply elem_of_cons. left. reflexivity.
  - reflexivity.
Defined.

(** X9 on two legs and an empty table: the upsert returns 2, the
    number of rows of the frame, and the table grows by at most 2. *)
Lemma upsert_returns_the_rows_staged_witness :
  ∃ tbl',
    upsert_legtrips_clean (Sample.no_table true) Sample.two_legs = Ok (tbl', 2%nat)
    ∧ 2%nat = (if empty Sample.two_legs then O else length (rows Sample.two_legs))
    ∧ ∃ inserted, stored tbl' = stored (Sample.no_table true) ++ inserted
                  ∧ (length inserted ≤ 2)%nat.
Proof.
  assert (Hrun : ∃ hs,
    Sample.upsert_summary
      (upsert_legtrips_clean (Sample.no_table true) Sample.two_legs)
    = Ok (hs, 2%nat))
    by (vm_compute; eexists; reflexivity).
  destruct Hrun as (hs & Hrun).
  destruct (upsert_legtrips_clean (Sample.no_table true) Sample.two_legs)
    as [[tbl' n]|e] eqn:Hup; [|discriminate Hrun].
  injection Hrun as _ ->. exists tbl'. split; [reflexivity|].
  destruct (upsert_returns_the_rows_staged _ _ _ _ Hup) as (Hn & Hins & _).
  split; [exact Hn | exact Hins].
Defined.

(** X11 on the raw table of 2024-05-02 and the watermark 2024-05-01:
    the boundary is 2024-04-26, and both legs of the watermark's day
    are fetched again. *)
Lemma overlap_window_is_refetched_witness :
  compute_since (Sample.may_1st + 1) (Some (midnight Sample.may_1st)) 34 5
  = Ok (midnight Sample.may_1st - 5 * DAY)
  ∧ ∀ r t, r ∈ rows Sample.raw_legs → get r "file_date" = VTimestamp t →
           midnight Sample.may_1st ≤ t →
           project select_list r
           ∈ rows (Sample.the Sample.no_frame
                     (fetch_new_raw Sample.raw_legs (midnight Sample.may_1st - 5 * DAY))).
Proof.
  assert (Hsince : compute_since (Sample.may_1st + 1) (Some (midnight Sample.may_1st)) 34 5
                   = Ok (midnight Sample.may_1st - 5 * DAY))
    by (vm_compute; reflexivity).
  split; [exact Hsince|].
  refine (proj2 (proj2 (overlap_window_is_refetched _ _ _ _ _ Sample.raw_legs _
                          Hsince _)) _).
  - apply ok_the. vm_compute. reflexivity.
  - lia.
Defined.

End OutputExamples.

Module OutcomeExamples.
Import Py Frame Transform HashFacts MergeFacts RunFacts WatermarkFacts CanonicalFacts
  OutcomeFacts.
Local Open Scope string_scope.
Local Open Scope list_scope.
Local Open Scope Z_scope.

(** X12 on the first run of 2024-05-02: the connection is closed when
    the run is over, and the close is its last call. *)
Lemma run_leaves_no_connection_open_witness :
  connection (fst (@run Sample.ops Sample.config
                     (Sample.env_on (Sample.may_1st + 1) Sample.raw_legs None)
                     Sample.fresh)) = None
  ∧ ∃ middle,
      trace (fst (@run Sample.ops Sample.config
                    (Sample.env_on (Sample.may_1st + 1) Sample.raw_legs None)
                    Sample.fresh))
      = trace Sample.fresh ++ (EvConnect :: middle) ++ [EvClose].
Proof.
  destruct (@run_leaves_no_connection_open Sample.ops Sample.config
              (Sample.env_on (Sample.may_1st + 1) Sample.raw_legs None)
              Sample.fresh eq_refl) as (Hclosed & _ & Hlate).
  split; [exact Hclosed|].
  destruct (Hlate (midnight (Sample.may_1st + 1 - 34))) as (middle & Htrace & _).
  - vm_compute. reflexivity.
  - vm_compute. reflexivity.
  - exists middle. exact Htrace.
Defined.

(** X13 on the first run of 2024-05-02 when the state file cannot be
    written: the run raises, the aggregates were rebuilt and the commit
    stands, and there is still no state file. *)
Lemma failure_after_commit_keeps_the_data_witness :
  snd (@run Sample.ops Sample.config
         (Sample.env_on (Sample.may_1st + 1) Sample.raw_legs (Some AtSaveState))
         Sample.fresh)
  = Raise (ExternalError "unavailable")
  ∧ refreshes (committed (fst (@run Sample.ops Sample.config
         (Sample.env_on (Sample.may_1st + 1) Sample.raw_legs (Some AtSaveState))
         Sample.fresh))) = 1%nat
  ∧ state_file (fst (@run Sample.ops Sample.config
         (Sample.env_on (Sample.may_1st + 1) Sample.raw_legs (Some AtSaveState))
         Sample.fresh)) = None
  ∧ trace (fst (@run Sample.ops Sample.config
         (Sample.env_on (Sample.may_1st + 1) Sample.raw_legs (Some AtSaveState))
         Sample.fresh))
    = [EvConnect; EvCommit; EvRollback; EvClose].
Proof.
  set (env := Sample.env_on (Sample.may_1st + 1) Sample.raw_legs (Some AtSaveState)).
  set (since := midnight (Sample.may_1st + 1 - 34)).
  set (raw := Sample.the Sample.no_frame (fetch_new_raw Sample.raw_legs since)).
  assert (Hmerge : ∃ hs,
    Sample.upsert_summary
      (upsert_legtrips_clean (Sample.no_table true) (Sample.cleaned raw))
    = Ok (hs, 2%nat))
    by (vm_compute; eexists; reflexivity).
  destruct Hmerge as (hs & Hmerge).
  destruct (upsert_legtrips_clean (Sample.no_table true) (Sample.cleaned raw))
    as [[tbl n]|e] eqn:Hup; [|discriminate Hmerge].
  destruct (@failure_after_commit_keeps_the_data Sample.ops Sample.config env
              Sample.fresh since raw tbl (ExternalError "unavailable"))
    as (Hraise & Hdb & Hfile & _ & Htrace).
  - reflexivity.
  - vm_compute. reflexivity.
  - vm_compute. reflexivity.
  - exists (Sample.cleaned raw), n. split; [|split; [|split; [|split]]].
    + apply (ok_the Sample.no_frame). vm_compute. reflexivity.
    + apply cleaned_ok. vm_compute. reflexivity.
    + exact Hup.
    + vm_compute. reflexivity.
    + vm_compute. reflexivity.
  - vm_compute. reflexivity.
  - split; [exact Hraise|]. split; [rewrite Hdb; reflexivity|].
    split; [rewrite Hfile; reflexivity|]. exact Htrace.
Defined.

(** X14 on the first run of 2024-05-02: the aggregates are rebuilt
    once, the run commits, and the state file carries the time of the
    run. *)
Lemma successful_run_commits_and_stamps_witness :
  refreshes (committed (fst (@run Sample.ops Sample.config
               (Sample.env_on (Sample.may_1st + 1) Sample.raw_legs None)
               Sample.fresh))) = 1%nat
  ∧ (∃ state', state_file (fst (@run Sample.ops Sample.config
                  (Sample.env_on (Sample.may_1st + 1) Sample.raw_legs None)
                  Sample.fresh)) = Some state'
               ∧ last_run_utc state' = Some (text "2024-05-02T06:00:00+00:00"))
  ∧ trace (fst (@run Sample.ops Sample.config
               (Sample.env_on (Sample.may_1st + 1) Sample.raw_legs None)
               Sample.fresh))
    = [EvConnect; EvCommit; EvSaveState; EvClose].
Proof.
  destruct (@successful_run_commits_and_stamps Sample.ops Sample.config
              (Sample.env_on (Sample.may_1st + 1) Sample.raw_legs None)
              Sample.fresh) as (Hrefresh & _ & Hstate & Htrace).
  - reflexivity.
  - vm_compute. reflexivity.
  - split; [exact Hrefresh|]. split; [exact Hstate | exact Htrace].
Defined.

End OutcomeExamples.

Module IngestExamples.
Import Py Frame Transform Ingest HashFacts RunFacts EnrichFacts CanonicalFacts
  FetchFacts ProvenanceFacts IngestFacts PipelineFacts.
Local Open Scope string_scope.
Local Open Scope list_scope.
Local Open Scope Z_scope.

(** A text that holds none of the characters listed. *)
Ltac absent :=
  repeat (apply not_elem_of_cons; split; [discriminate|]); apply not_elem_of_nil.

(** X15 on [tapped_trip_view_legs_2024-05-01.csv]: the date text is
    [2024-05-01]. *)
Lemma file_date_is_read_from_the_name_witness :
  @file_date_text Sample.ingest_config (text "tapped_trip_view_legs_2024-05-01.csv")
  = text "2024-05-01".
Proof.
  apply (proj1 (@file_date_is_read_from_the_name Sample.ops Sample.grid
                  Sample.ingest_config (text "2024-05-01")
                  ltac:(intros a [= <-]; absent)
                  ltac:(intros b [= <-]; absent))).
Defined.

(** X17 on a listing of one good file and no raw table: the first run
    writes its row, the second finds nothing to do. *)
Lemma second_ingest_run_inserts_nothing_witness :
  ∃ table',
    @run Sample.ops Sample.grid Sample.ingest_config Sample.block_groups
      [ Sample.file_of "2024-05-01" (Csv Sample.csv_good) ] None
    = (table', Ok 1%nat)
    ∧ @run Sample.ops Sample.grid Sample.ingest_config Sample.block_groups
        [ Sample.file_of "2024-05-01" (Csv Sample.csv_good) ] table'
      = (table', Ok O).
Proof.
  assert (Hfirst : snd (@run Sample.ops Sample.grid Sample.ingest_config
                          Sample.block_groups
                          [ Sample.file_of "2024-05-01" (Csv Sample.csv_good) ] None)
                   = Ok 1%nat) by (vm_compute; reflexivity).
  destruct (@run Sample.ops Sample.grid Sample.ingest_config Sample.block_groups
              [ Sample.file_of "2024-05-01" (Csv Sample.csv_good) ] None)
    as [table' r] eqn:Hrun.
  cbn [snd] in Hfirst. subst r. exists table'. split; [reflexivity|].
  exact (proj1 (@second_ingest_run_inserts_nothing Sample.ops Sample.grid
                  Sample.ingest_config Sample.block_groups _ _ _ _ Hrun)).
Defined.

(** X18 on three files, the second without its [start_latitude]
    column: the run raises [KeyError] at the second file, and the row
    of the first file is in the table. *)
Lemma ingest_keeps_what_it_wrote_before_a_failure_witness :
  ∃ table1,
    @ingest_files Sample.ops Sample.grid Sample.ingest_config Sample.block_groups
      [ Sample.file_of "2024-05-01" (Csv Sample.csv_good) ] None O
    = (table1, Ok 1%nat)
    ∧ @ingest_files Sample.ops Sample.grid Sample.ingest_config Sample.block_groups
        [ Sample.file_of "2024-05-01" (Csv Sample.csv_good);
          Sample.file_of "2024-05-02" (Csv Sample.csv_no_latitude);
          Sample.file_of "2024-05-03" (Csv Sample.csv_good) ] None O
      = (table1, Raise KeyError)
    ∧ length (raw_rows table1) = 1%nat.
Proof.
  assert (Hfirst : snd (@ingest_files Sample.ops Sample.grid Sample.ingest_config
                          Sample.block_groups
                          [ Sample.file_of "2024-05-01" (Csv Sample.csv_good) ] None O)
                   = Ok 1%nat) by (vm_compute; reflexivity).
  destruct (@ingest_files Sample.ops Sample.grid Sample.ingest_config Sample.block_groups
              [ Sample.file_of "2024-05-01" (Csv Sample.csv_good) ] None O)
    as [table1 r] eqn:Hbefore.
  cbn [snd] in Hfirst. subst r. exists table1. split; [reflexivity|].
  destruct (@ingest_keeps_what_it_wrote_before_a_failure Sample.ops Sample.grid
              Sample.ingest_config Sample.block_groups
              [ Sample.file_of "2024-05-01" (Csv Sample.csv_good) ]
              (Sample.file_of "2024-05-02" (Csv Sample.csv_no_latitude))
              [ Sample.file_of "2024-05-03" (Csv Sample.csv_good) ]
              None O table1 1%nat KeyError Hbefore)
    as (Hall & added & Hrows & Hcount).
  - right. exists Sample.csv_no_latitude. split; [reflexivity|].
    vm_compute. reflexivity.
  - split; [exact Hall|]. rewrite Hrows. cbn [raw_rows app]. lia.
Defined.

(** X19 on a file named [tapped_trip_view_legs_latest.csv]: its row has
    no file date, and no boundary fetches it. *)
Lemma undated_file_is_never_fetched_witness :
  (∀ o, o ∈ rows (Sample.the Sample.no_frame
                    (@enrich_file_dataframe Sample.ops Sample.grid Sample.csv_good
                       (text "tapped_trip_view_legs_latest.csv")
                       Sample.ingest_config Sample.block_groups)) →
        get o "file_date" = VNaT)
  ∧ length (rows (Sample.the Sample.no_frame
                    (@enrich_file_dataframe Sample.ops Sample.grid Sample.csv_good
                       (text "tapped_trip_view_legs_latest.csv")
                       Sample.ingest_config Sample.block_groups))) = 1%nat.
Proof.
  split; [|vm_compute; reflexivity].
  refine (proj1 (@undated_file_is_never_fetched Sample.ops Sample.grid
                   Sample.ingest_config Sample.csv_good
                   (text "tapped_trip_view_legs_latest.csv") Sample.block_groups
                   _ _ _)).
  - apply ok_the. vm_compute. reflexivity.
  - vm_compute. reflexivity.
Defined.

(** The enriched file of 2024-05-01 as a raw table. *)
Definition raw_of_2024_05_01 : DataFrame :=
  Sample.the Sample.no_frame
    (@enrich_file_dataframe Sample.ops Sample.grid Sample.csv_good
       (text "tapped_trip_view_legs_2024-05-01.csv")
       Sample.ingest_config Sample.block_groups).

(** X20 on that file, whose one leg ends outside both block groups:
    once ingested and fetched, the leg makes the transform raise. *)
Lemma leg_outside_the_layer_stops_the_transform_witness :
  map (fun o => get o "Dest_BG") (rows raw_of_2024_05_01) = [VNA]
  ∧ @clean_transform Sample.ops
      (Sample.the Sample.no_frame
         (fetch_new_raw raw_of_2024_05_01 (midnight (Sample.may_1st - 5))))
    = Raise TypeError.
Proof.
  split; [vm_compute; reflexivity|].
  assert (Hrow : map (fun o => (length (@hits Sample.grid (get o "end_longitude")
                                          (get o "end_latitude") Sample.block_groups),
                                file_date_ge (midnight (Sample.may_1st - 5)) o))
                     (rows raw_of_2024_05_01)
                 = [(O, true)]) by (vm_compute; reflexivity).
  destruct (rows raw_of_2024_05_01) as [|o [|o' os]] eqn:Hrows;
    [discriminate Hrow| |discriminate Hrow].
  cbn [map] in Hrow. injection Hrow as Hhits Hge.
  refine (proj2 (@leg_outside_the_layer_stops_the_transform Sample.ops Sample.grid
                   Sample.ingest_config Sample.csv_good
                   (text "tapped_trip_view_legs_2024-05-01.csv") Sample.block_groups
                   raw_of_2024_05_01 o raw_of_2024_05_01
                   (midnight (Sample.may_1st - 5)) _ _ _ _ _ Hge _)).
  - apply ok_the. vm_compute. reflexivity.
  - rewrite Hrows. apply list_elem_of_singleton. reflexivity.
  - right. by destruct (hits _ _ _).
  - rewrite Hrows. apply list_elem_of_singleton. reflexivity.
  - apply ok_the. vm_compute. reflexivity.
Defined.

End IngestExamples.

(* ===================================================================== *)
(** ** Reading a window of the raw table a second time *)
(* ===================================================================== *)

Module ReprocessFacts.
Import Py Frame Transform HashFacts MergeFacts WatermarkFacts CanonicalFacts
  DigestFacts OutputFacts LoadFacts FetchFacts.
Local Open Scope string_scope.
Local Open Scope list_scope.
Local Open Scope Z_scope.






Section Reprocess.
Context `{PandasOps}.





End Reprocess.

End ReprocessFacts.

(* ===================================================================== *)
(** ** The watermark and the newest file *)
(* ===================================================================== *)

Module NewestFacts.
Import Py Frame Transform HashFacts MergeFacts RunFacts WatermarkFacts FetchFacts
  OutcomeFacts.
Local Open Scope string_scope.
Local Open Scope list_scope.
Local Open Scope Z_scope.

Section Newest.
Context `{PandasOps}.
Variables (cfg : TransformConfig) (env : Env).

(** X25.  After a successful run the watermark is the newest file date
    of the raw table, provided that date is inside the window of the
    run; every dated row of the table is then at or before the
    watermark.  When no row of the table is inside the window, the run
    leaves the watermark as it found it. *)
Theorem watermark_is_the_newest_file_date :
  ∀ s,
    connection s = None →
    snd (run cfg env s) = Ok tt →
    ∃ since,
      boundary cfg env s = Ok since
      ∧ (((∀ r t, r ∈ rows (raw_table env) → get r "file_date" = VTimestamp t →
                  t < since)
          ∧ watermark (fst (run cfg env s)) = watermark s)
         ∨ (∃ r m, r ∈ rows (raw_table env)
                   ∧ get r "file_date" = VTimestamp m
                   ∧ since ≤ m
                   ∧ watermark (fst (run cfg env s)) = Some m
                   ∧ ∀ r' t, r' ∈ rows (raw_table env) →
                             get r' "file_date" = VTimestamp t → t ≤ m)).
Proof.
  intros s Hidle Hok.
  destruct (run_succeeded cfg env s Hidle Hok)
    as (since & raw & state' & Hsince & Hraw & Hadv & Hfile & _).
  exists since. split; [exact Hsince|].
  unfold watermark at 1 3. rewrite Hfile. cbn [load_state].
  destruct (advance_watermark _ _ _ _ _ _ Hraw Hadv)
    as [[Hnil Hsame] | (r & m & Hr & Hm & Hle & Hlast & Hmax)].
  - left. split; [|exact Hsame].
    intros r t Hr Ht.
    apply fetch_new_raw_rows in Hraw as [_ Hrows]. rewrite Hnil in Hrows.
    destruct (Z.lt_ge_cases t since) as [Hlt|Hge]; [exact Hlt|].
    assert (Hin : r ∈ filter (fun r => file_date_ge since r = true)
                         (rows (raw_table env))).
    { apply list_elem_of_filter. split; [|exact Hr].
      apply file_date_ge_iff. by exists t. }
    destruct (filter _ (rows (raw_table env))); [by apply elem_of_nil in Hin|done].
  - right. exists r, m. repeat (split; [done|]).
    intros r' t Hr' Ht.
    destruct (Z.lt_ge_cases t since) as [Hlt|Hge]; [lia|].
    by apply (Hmax r' t).
Qed.

End Newest.

End NewestFacts.

(* ===================================================================== *)
(** ** The delimiter of the hash input *)
(* ===================================================================== *)

Module DelimiterFacts.
Import Py Frame Transform HashFacts DigestFacts.
Local Open Scope string_scope.
Local Open Scope list_scope.
Local Open Scope Z_scope.

(** The code point of [|]. *)
Definition bar : Z := 124.

(** What follows the first part of a joined text. *)
Definition trail (ps : list pystr) : pystr := flat_map (fun p => bar :: p) ps.

Lemma join_trail p ps : join (text "|") (p :: ps) = p ++ trail ps.
Proof.
  revert p. induction ps as [|q ps IH]; intros p.
  - cbn [join trail flat_map]. by rewrite app_nil_r.
  - change (join (text "|") (p :: q :: ps)) with (p ++ bar :: join (text "|") (q :: ps)).
    rewrite IH. reflexivity.
Qed.

Lemma split_at_bar p q r1 r2 :
  bar ∉ p → bar ∉ q → p ++ bar :: r1 = q ++ bar :: r2 → p = q ∧ r1 = r2.
Proof.
  revert q. induction p as [|x p IH]; intros q Hp Hq Heq.
  - destruct q as [|y q]; cbn [app] in Heq.
    + by injection Heq as ->.
    + injection Heq as <- _. destruct Hq. by left.
  - destruct q as [|y q]; cbn [app] in Heq.
    + injection Heq as -> _. destruct Hp. by left.
    + injection Heq as -> Heq.
      destruct (IH q) as [-> ->]; [|  |exact Heq|done].
      * intros Hin. apply Hp. by right.
      * intros Hin. apply Hq. by right.
Qed.

Lemma trail_inj p q ps qs :
  length ps = length qs →
  bar ∉ p → bar ∉ q →
  Forall (fun x => bar ∉ x) ps → Forall (fun x => bar ∉ x) qs →
  p ++ trail ps = q ++ trail qs → p = q ∧ ps = qs.
Proof.
  revert p q qs. induction ps as [|p' ps IH]; intros p q qs Hlen Hp Hq Hps Hqs Heq.
  - destruct qs; [|done]. cbn [trail flat_map] in Heq.
    rewrite !app_nil_r in Heq. by split.
  - destruct qs as [|q' qs]; [done|].
    change (trail (p' :: ps)) with (bar :: (p' ++ trail ps)) in Heq.
    change (trail (q' :: qs)) with (bar :: (q' ++ trail qs)) in Heq.
    apply split_at_bar in Heq as [-> Heq]; [|done|done].
    apply Forall_cons in Hps as [Hp' Hps]. apply Forall_cons in Hqs as [Hq' Hqs].
    destruct (IH p' q' qs) as [-> ->]; try done.
    by injection Hlen.
Qed.

Lemma join_inj ps qs :
  length ps = length qs →
  Forall (fun x => bar ∉ x) ps → Forall (fun x => bar ∉ x) qs →
  join (text "|") ps = join (text "|") qs → ps = qs.
Proof.
  intros Hlen Hps Hqs Heq.
  destruct ps as [|p ps], qs as [|q qs]; try done.
  rewrite !join_trail in Heq.
  apply Forall_cons in Hps as [Hp Hps]. apply Forall_cons in Hqs as [Hq Hqs].
  destruct (trail_inj p q ps qs) as [-> ->]; try done.
  by injection Hlen.
Qed.

(** The fields hashed after the trip id and the start time. *)
Definition later_fields : list string := drop 2 hashed_fields.

Lemma part_of_text s : part_of (VStr s) = Ok s.
Proof. unfold part_of, or_else. cbn [truth bind]. by destruct s. Qed.

(** The parts of a row with its trip id and start time set. *)
Lemma parts_of_two (r : gmap string Value) a b :
  rowhash_parts (<["user_trip_id" := VStr a]> (<["start_time" := VStr b]> r))
  = bind (mapM (part r) later_fields) (fun rest => Ok (a :: b :: rest)).
Proof.
  unfold rowhash_parts.
  change hashed_fields with ("user_trip_id" :: "start_time" :: later_fields).
  cbn [mapM]. unfold part at 1 2.
  rewrite get_insert_eq, get_insert_ne, get_insert_eq by discriminate.
  rewrite !part_of_text. cbn [bind].
  rewrite (mapM_ext _ (part r) later_fields).
  - by destruct (mapM (part r) later_fields).
  - intros k Hk. unfold part. rewrite !get_insert_ne; [reflexivity| |].
    + intros <-. revert Hk. compute_done.
    + intros <-. revert Hk. compute_done.
Qed.

(** X26.  The text that is hashed determines the sixteen parts it was
    joined from, as long as no part holds the delimiter [|]: two rows
    whose parts are free of it and whose joined texts are equal have
    the same parts. *)
Theorem hash_input_is_unambiguous_without_the_delimiter :
  ∀ r1 r2 ps1 ps2,
    rowhash_parts r1 = Ok ps1 →
    rowhash_parts r2 = Ok ps2 →
    Forall (fun p => bar ∉ p) ps1 →
    Forall (fun p => bar ∉ p) ps2 →
    join (text "|") ps1 = join (text "|") ps2 →
    ps1 = ps2.
Proof.
  intros r1 r2 ps1 ps2 H1 H2 Hps1 Hps2 Heq.
  apply join_inj; try done.
  apply mapM_length in H1, H2. congruence.
Qed.

(** X27.  A delimiter inside a field moves the boundary between two
    fields: the row whose trip id is [a|b] and whose start time is [c],
    and the row whose trip id is [a] and whose start time is [b|c],
    are different rows with the same hash (or the same error), whatever
    the other cells are. *)
Theorem delimiter_in_a_field_moves_the_boundary :
  ∀ (r : gmap string Value) (a b c : pystr),
    get (<["user_trip_id" := VStr (a ++ bar :: b)]> (<["start_time" := VStr c]> r))
        "user_trip_id"
    ≠ get (<["user_trip_id" := VStr a]> (<["start_time" := VStr (b ++ bar :: c)]> r))
          "user_trip_id"
    ∧ sha256_rowhash
        (<["user_trip_id" := VStr (a ++ bar :: b)]> (<["start_time" := VStr c]> r))
      = sha256_rowhash
          (<["user_trip_id" := VStr a]> (<["start_time" := VStr (b ++ bar :: c)]> r)).
Proof.
  intros r a b c. split.
  - rewrite !get_insert_eq. intros [= Heq].
    apply (f_equal (@length Z)) in Heq. rewrite length_app in Heq.
    cbn [length] in Heq. lia.
  - unfold sha256_rowhash, rowhash_bytes. rewrite !parts_of_two.
    destruct (mapM (part r) later_fields) as [rest|e]; [|reflexivity].
    cbn [bind]. rewrite !join_trail.
    change (trail (c :: rest)) with (bar :: (c ++ trail rest)).
    change (trail ((b ++ bar :: c) :: rest))
      with (bar :: ((b ++ bar :: c) ++ trail rest)).
    rewrite <- !app_assoc. reflexivity.
Qed.

End DelimiterFacts.

Module ReprocessExamples.
Import Py Frame Transform HashFacts MergeFacts RunFacts WatermarkFacts CanonicalFacts
  OutcomeFacts ReprocessFacts NewestFacts DelimiterFacts.
Local Open Scope string_scope.
Local Open Scope list_scope.
Local Open Scope Z_scope.


(** X25 on the first run of 2024-05-02: the watermark it leaves is
    2024-05-01, the date of the two legs of the raw table. *)
Lemma watermark_is_the_newest_file_date_witness :
  watermark (fst (@run Sample.ops Sample.config
                    (Sample.env_on (Sample.may_1st + 1) Sample.raw_legs None)
                    Sample.fresh))
  = Some (midnight Sample.may_1st).
Proof.
  destruct (@watermark_is_the_newest_file_date Sample.ops Sample.config
              (Sample.env_on (Sample.may_1st + 1) Sample.raw_legs None)
              Sample.fresh) as (since & Hsince & Hcases).
  - reflexivity.
  - vm_compute. reflexivity.
  - assert (Hs : since = midnight (Sample.may_1st + 1 - 34)).
    { apply Ok_inj. rewrite <- Hsince. vm_compute. reflexivity. }
    destruct Hcases as [[Hnone _] | (r & m & Hr & Hm & _ & Hw & _)].
    + exfalso.
      assert (Hlt : midnight Sample.may_1st < since).
      { apply (Hnone (Sample.as_stored Sample.leg)); [by left|].
        vm_compute. reflexivity. }
      subst since. revert Hlt. vm_compute. discriminate.
    + rewrite Hw. f_equal.
      assert (Hall : ∀ r', r' ∈ rows Sample.raw_legs →
                get r' "file_date" = VTimestamp (midnight Sample.may_1st)).
      { intros r' Hr'. cbn [Sample.raw_legs rows] in Hr'.
        apply elem_of_cons in Hr' as [->|Hr']; [vm_compute; reflexivity|].
        apply list_elem_of_singleton in Hr' as ->. vm_compute. reflexivity. }
      rewrite (Hall r Hr) in Hm. by injection Hm.
Defined.

(** X26 on a leg and the same leg without its Euclidean distance, a
    field that is not hashed: the parts of the two rows are the same. *)
Lemma hash_input_is_unambiguous_without_the_delimiter_witness :
  Sample.the [] (rowhash_parts Sample.leg)
  = Sample.the [] (rowhash_parts (<["euclidean_distance_mi" := VNone]> Sample.leg)).
Proof.
  apply (hash_input_is_unambiguous_without_the_delimiter
           Sample.leg (<["euclidean_distance_mi" := VNone]> Sample.leg)).
  - apply (ok_the []). vm_compute. reflexivity.
  - apply (ok_the []). vm_compute. reflexivity.
  - compute_done.
  - compute_done.
  - vm_compute. reflexivity.
Defined.

End ReprocessExamples.
